(** * sotodlib: preprocessing pipeline contract and PCA mode removal

    A shallow embedding of
      - [sotodlib/preprocess/core.py]: the [_Preprocess] base class with its
        four hooks and the [PIPELINE] registry;
      - [sotodlib/tod_ops/pca.py]: [get_pca], [get_pca_model], [add_model]
        and [get_trends].

    Python objects that are mutated in place (numpy arrays) live in a store
    and are passed around by reference; exceptions are values of [exn]; a
    Python function becomes a computation in the monad [py], which threads
    the store and keeps it when an exception is raised.  float64 values are
    the IEEE 754 binary64 numbers of the standard library's [SpecFloat]. *)

From Stdlib Require Import ZArith String List Lia.
From Stdlib Require Import Sorting.Sorted Sorting.Permutation.
From Stdlib Require Import Floats.SpecFloat.
From stdpp Require Import base option list gmap strings.

Open Scope string_scope.

(* ===================================================================== *)
(** * Python runtime: exceptions and the store-passing monad *)
(* ===================================================================== *)

(** The Python exceptions the two modules can raise.  [DanglingRef] is not
    a Python exception: it is the outcome of reading a reference the store
    does not hold, which no Python program can do. *)
Inductive exn : Type :=
  | NotImplementedError
  | AttributeError
  | IndexError
  | ValueError
  | LinAlgError
  | DanglingRef.

Inductive result (A : Type) : Type :=
  | Ok (a : A)
  | Raise (e : exn).
Arguments Ok {A} a.
Arguments Raise {A} e.

(** A computation over a store of type [S]: the store is returned in both
    outcomes, since what was mutated before an exception stays mutated. *)
Definition py (S A : Type) : Type := S -> result A * S.

Definition py_ret {S A} (a : A) : py S A := fun s => (Ok a, s).
Definition py_raise {S A} (e : exn) : py S A := fun s => (Raise e, s).
Definition py_bind {S A B} (m : py S A) (k : A -> py S B) : py S B :=
  fun s => match m s with
           | (Ok a, s') => k a s'
           | (Raise e, s') => (Raise e, s')
           end.
Definition py_lift {S A} (r : result A) : py S A := fun s => (r, s).

#[global] Instance py_mret {S} : MRet (py S) := @py_ret S.
#[global] Instance py_mbind {S} : MBind (py S) := fun A B k m => py_bind m k.

(** Values found in configuration dictionaries and in the registry. *)
#[warnings="-register-all"]
Inductive pyobj : Type :=
  | PyNone
  | PyBool (b : bool)
  | PyInt (z : Z)
  | PyStr (s : string)
  | PyDict (d : gmap string pyobj)
  | PyClass (c : nat).

(** [x is None] *)
Definition is_None (x : pyobj) : bool :=
  match x with PyNone => true | _ => false end.

(** [d.get(k)]: the value under [k], [None] when the key is absent. *)
Definition dict_get (d : gmap string pyobj) (k : string) : pyobj :=
  default PyNone (d !! k).

(* ===================================================================== *)
(** * sotodlib/preprocess/core.py *)
(* ===================================================================== *)

(** [PIPELINE = {}] *)
Definition PIPELINE : gmap string pyobj := ∅.

(** [_Preprocess.register(name, process_class)], on the registry passed
    explicitly.  It returns [None] and cannot raise. *)
Definition register (name : string) (process_class : pyobj)
    (pipeline : gmap string pyobj) : gmap string pyobj :=
  if is_None (dict_get pipeline name)
  then <[name := process_class]> pipeline
  else pipeline.

(** An instance of [_Preprocess]: the four attributes [__init__] stores. *)
Record _Preprocess : Type := {
  process_cfgs : pyobj;
  calc_cfgs : pyobj;
  save_cfgs : pyobj;
  select_cfgs : pyobj
}.

(** [_Preprocess.__init__(self, step_cfgs)] *)
Definition __init__ (step_cfgs : gmap string pyobj) : result _Preprocess :=
  Ok {| process_cfgs := dict_get step_cfgs "process";
        calc_cfgs := dict_get step_cfgs "calc";
        save_cfgs := dict_get step_cfgs "save";
        select_cfgs := dict_get step_cfgs "select" |}.

Section Hooks.
(** [World] is the mutable state the hooks of a stage may touch, [AMan] the
    type of the AxisManager handles they receive. *)
Context {World AMan : Type}.

(** [_Preprocess.process(self, aman, proc_aman)] *)
Definition process (self : _Preprocess) (aman proc_aman : AMan)
    : py World unit :=
  if is_None (process_cfgs self) then mret tt
  else py_raise NotImplementedError.

(** [_Preprocess.calc_and_save(self, aman, proc_aman)] *)
Definition calc_and_save (self : _Preprocess) (aman proc_aman : AMan)
    : py World unit :=
  if is_None (calc_cfgs self) then mret tt
  else py_raise NotImplementedError.

(** [_Preprocess.save(self, proc_aman, *args)] *)
Definition save (self : _Preprocess) (proc_aman : AMan) (args : list pyobj)
    : py World unit :=
  if is_None (save_cfgs self) then mret tt
  else py_raise NotImplementedError.

(** [_Preprocess.select(self, meta)] *)
Definition select (self : _Preprocess) (meta : AMan) : py World AMan :=
  if is_None (select_cfgs self) then mret meta
  else py_raise NotImplementedError.

(** A concrete stage class deriving from [_Preprocess]: the hooks it
    overrides.  A hook it does not override resolves to the base class. *)
Record stage_class : Type := {
  def_process : option (_Preprocess -> AMan -> AMan -> py World unit);
  def_calc_and_save : option (_Preprocess -> AMan -> AMan -> py World unit);
  def_save : option (_Preprocess -> AMan -> list pyobj -> py World unit);
  def_select : option (_Preprocess -> AMan -> py World AMan)
}.

(** The class [_Preprocess] itself overrides nothing. *)
Definition base_class : stage_class :=
  {| def_process := None; def_calc_and_save := None;
     def_save := None; def_select := None |}.

Definition call_process (cls : stage_class) :=
  default process (def_process cls).
Definition call_calc_and_save (cls : stage_class) :=
  default calc_and_save (def_calc_and_save cls).
Definition call_save (cls : stage_class) :=
  default save (def_save cls).
Definition call_select (cls : stage_class) :=
  default select (def_select cls).

End Hooks.

(* ===================================================================== *)
(** * numpy: element types, 2-d arrays and the operations pca.py uses *)
(* ===================================================================== *)

(** The element type (dtype) of an array, with the arithmetic numpy applies
    elementwise.  [of_int] converts a Python [int] such as the [0] of
    [weights[i] == 0] or the [-1] of [scale=-1]. *)
Class Dtype (F : Type) : Type := {
  of_int : Z -> F;
  dt_add : F -> F -> F;
  dt_mul : F -> F -> F;
  dt_eqb : F -> F -> bool
}.

(** float64: IEEE 754 binary64, round to nearest even. *)
Definition f64 : Type := spec_float.
Definition f64_of_int (z : Z) : f64 := binary_normalize 53 1024 z 0 false.
Definition f64_add : f64 -> f64 -> f64 := SFadd 53 1024.
Definition f64_sub : f64 -> f64 -> f64 := SFsub 53 1024.
Definition f64_mul : f64 -> f64 -> f64 := SFmul 53 1024.
Definition f64_div : f64 -> f64 -> f64 := SFdiv 53 1024.
Definition f64_neg : f64 -> f64 := SFopp.
Definition f64_eqb : f64 -> f64 -> bool := SFeqb.
Definition f64_ltb : f64 -> f64 -> bool := SFltb.
Definition f64_leb : f64 -> f64 -> bool := SFleb.
Definition f64_isnan (x : f64) : bool :=
  match x with S754_nan => true | _ => false end.
(** [m * 2**e] rounded to float64. *)
Definition f64_lit (m e : Z) : f64 := binary_normalize 53 1024 m e false.

#[global] Instance f64_dtype : Dtype f64 :=
  {| of_int := f64_of_int; dt_add := f64_add; dt_mul := f64_mul;
     dt_eqb := f64_eqb |}.

(** Arrays of dtype [object] holding Python ints: unbounded and exact. *)
#[global] Instance int_dtype : Dtype Z :=
  {| of_int := fun z => z; dt_add := Z.add; dt_mul := Z.mul;
     dt_eqb := Z.eqb |}.

(** A 2-d array of shape [(length rows, ncols)], stored by rows. *)
Record matrix (F : Type) : Type := Matrix {
  ncols : nat;
  rows : list (list F)
}.
Arguments Matrix {F} ncols rows.
Arguments ncols {F} m.
Arguments rows {F} m.

Definition nrows {F} (m : matrix F) : nat := length (rows m).

(** Every row has [ncols] entries. *)
Definition mat_wf {F} (m : matrix F) : Prop :=
  Forall (fun r => length r = ncols m) (rows m).

(** [np.dot] on arrays of dtype [F]: entry [j] of the product of a vector
    with a 2-d array, and entry [(i, j)] of the product of two 2-d arrays.
    For float64 numpy hands the product to the BLAS library it is linked
    with; in which order that multiplies and accumulates, fused or not, and
    which path it takes for small operands, is not fixed by numpy.  The
    entries are therefore a parameter: what is proved holds whatever they
    are. *)
Class Dot (F : Type) : Type := {
  dot_vm : list F -> matrix F -> nat -> F;
  dot_mm : matrix F -> matrix F -> nat -> nat -> F
}.

Section Arrays.
Context {F : Type} `{Dtype F} `{Dot F}.

(** [m[i]] *)
Definition getitem (m : matrix F) (i : nat) : result (list F) :=
  match rows m !! i with
  | Some r => Ok r
  | None => Raise IndexError
  end.

(** [m[i] = r] *)
Definition setitem (m : matrix F) (i : nat) (r : list F) : matrix F :=
  Matrix (ncols m) (<[i := r]> (rows m)).

(** [np.all(v == 0)] *)
Definition np_all_eq0 (v : list F) : bool :=
  forallb (fun x => dt_eqb x (of_int 0)) v.

(** [v * scale] *)
Definition scale_vec (v : list F) (scale : F) : list F :=
  map (fun x => dt_mul x scale) v.

(** Column [j] of [m]. *)
Definition column (m : matrix F) (j : nat) : list F :=
  omap (fun r => r !! j) (rows m).

(** The sum of the products of the entries of two vectors, each product
    and each sum computed by the dtype, from the left.  With exact
    arithmetic this is the inner product, in whatever order it is summed. *)
Definition inner (u v : list F) : F :=
  fold_left (fun acc xy => dt_add acc (dt_mul (fst xy) (snd xy)))
            (zip u v) (of_int 0).

(** Entry [(i, j)] of a 2-d array. *)
Definition entry (m : matrix F) (i j : nat) : option F :=
  r ← rows m !! i; r !! j.

(** The values of [np.dot(v, m)] for a vector [v] of [nrows m] entries:
    one entry for every column of [m]. *)
Definition vecmat (v : list F) (m : matrix F) : list F :=
  map (fun j => dot_vm v m j) (seq 0 (ncols m)).

(** [np.dot(v, m)] for a vector [v] and a 2-d array [m]. *)
Definition np_dot_vm (v : list F) (m : matrix F) : result (list F) :=
  if decide (length v = nrows m) then Ok (vecmat v m)
  else Raise ValueError.

(** [a.transpose()] *)
Definition transpose (a : matrix F) : matrix F :=
  Matrix (nrows a) (map (column a) (seq 0 (ncols a))).

(** [np.dot(a, b)] for two 2-d arrays: an array of shape
    [(nrows a, ncols b)]. *)
Definition np_dot (a b : matrix F) : result (matrix F) :=
  if decide (ncols a = nrows b)
  then Ok (Matrix (ncols b)
             (map (fun i => map (fun j => dot_mm a b i j) (seq 0 (ncols b)))
                  (seq 0 (nrows a))))
  else Raise ValueError.

(** [a[:, :k]] *)
Definition first_columns (a : matrix F) (k : nat) : matrix F :=
  Matrix (Nat.min k (ncols a)) (map (take k) (rows a)).

(** [r += v] on a row [r]: [v] must have the length of [r], or length one
    and is then broadcast. *)
Definition iadd (r v : list F) : result (list F) :=
  if decide (length v = length r) then Ok (zip_with dt_add r v)
  else match v with
       | [x] => Ok (map (fun y => dt_add y x) r)
       | _ => Raise ValueError
       end.

End Arrays.

(** Element types whose arithmetic is exact: the laws of a commutative
    ring that the additive-inverse law of [add_model] rests on, and an
    [np.dot] that returns the sums of the products, which with these laws
    do not depend on the order of summation. *)
Class ExactDtype (F : Type) `{Dtype F} `{Dot F} : Prop := {
  dt_add_comm : forall x y : F, dt_add x y = dt_add y x;
  dt_add_assoc :
    forall x y z : F, dt_add x (dt_add y z) = dt_add (dt_add x y) z;
  dt_add_0_r : forall x : F, dt_add x (of_int 0) = x;
  dt_mul_comm : forall x y : F, dt_mul x y = dt_mul y x;
  dt_mul_assoc :
    forall x y z : F, dt_mul x (dt_mul y z) = dt_mul (dt_mul x y) z;
  dt_mul_0_l : forall x : F, dt_mul (of_int 0) x = of_int 0;
  dt_mul_0_r : forall x : F, dt_mul x (of_int 0) = of_int 0;
  dt_mul_add_distr_l :
    forall x y z : F, dt_mul x (dt_add y z) = dt_add (dt_mul x y) (dt_mul x z);
  dt_mul_add_distr_r :
    forall x y z : F, dt_mul (dt_add x y) z = dt_add (dt_mul x z) (dt_mul y z);
  dt_opp_1 : dt_add (of_int (-1)) (of_int 1) = of_int 0 :> F;
  dot_vm_exact :
    forall (v : list F) (m : matrix F) (j : nat),
      dot_vm v m j = inner v (column m j)
}.

(** Arrays of dtype [object] holding Python ints: [np.dot] multiplies and
    adds the ints themselves. *)
#[global] Instance int_dot : Dot Z :=
  {| dot_vm := fun v m j => inner v (column m j);
     dot_mm := fun a b i j => inner (default [] (rows a !! i)) (column b j) |}.

(* ===================================================================== *)
(** * The store of arrays and the labelled container *)
(* ===================================================================== *)

Definition loc : Type := nat.

Section Store.
Context {F : Type}.

(** The store maps the identity of an array to its contents. *)
Definition read (l : loc) : py (gmap loc (matrix F)) (matrix F) :=
  fun h => match h !! l with
           | Some m => (Ok m, h)
           | None => (Raise DanglingRef, h)
           end.

Definition write (l : loc) (m : matrix F) : py (gmap loc (matrix F)) unit :=
  fun h => (Ok tt, <[l := m]> h).

(** A new array object. *)
Definition alloc (m : matrix F) : py (gmap loc (matrix F)) loc :=
  fun h => let l := fresh (dom h) in (Ok l, <[l := m]> h).

(** Modelled from the spec: [core.AxisManager], the labelled array container
    of sections 3 and 6, which is not among the sources.  It maps axis names
    to lengths and field names to arrays; 2-d fields are held by reference
    into the store, the 1-d field [E] by value. *)
Record AxisManager : Type := {
  axes : gmap string nat;
  fields : gmap string loc;
  fields1 : gmap string (list F)
}.

(** Modelled from the spec: [core.AxisManager(axis, ...)], a container with
    the given named axes and no field. *)
Definition new_AxisManager (axs : list (string * nat)) : AxisManager :=
  {| axes := list_to_map axs; fields := ∅; fields1 := ∅ |}.

(** Modelled from the spec: [am.<axis>.count], read-axis-length-by-name; on
    [None] and on a container without the axis it is an [AttributeError]. *)
Definition axis_count (am : option AxisManager) (name : string)
    : result nat :=
  match am with
  | None => Raise AttributeError
  | Some a => match axes a !! name with
              | Some n => Ok n
              | None => Raise AttributeError
              end
  end.

(** Modelled from the spec: [am.<field>], read-field-by-name. *)
Definition getattr (am : option AxisManager) (name : string) : result loc :=
  match am with
  | None => Raise AttributeError
  | Some a => match fields a !! name with
              | Some l => Ok l
              | None => Raise AttributeError
              end
  end.

(** Modelled from the spec: the dimension check of bind-field-to-axes; a
    dimension bound to an axis must have the length of that axis. *)
Definition check_dim (am : AxisManager) (len : nat) (axis : string)
    : result unit :=
  match axes am !! axis with
  | Some n => if decide (len = n) then Ok tt else Raise ValueError
  | None => Raise ValueError
  end.

(** Modelled from the spec: [am.wrap(name, data, [(0, ax0), (1, ax1)])] for
    a 2-d array. *)
Definition wrap (am : AxisManager) (name : string) (data : loc)
    (ax0 ax1 : string) : py (gmap loc (matrix F)) AxisManager :=
  m ← read data;
  _ ← py_lift (check_dim am (nrows m) ax0);
  _ ← py_lift (check_dim am (ncols m) ax1);
  mret {| axes := axes am; fields := <[name := data]> (fields am);
          fields1 := fields1 am |}.

(** Modelled from the spec: [am.wrap(name, data, [(0, ax0)])] for a 1-d
    array. *)
Definition wrap1 (am : AxisManager) (name : string) (data : list F)
    (ax0 : string) : result AxisManager :=
  match check_dim am (length data) ax0 with
  | Ok _ => Ok {| axes := axes am; fields := fields am;
                  fields1 := <[name := data]> (fields1 am) |}
  | Raise e => Raise e
  end.

(** Modelled from the spec: [am.wrap(name, data)] with no axis bound: the
    field is stored as it is. *)
Definition wrap_unbound (am : AxisManager) (name : string) (data : loc)
    : AxisManager :=
  {| axes := axes am; fields := <[name := data]> (fields am);
     fields1 := fields1 am |}.

End Store.
Arguments AxisManager F : clear implicits.
Abbreviation store F := (gmap loc (matrix F)).

(* ===================================================================== *)
(** * sotodlib/tod_ops/pca.py: add_model *)
(* ===================================================================== *)

Section AddModel.
Context {F : Type} `{Dtype F} `{Dot F}.

(** An optional argument that defaults to an attribute of a container:
    [if x is None: x = am.<name>]. *)
Definition default_attr (x : option loc) (am : option (AxisManager F))
    (name : string) : result loc :=
  match x with
  | Some l => Ok l
  | None => getattr am name
  end.

(** One turn of the loop of [add_model], for the row [i]:
<<
        if np.all(weights[i] == 0):
            continue
        signal[i] += np.dot(weights[i, :] * scale, modes)
>>
    The arrays are read from the store when the statement uses them, so an
    array passed under two names is seen with the updates made so far. *)
Definition add_model_row (scale : F) (signal modes weights : loc) (i : nat)
    : py (store F) unit :=
  w ← read weights;
  wi ← py_lift (getitem w i);
  if np_all_eq0 wi then mret tt
  else
    s ← read signal;
    si ← py_lift (getitem s i);
    m ← read modes;
    v ← py_lift (np_dot_vm (scale_vec wi scale) m);
    si' ← py_lift (iadd si v);
    write signal (setitem s i si').

(** [for i in range(...)] over the rows listed. *)
Fixpoint add_model_loop (scale : F) (signal modes weights : loc)
    (range : list nat) : py (store F) unit :=
  match range with
  | [] => mret tt
  | i :: range' =>
      _ ← add_model_row scale signal modes weights i;
      add_model_loop scale signal modes weights range'
  end.

(** [add_model(tod, model, scale, signal, modes, weights)]; it returns the
    reference [signal] it accumulated into. *)
Definition add_model (tod model : option (AxisManager F)) (scale : F)
    (signal modes weights : option loc) : py (store F) loc :=
  signal ← py_lift (default_attr signal tod "signal");
  modes ← py_lift (default_attr modes model "modes");
  weights ← py_lift (default_attr weights model "weights");
  count ← py_lift (axis_count model "dets");
  _ ← add_model_loop scale signal modes weights (seq 0 count);
  mret signal.

End AddModel.

(* ===================================================================== *)
(** * numpy on float64: sorting, eigen-solver results, ramps *)
(* ===================================================================== *)

(** [0.], [1.], [0.5] and [-0.5] *)
Definition f64_zero : f64 := S754_zero false.
Definition f64_one : f64 := Eval vm_compute in f64_of_int 1.
Definition f64_half : f64 := Eval vm_compute in f64_lit 1 (-1).
Definition f64_neg_half : f64 := Eval vm_compute in f64_neg (f64_lit 1 (-1)).

(** The order numpy sorts float64 by: [a < b], with NaN after every
    number. *)
Definition np_lt (a b : f64) : bool :=
  f64_ltb a b || (f64_isnan b && negb (f64_isnan a)).

(** Insertion of a key with its index before the first entry that is not
    smaller than it. *)
Fixpoint insert_key (x : f64 * nat) (l : list (f64 * nat))
    : list (f64 * nat) :=
  match l with
  | [] => [x]
  | y :: l' => if np_lt (fst y) (fst x) then y :: insert_key x l'
               else x :: y :: l'
  end.

Definition sort_keys (l : list (f64 * nat)) : list (f64 * nat) :=
  foldr insert_key [] l.

(** [np.argsort(keys)]: the indices that sort [keys] in ascending order.
    numpy does not promise an order among equal keys; this model keeps the
    original one. *)
Definition np_argsort (keys : list f64) : list nat :=
  map snd (sort_keys (zip keys (seq 0 (length keys)))).

(** [v[idx]] for a list of indices. *)
Definition take_idx {A} (v : list A) (idx : list nat) : result (list A) :=
  if forallb (fun i => (i <? length v)%nat) idx
  then Ok (omap (fun i => v !! i) idx)
  else Raise IndexError.

(** [a[:, idx]] for a list of indices. *)
Definition take_columns {A} (a : matrix A) (idx : list nat)
    : result (matrix A) :=
  if forallb (fun i => (i <? ncols a)%nat) idx
  then Ok (Matrix (length idx)
             (map (fun r => omap (fun i => r !! i) idx) (rows a)))
  else Raise IndexError.

(** complex128 as real and imaginary part. *)
Definition c128 : Type := f64 * f64.

(** The arrays [np.linalg.eig] returns are complex when some eigenvalue is,
    and float64 otherwise. *)
Inductive eigvals : Type :=
  | RealVec (v : list f64)
  | ComplexVec (v : list c128).

Inductive eigvecs : Type :=
  | RealMat (m : matrix f64)
  | ComplexMat (m : matrix c128).

(** [np.isnan] of a complex number: a NaN in either part. *)
Definition c128_isnan (z : c128) : bool :=
  f64_isnan (fst z) || f64_isnan (snd z).

(** [E[np.isnan(E)] = 0.] *)
Definition zero_nans (E : eigvals) : eigvals :=
  match E with
  | RealVec v =>
      RealVec (map (fun x => if f64_isnan x then f64_zero else x) v)
  | ComplexVec v =>
      ComplexVec (map (fun z => if c128_isnan z then (f64_zero, f64_zero)
                                else z) v)
  end.

(** [E.real] and [R.real] *)
Definition vec_real (E : eigvals) : list f64 :=
  match E with
  | RealVec v => v
  | ComplexVec v => map fst v
  end.

Definition mat_real (R : eigvecs) : matrix f64 :=
  match R with
  | RealMat m => m
  | ComplexMat m => Matrix (ncols m) (map (map fst) (rows m))
  end.

(** [np.ones((r, c))] *)
Definition np_ones (r c : nat) : matrix f64 :=
  Matrix c (replicate r (replicate c f64_one)).

(** [np.linspace(start, stop, num)]: [num] points, the first computed as
    [0 * step + start], the last set to [stop]. *)
Definition np_linspace (start stop : f64) (num : nat) : list f64 :=
  let div := (num - 1)%nat in
  let delta := f64_sub stop start in
  let y := map (fun i => f64_of_int (Z.of_nat i)) (seq 0 num) in
  let y :=
    if decide (0 < div)%nat then
      let step := f64_div delta (f64_of_int (Z.of_nat div)) in
      if f64_eqb step f64_zero
      then map (fun x => f64_mul (f64_div x (f64_of_int (Z.of_nat div)))
                                 delta) y
      else map (fun x => f64_mul x step) y
    else map (fun x => f64_mul x delta) y in
  let y := map (fun x => f64_add x start) y in
  if decide (1 < num)%nat then <[(num - 1)%nat := stop]> y else y.

(** [a[:, k] = v] into a column of an array with [n] rows: [v] has [n]
    entries, or one entry that is broadcast. *)
Definition column_value (n : nat) (v : list f64) : result (list f64) :=
  if decide (length v = n) then Ok v
  else match v with
       | [x] => Ok (replicate n x)
       | _ => Raise ValueError
       end.

(* ===================================================================== *)
(** * sotodlib/tod_ops/pca.py: get_pca, get_pca_model, get_trends *)
(* ===================================================================== *)

Section Pca.
(** numpy's [np.cov] and [np.linalg.eig], and the [np.dot] of float64
    arrays: any function will do. *)
Variable np_cov : matrix f64 -> result (matrix f64).
Variable np_linalg_eig : matrix f64 -> result (eigvals * eigvecs).
Context {blas : Dot f64}.

(** The covariance [get_pca] decomposes:
<<
    if cov is None:
        if signal is None:
            signal = tod.signal
        cov = np.cov(signal)
>> *)
Definition resolve_cov (tod : option (AxisManager f64))
    (cov signal : option loc) : py (store f64) loc :=
  match cov with
  | Some c => mret c
  | None =>
      signal ← py_lift (default_attr signal tod "signal");
      s ← read signal;
      c ← py_lift (np_cov s);
      alloc c
  end.

(** [get_pca(tod, cov, signal)]; the body never reads the parameter
    [wrap]. *)
Definition get_pca (tod : option (AxisManager f64)) (cov signal : option loc)
    : py (store f64) (AxisManager f64) :=
  cov ← resolve_cov tod cov signal;
  count ← py_lift (axis_count tod "dets");
  let output := new_AxisManager [("dets", count); ("eigen", count)] in
  output ← wrap output "cov" cov "dets" "dets";
  c ← read cov;
  ER ← py_lift (np_linalg_eig c);
  let E := vec_real (zero_nans (fst ER)) in
  let R := mat_real (snd ER) in
  let idx := np_argsort (map f64_neg E) in
  E' ← py_lift (take_idx E idx);
  output ← py_lift (wrap1 output "E" E' "eigen");
  R' ← py_lift (take_columns R idx);
  r ← alloc R';
  wrap output "R" r "dets" "eigen".

(** The decomposition [get_pca_model] projects on:
<<
    if pca is None:
        pca = get_pca(tod=tod, signal=signal)
>> *)
Definition resolve_pca (tod pca : option (AxisManager f64))
    (signal : option loc) : py (store f64) (AxisManager f64) :=
  match pca with
  | Some p => mret p
  | None => get_pca tod None signal
  end.

(** The number of modes: [n_modes], or [pca.eigen.count] for [None]. *)
Definition resolve_n_modes (pca : AxisManager f64) (n_modes : option nat)
    : result nat :=
  match n_modes with
  | Some n => Ok n
  | None => axis_count (Some pca) "eigen"
  end.

(** [get_pca_model(tod, pca, n_modes, signal)]; the body never reads the
    parameters [wrap] and [wrap_pca].  The slice [pca.R[:, :n_modes]] is a
    view in numpy; it is a new array here, as nothing below writes through
    it. *)
Definition get_pca_model (tod pca : option (AxisManager f64))
    (n_modes : option nat) (signal : option loc)
    : py (store f64) (AxisManager f64) :=
  pca ← resolve_pca tod pca signal;
  n_modes ← py_lift (resolve_n_modes pca n_modes);
  dets ← py_lift (axis_count tod "dets");
  samps ← py_lift (axis_count tod "samps");
  let output :=
    new_AxisManager [("dets", dets); ("eigen", n_modes); ("samps", samps)] in
  signal ← py_lift (default_attr signal tod "signal");
  r ← py_lift (getattr (Some pca) "R");
  Rfull ← read r;
  R ← alloc (first_columns Rfull n_modes);
  output ← wrap output "weights" R "dets" "eigen";
  Rk ← read R;
  s ← read signal;
  m ← py_lift (np_dot (transpose Rk) s);
  m ← alloc m;
  wrap output "modes" m "eigen" "samps".

End Pca.

(** The window of [get_trends]: [max(1, min(size, n // 2))]. *)
Definition trend_size (size : Z) (n : nat) : nat :=
  Z.to_nat (Z.max 1 (Z.min size (Z.of_nat n / 2))).

(** [r[-k:]] for [k >= 1] *)
Definition last_samples (k : nat) (r : list f64) : list f64 :=
  drop (length r - k) r.

Section Trends.
(** The [np.dot] of float64 arrays, and the mean of a row as
    [signal.mean(axis=1)] computes it.  numpy adds the samples of a row in
    an order of its own (in blocks, with several running sums), so the
    rounding of the mean is not that of a sum taken in order; any function
    of the samples will do. *)
Context {blas : Dot f64}.
Variable np_mean : list f64 -> f64.

(** [get_trends(tod, remove, size, signal)].  [np.empty] leaves the cells
    of [weights] unset; the two column assignments set every one of them,
    so the array is built from the two columns.  The two new arrays enter
    the store once they are filled, [modes] before [weights]. *)
Definition get_trends (tod : option (AxisManager f64)) (remove : bool)
    (size : Z) (signal : option loc) : py (store f64) (AxisManager f64) :=
  signal ← py_lift (default_attr signal tod "signal");
  dets ← py_lift (axis_count tod "dets");
  samps ← py_lift (axis_count tod "samps");
  let trends :=
    new_AxisManager [("dets", dets); ("eigen", 2%nat); ("samps", samps)] in
  let modes := np_ones 2 samps in
  let modes := setitem modes 1 (np_linspace f64_neg_half f64_half
                                            (ncols modes)) in
  s ← read signal;
  w0 ← py_lift (column_value dets (map np_mean (rows s)));
  let size := trend_size size (ncols s) in
  w1 ← py_lift (column_value dets
          (map (fun r => f64_sub (np_mean (last_samples size r))
                                 (np_mean (take size r))) (rows s)));
  let weights := Matrix 2 (zip_with (fun a b => [a; b]) w0 w1) in
  modes ← alloc modes;
  let trends := wrap_unbound trends "modes" modes in
  weights ← alloc weights;
  let trends := wrap_unbound trends "weights" weights in
  _ ← (if remove
       then _ ← add_model tod (Some trends) (of_int (-1)) (Some signal)
                          None None; mret tt
       else mret tt);
  mret trends.

End Trends.

(* ===================================================================== *)
(** * Vocabulary of the statements *)
(* ===================================================================== *)

(** The four keys [__init__] looks up. *)
Definition hook_keys : list string := ["process"; "calc"; "save"; "select"].

(** Row [i] of the array at [l], if both exist. *)
Definition row_of {F} (h : store F) (l : loc) (i : nat) : option (list F) :=
  m ← h !! l; rows m !! i.

Section AddModelVocabulary.
Context {F : Type} `{Dtype F} `{Dot F}.

(** What [add_model] leaves in row [i] of the signal, from its old value
    [si]: rows whose weights are all zero are kept, the others receive
    [np.dot(weights[i, :] * scale, modes)]. *)
Definition new_row (scale : F) (W M : matrix F) (i : nat) (si : list F)
    : list F :=
  match rows W !! i with
  | Some wi => if np_all_eq0 wi then si
               else zip_with dt_add si (vecmat (scale_vec wi scale) M)
  | None => si
  end.

(** The signal after [add_model] went through the rows [a], ..., [b - 1]. *)
Definition accumulated (scale : F) (W M S : matrix F) (a b : nat)
    : matrix F :=
  Matrix (ncols S)
    (imap (fun i si => if decide (a <= i < b) then new_row scale W M i si
                       else si) (rows S)).

(** The shapes the docstring of [add_model] asks for: [weights] is
    [(dets, eigen)], [modes] is [(eigen, samps)], [signal] is
    [(dets, samps)], and the model has [n] detectors. *)
Definition shapes_agree (n : nat) (S M W : matrix F) : Prop :=
  mat_wf S /\ mat_wf W /\ n <= nrows S /\ n <= nrows W /\
  ncols W = nrows M /\ ncols S = ncols M.

End AddModelVocabulary.

(** The update C5 words: [scale * np.dot(weights[i], modes)] added to the
    row, the scale applied after the product. *)
Definition spec_row_update {F} `{Dtype F} `{Dot F} (scale : F) (wi : list F)
    (M : matrix F) (si : list F) : list F :=
  zip_with dt_add si (map (dt_mul scale) (vecmat wi M)).

(** [a] may come before [b] in ascending order. *)
Definition np_le (a b : f64) : Prop := np_lt b a = false.

Definition key_le (x y : f64 * nat) : Prop := np_le (fst x) (fst y).

(** The eigenvalues as C3 words them: every NaN replaced by [0.], then the
    real part. *)
Definition spec_eigenvalues (E0 : eigvals) : list f64 :=
  match E0 with
  | RealVec v => map (fun x => if f64_isnan x then f64_zero else x) v
  | ComplexVec v =>
      map (fun z => if c128_isnan z then f64_zero else fst z) v
  end.

(** The eigenvectors as C3 words them: entry [(i, j)] of the array the
    solver returns, its real part taken. *)
Definition spec_eigenvector (R0 : eigvecs) (i j : nat) : option f64 :=
  match R0 with
  | RealMat m => entry m i j
  | ComplexMat m => fst <$> entry m i j
  end.

(** The model [get_trends] builds for the signal [S]: the two modes, and
    for every detector the mean and the difference of the means of the last
    and the first [k] samples, for the mean [np_mean] that numpy
    computes. *)
Definition trend_modes (samps : nat) : matrix f64 :=
  Matrix samps [replicate samps f64_one;
                np_linspace f64_neg_half f64_half samps].

Definition trend_weights (np_mean : list f64 -> f64) (k : nat)
    (S : matrix f64) : matrix f64 :=
  Matrix 2
    (map (fun si => [np_mean si;
                     f64_sub (np_mean (last_samples k si))
                             (np_mean (take k si))]) (rows S)).

(** The digits dropped by one rounding step of binary64. *)
Definition dropped (m e : Z) : Z :=
  Z.max (fexp 53 1024 (Zdigits2 m + e) - e) 0%Z.

(** Successive calls [_Preprocess.register(name, process_class)], in the
    order of the list, as the modules of a pipeline make them on import. *)
Definition register_all (calls : list (string * pyobj))
    (pipeline : gmap string pyobj) : gmap string pyobj :=
  foldl (fun p c => register (fst c) (snd c) p) pipeline calls.

(** The shape of an array: its number of columns and the length of each of
    its rows. *)
Definition shape {F} (m : matrix F) : nat * list nat :=
  (ncols m, map length (rows m)).

(** A computation that only adds arrays to the store: whatever it returns
    or raises, every array that existed before is still there with the
    contents it had. *)
Definition store_grows {F A} (m : py (store F) A) : Prop :=
  forall h, h ⊆ snd (m h).

(** [np.isfinite]: neither NaN nor an infinity. *)
Definition f64_isfinite (x : f64) : bool :=
  match x with
  | S754_zero _ | S754_finite _ _ _ => true
  | _ => false
  end.

(* ===================================================================== *)
(** * Concrete inputs *)
(* ===================================================================== *)

(** The configuration [{"process": None}]. *)
Definition cfg_process_None : gmap string pyobj := {["process" := PyNone]}.

(** The configuration [{"name": "x", "process": {}, "select": True}]. *)
Definition cfg_example : gmap string pyobj :=
  <["name" := PyStr "x"]>
    (<["process" := PyDict ∅]> (<["select" := PyBool true]> ∅)).

(** A stage class that overrides [select] alone, with a hook that returns
    [meta] whatever the configuration holds. *)
Definition class_with_select {World AMan : Type}
    : @stage_class World AMan :=
  {| def_process := None; def_calc_and_save := None; def_save := None;
     def_select := Some (fun _ meta => mret meta) |}.

(** A container with the given axes and 2-d fields. *)
Definition axis_manager {F} (axs : list (string * nat))
    (flds : list (string * loc)) : AxisManager F :=
  {| axes := list_to_map axs; fields := list_to_map flds; fields1 := ∅ |}.

(** One detector, one mode, one sample: [signal] at 0, [modes] at 1,
    [weights] at 2. *)
Definition tod_1x1 {F} : AxisManager F :=
  axis_manager [("dets", 1); ("samps", 1)] [("signal", 0)].
Definition model_1x1 {F} : AxisManager F :=
  axis_manager [("dets", 1); ("eigen", 1); ("samps", 1)]
               [("modes", 1); ("weights", 2)].
Definition store_1x1 {F} (signal modes weights : F) : store F :=
  <[0 := Matrix 1 [[signal]]]>
    (<[1 := Matrix 1 [[modes]]]> (<[2 := Matrix 1 [[weights]]]> ∅)).

(** Two detectors, the second with zero weights. *)
Definition tod_2x2 : AxisManager Z :=
  axis_manager [("dets", 2); ("samps", 2)] [("signal", 0)].
Definition model_2x2 : AxisManager Z :=
  axis_manager [("dets", 2); ("eigen", 1); ("samps", 2)]
               [("modes", 1); ("weights", 2)].
Definition store_2x2 : store Z :=
  <[0 := Matrix 2 [[10; 20]; [30; 40]]%Z]>
    (<[1 := Matrix 2 [[1; 2]]%Z]> (<[2 := Matrix 1 [[3]; [0]]%Z]> ∅)).

(** An [np.dot] for the concrete examples: every product is rounded, and
    the products are added in order to the first one.  For operands of one
    term it is the product itself. *)
Definition dot_terms (u v : list f64) : f64 :=
  match zip u v with
  | [] => f64_zero
  | xy :: l =>
      fold_left (fun acc xy => f64_add acc (f64_mul (fst xy) (snd xy))) l
                (f64_mul (fst xy) (snd xy))
  end.

Definition dot_in_order : Dot f64 :=
  {| dot_vm := fun v m j => dot_terms v (column m j);
     dot_mm := fun a b i j => dot_terms (default [] (rows a !! i))
                                        (column b j) |}.

(** A mean for the concrete examples: the samples are added in order and
    the sum is divided by their number. *)
Definition mean_in_order (v : list f64) : f64 :=
  f64_div (fold_left f64_add v f64_zero) (f64_of_int (Z.of_nat (length v))).

(** float64 [0.1] and [2.0**60]. *)
Definition f64_tenth : f64 := Eval vm_compute in f64_div f64_one (f64_of_int 10).
Definition f64_2p60 : f64 := Eval vm_compute in f64_lit 1 60.

(** An eigen-solver for diagonal matrices: the eigenvalues are the diagonal
    entries, the eigenvectors the unit vectors. *)
Definition eig_diagonal (C : matrix f64) : result (eigvals * eigvecs) :=
  Ok (RealVec (omap (fun i => r ← rows C !! i; r !! i) (seq 0 (nrows C))),
      RealMat (Matrix (nrows C)
                 (map (fun i => map (fun j => if decide (i = j) then f64_one
                                              else f64_zero)
                                    (seq 0 (nrows C)))
                      (seq 0 (nrows C))))).

(** A covariance routine that is never reached when [cov] is supplied. *)
Definition cov_unavailable (s : matrix f64) : result (matrix f64) :=
  Raise ValueError.

(** Two detectors with covariance [diag(2, 3)] at 0. *)
Definition tod_cov : AxisManager f64 :=
  axis_manager [("dets", 2); ("samps", 3)] [("signal", 1)].
Definition cov_diag : matrix f64 :=
  Matrix 2 [[f64_of_int 2; f64_zero]; [f64_zero; f64_of_int 3]].
Definition signal_2x3 : matrix f64 :=
  Matrix 3 [[f64_of_int 1; f64_of_int 2; f64_of_int 3];
            [f64_of_int 4; f64_of_int 5; f64_of_int 6]].
Definition store_cov : store f64 := <[0 := cov_diag]> (<[1 := signal_2x3]> ∅).

(** A decomposition whose eigenvectors are at 0, and a signal at 1. *)
Definition pca_2 : AxisManager f64 :=
  axis_manager [("dets", 2); ("eigen", 2)] [("R", 0)].
Definition store_pca : store f64 :=
  <[0 := Matrix 2 [[f64_zero; f64_one]; [f64_one; f64_zero]]]>
    (<[1 := signal_2x3]> ∅).

(** One detector with the ten samples 0, 1, ..., 9. *)
Definition tod_ramp : AxisManager f64 :=
  axis_manager [("dets", 1); ("samps", 10)] [("signal", 0)].
Definition signal_ramp : matrix f64 :=
  Matrix 10 [map (fun i => f64_of_int (Z.of_nat i)) (seq 0 10)].
Definition store_ramp : store f64 := <[0 := signal_ramp]> ∅.

(** One detector with the single sample 7. *)
Definition store_single : store f64 := <[0 := Matrix 1 [[f64_of_int 7]]]> ∅.

Definition calls_example : list (string * pyobj) :=
  [("trends", PyNone); ("pca", PyClass 1); ("trends", PyClass 2);
   ("trends", PyClass 3); ("pca", PyClass 4)].

(** Three detectors of two samples each, the first two with zero weights;
    [modes] has one row where the weights have two columns. *)
Definition tod_3x2 : AxisManager Z :=
  axis_manager [("dets", 3); ("samps", 2)] [("signal", 0)].
Definition model_3x2 : AxisManager Z :=
  axis_manager [("dets", 3); ("eigen", 2); ("samps", 2)]
               [("modes", 1); ("weights", 2)].
Definition store_3x2 : store Z :=
  <[0 := Matrix 2 [[10; 20]; [30; 40]; [50; 60]]%Z]>
    (<[1 := Matrix 2 [[1; 2]]%Z]>
       (<[2 := Matrix 2 [[0; 0]; [0; 0]; [5; 6]]%Z]> ∅)).

(** Two detectors with covariance [diag(3, 2)] at 0: the eigenvalues are in
    decreasing order already. *)
Definition cov_sorted : matrix f64 :=
  Matrix 2 [[f64_of_int 3; f64_zero]; [f64_zero; f64_of_int 2]].
Definition store_cov_sorted : store f64 :=
  <[0 := cov_sorted]> (<[1 := signal_2x3]> ∅).

(** A covariance routine that answers [diag(2, 3)]. *)
Definition cov_constant (s : matrix f64) : result (matrix f64) :=
  Ok cov_diag.

(** One detector whose four samples end where they start. *)
Definition tod_loop : AxisManager f64 :=
  axis_manager [("dets", 1); ("samps", 4)] [("signal", 0)].
Definition signal_loop : matrix f64 :=
  Matrix 4 [[f64_of_int 1; f64_of_int 5; f64_of_int 7; f64_of_int 1]].
Definition store_loop : store f64 := <[0 := signal_loop]> ∅.

(** A signal of two rows at 0. *)
Definition store_two_rows : store f64 :=
  <[0 := Matrix 1 [[f64_of_int 1]; [f64_of_int 2]]]> ∅.

(** A second model for the signal of [store_2x2]: [modes] at 3, [weights]
    at 4. *)
Definition model_2x2' : AxisManager Z :=
  axis_manager [("dets", 2); ("eigen", 1); ("samps", 2)]
               [("modes", 3); ("weights", 4)].
Definition store_two_models : store Z :=
  <[3 := Matrix 2 [[5; 7]]%Z]> (<[4 := Matrix 1 [[1]; [2]]%Z]> store_2x2).

(* ===================================================================== *)
(** * Properties of the pipeline contract (core.py) *)
(* ===================================================================== *)

(** [d.get(k)] is [None] exactly when [k] is absent or bound to [None]. *)
Lemma dict_get_None (d : gmap string pyobj) (k : string) :
  is_None (dict_get d k) = true <-> d !! k = None \/ d !! k = Some PyNone.
Proof.
  unfold dict_get. destruct (d !! k) as [v|] eqn:E; simpl.
  - destruct v; simpl; split; intros Hx; try discriminate; auto;
      destruct Hx as [Hx|Hx]; congruence.
  - split; auto.
Qed.

Lemma dict_get_set (d : gmap string pyobj) (k : string) (v : pyobj) :
  d !! k = Some v -> v <> PyNone -> is_None (dict_get d k) = false.
Proof.
  intros E Hv. unfold dict_get. rewrite E. simpl.
  destruct v; simpl; congruence.
Qed.

Section HookProperties.
Context {World AMan : Type}.
Implicit Types (cls : @stage_class World AMan) (w : World).

(** C1, as amended.  For a stage built by [__init__] from any
    configuration, and for each of the four hooks that the class of the
    stage does not override, whatever it does with the other three: when
    the key of the hook is absent from the configuration, or bound to
    [None], the hook returns at once and leaves the world as it was
    ([select] returns [meta]); when the key is bound to any other value the
    hook raises [NotImplementedError]. *)
Theorem hooks_skip_or_unimplemented cls (cfg : gmap string pyobj) self
    (aman proc_aman meta : AMan) (args : list pyobj) w :
  __init__ cfg = Ok self ->
  (def_process cls = None ->
   (cfg !! "process" = None \/ cfg !! "process" = Some PyNone ->
      call_process cls self aman proc_aman w = (Ok tt, w)) /\
   (forall v, cfg !! "process" = Some v -> v <> PyNone ->
      call_process cls self aman proc_aman w = (Raise NotImplementedError, w)))
  /\
  (def_calc_and_save cls = None ->
   (cfg !! "calc" = None \/ cfg !! "calc" = Some PyNone ->
      call_calc_and_save cls self aman proc_aman w = (Ok tt, w)) /\
   (forall v, cfg !! "calc" = Some v -> v <> PyNone ->
      call_calc_and_save cls self aman proc_aman w
      = (Raise NotImplementedError, w)))
  /\
  (def_save cls = None ->
   (cfg !! "save" = None \/ cfg !! "save" = Some PyNone ->
      call_save cls self proc_aman args w = (Ok tt, w)) /\
   (forall v, cfg !! "save" = Some v -> v <> PyNone ->
      call_save cls self proc_aman args w = (Raise NotImplementedError, w)))
  /\
  (def_select cls = None ->
   (cfg !! "select" = None \/ cfg !! "select" = Some PyNone ->
      call_select cls self meta w = (Ok meta, w)) /\
   (forall v, cfg !! "select" = Some v -> v <> PyNone ->
      call_select cls self meta w = (Raise NotImplementedError, w))).
Proof.
  intros Hinit. injection Hinit as <-.
  unfold call_process, call_calc_and_save, call_save, call_select.
  split; [|split; [|split]]; intros Hdef; rewrite Hdef; simpl;
    unfold process, calc_and_save, save, select; simpl;
    (split;
     [ intros Hk; apply dict_get_None in Hk; rewrite Hk; reflexivity
     | intros v Hk Hv; rewrite (dict_get_set _ _ _ Hk Hv); reflexivity ]).
Qed.

End HookProperties.

Lemma hooks_skip_or_unimplemented_witness :
  call_process (World := unit) (AMan := unit) class_with_select
    {| process_cfgs := PyDict ∅; calc_cfgs := PyNone; save_cfgs := PyNone;
       select_cfgs := PyBool true |} tt tt tt
  = (Raise NotImplementedError, tt) /\
  call_save (World := unit) (AMan := unit) class_with_select
    {| process_cfgs := PyDict ∅; calc_cfgs := PyNone; save_cfgs := PyNone;
       select_cfgs := PyBool true |} tt [] tt
  = (Ok tt, tt).
Proof.
  pose proof (hooks_skip_or_unimplemented (World := unit) (AMan := unit)
                class_with_select cfg_example _ tt tt tt [] tt eq_refl)
    as (Hp & _ & Hs & _).
  split.
  - apply (proj2 (Hp eq_refl) (PyDict ∅)); [reflexivity | discriminate].
  - apply (proj1 (Hs eq_refl)). left. reflexivity.
Defined.

(** C1, as stated, fails: the key ["process"] is present in
    [{"process": None}], no hook is overridden, and [process] returns
    normally instead of raising [NotImplementedError]. *)
Lemma hook_present_None_returns :
  ~ (forall (cfg : gmap string pyobj) (self : _Preprocess),
       __init__ cfg = Ok self ->
       is_Some (cfg !! "process") ->
       call_process (World := unit) (AMan := unit) base_class self tt tt tt
       = (Raise NotImplementedError, tt)).
Proof.
  intros Hclaim.
  specialize (Hclaim cfg_process_None _ eq_refl).
  assert (Hs : is_Some (cfg_process_None !! "process")) by (eexists; reflexivity).
  specialize (Hclaim Hs). vm_compute in Hclaim. discriminate.
Qed.

(** C2.  When the registry has no entry for [name], registering [A] (any
    object but [None]) and then [B] leaves [name] resolving to [A]; the
    second call changes nothing in the registry. *)
Theorem register_first_wins (name : string) (A B : pyobj)
    (pipeline : gmap string pyobj) :
  pipeline !! name = None ->
  A <> PyNone ->
  register name B (register name A pipeline) !! name = Some A /\
  register name B (register name A pipeline) = register name A pipeline.
Proof.
  intros Hfree HA.
  assert (H1 : register name A pipeline = <[name := A]> pipeline).
  { unfold register, dict_get. rewrite Hfree. reflexivity. }
  assert (H2 : register name B (<[name := A]> pipeline)
               = <[name := A]> pipeline).
  { unfold register, dict_get. rewrite lookup_insert_eq. simpl.
    destruct A; simpl; congruence. }
  rewrite H1, H2. split; [apply lookup_insert_eq | reflexivity].
Qed.

Lemma register_first_wins_witness :
  register "foo" (PyClass 2) (register "foo" (PyClass 1) PIPELINE) !! "foo"
  = Some (PyClass 1) /\
  register "foo" (PyClass 2) (register "foo" (PyClass 1) PIPELINE)
  = register "foo" (PyClass 1) PIPELINE.
Proof.
  apply (register_first_wins "foo" (PyClass 1) (PyClass 2) PIPELINE).
  - reflexivity.
  - discriminate.
Defined.

(** C10.  [__init__] returns a stage for every configuration, with or
    without ["name"]; the stage holds what [get] finds under the four hook
    keys, so a configuration that agrees with [cfg] on those four keys
    builds the same stage, whatever ["name"] or any other key holds, and
    every hook, reading the stage alone, then behaves the same. *)
Theorem init_reads_hook_keys_only (cfg : gmap string pyobj) :
  exists self,
    __init__ cfg = Ok self /\
    self = {| process_cfgs := dict_get cfg "process";
              calc_cfgs := dict_get cfg "calc";
              save_cfgs := dict_get cfg "save";
              select_cfgs := dict_get cfg "select" |} /\
    forall cfg' : gmap string pyobj,
      (forall k, k ∈ hook_keys -> cfg !! k = cfg' !! k) ->
      __init__ cfg' = Ok self.
Proof.
  eexists. split; [reflexivity|]. split; [reflexivity|].
  intros cfg' Hagree. unfold __init__, dict_get.
  rewrite !Hagree; [reflexivity | unfold hook_keys; set_solver ..].
Qed.

Lemma init_reads_hook_keys_only_witness :
  __init__ (delete "name" (<["extra" := PyInt 3]> cfg_example))
  = __init__ cfg_example.
Proof.
  destruct (init_reads_hook_keys_only cfg_example) as (self & -> & _ & Hsame).
  apply Hsame.
  intros k Hk. unfold hook_keys in Hk.
  repeat (apply elem_of_cons in Hk as [-> | Hk]; [reflexivity|]).
  apply elem_of_nil in Hk. destruct Hk.
Defined.

(* ===================================================================== *)
(** * Properties of add_model *)
(* ===================================================================== *)

Ltac py_unfold :=
  unfold mbind, py_mbind, py_bind, mret, py_mret, py_ret, py_lift, py_raise,
    read, write in *.

Section AddModelFrame.
Context {F : Type} `{Dtype F} `{Dot F}.
Implicit Types (h : store F) (s m w : loc).

Lemma row_of_insert_setitem h s (S : matrix F) (j i : nat) (r : list F) l :
  h !! s = Some S -> i <> j ->
  row_of (<[s := setitem S j r]> h) l i = row_of h l i.
Proof.
  intros Hs Hij. unfold row_of.
  destruct (decide (l = s)) as [->|Hl].
  - rewrite lookup_insert_eq, Hs. simpl.
    apply list_lookup_insert_ne. congruence.
  - rewrite lookup_insert_ne by congruence. reflexivity.
Qed.

(** One turn of the loop writes at most row [j] of [signal], and nothing
    when the weights of row [j] are all zero. *)
Lemma add_model_row_frame scale s m w j h :
  let h' := snd (add_model_row scale s m w j h) in
  (forall l, l <> s -> h' !! l = h !! l) /\
  (forall l i, i <> j -> row_of h' l i = row_of h l i) /\
  (forall wj, row_of h w j = Some wj -> np_all_eq0 wj = true -> h' = h).
Proof.
  unfold add_model_row, row_of. py_unfold.
  destruct (h !! w) as [W|] eqn:HW; simpl; [|repeat split; intros; congruence].
  unfold getitem.
  destruct (rows W !! j) as [wj|] eqn:Hwj; simpl;
    [|repeat split; intros; congruence].
  destruct (np_all_eq0 wj) eqn:Hz; simpl; [repeat split; intros; congruence|].
  destruct (h !! s) as [S|] eqn:HS; simpl; [|repeat split; intros; congruence].
  destruct (rows S !! j) as [sj|] eqn:Hsj; simpl;
    [|repeat split; intros; congruence].
  destruct (h !! m) as [M|] eqn:HM; simpl; [|repeat split; intros; congruence].
  destruct (np_dot_vm (scale_vec wj scale) M) as [v|e]; simpl;
    [|repeat split; intros; congruence].
  destruct (iadd sj v) as [sj'|e]; simpl; [|repeat split; intros; congruence].
  split; [|split].
  - intros l Hl. rewrite lookup_insert_ne by congruence. reflexivity.
  - intros l i Hi. apply (row_of_insert_setitem h s S j i sj' l HS Hi).
  - intros wj' Hwj'. injection Hwj' as <-. congruence.
Qed.

Lemma add_model_loop_frame scale s m w range h i wi :
  row_of h w i = Some wi -> np_all_eq0 wi = true ->
  let h' := snd (add_model_loop scale s m w range h) in
  (forall l, l <> s -> h' !! l = h !! l) /\
  (forall l, row_of h' l i = row_of h l i).
Proof.
  revert h. induction range as [|j range IH]; intros h Hwi Hz; simpl.
  - split; reflexivity.
  - py_unfold.
    pose proof (add_model_row_frame scale s m w j h) as (Hother & Hrows & Hskip).
    simpl in *.
    destruct (add_model_row scale s m w j h) as [[[]|e] h1] eqn:Hrow; simpl in *.
    + assert (Hi : forall l, row_of h1 l i = row_of h l i).
      { intros l. destruct (decide (i = j)) as [->|Hij].
        - rewrite (Hskip wi Hwi Hz). reflexivity.
        - apply Hrows. exact Hij. }
      destruct (IH h1) as (IH1 & IH2); [rewrite Hi; exact Hwi | exact Hz |].
      split.
      * intros l Hl. rewrite IH1 by exact Hl. apply Hother. exact Hl.
      * intros l. rewrite IH2. apply Hi.
    + split; [exact Hother|].
      intros l. destruct (decide (i = j)) as [->|Hij].
      * rewrite (Hskip wi Hwi Hz). reflexivity.
      * apply Hrows. exact Hij.
Qed.

(** C6.  For a row [i] whose weights are all zero, [add_model], whatever
    its outcome, leaves row [i] of the signal, and of every other array, as
    it was, and it leaves every array other than the signal untouched; the
    turn of the loop for such a row changes nothing at all in the store. *)
Theorem add_model_skips_zero_rows
    (tod model : option (AxisManager F)) (scale : F)
    (signal modes weights : option loc) h s w i wi :
  default_attr signal tod "signal" = Ok s ->
  default_attr weights model "weights" = Ok w ->
  row_of h w i = Some wi ->
  np_all_eq0 wi = true ->
  let h' := snd (add_model tod model scale signal modes weights h) in
  row_of h' s i = row_of h s i /\
  (forall l, row_of h' l i = row_of h l i) /\
  (forall l, l <> s -> h' !! l = h !! l) /\
  (forall m h0, row_of h0 w i = Some wi ->
     add_model_row scale s m w i h0 = (Ok tt, h0)).
Proof.
  intros Hs Hw Hwi Hz.
  assert (Hturn : forall m h0, row_of h0 w i = Some wi ->
            add_model_row scale s m w i h0 = (Ok tt, h0)).
  { intros m h0 Hrow. unfold add_model_row, row_of in *. py_unfold.
    destruct (h0 !! w) as [W|]; simpl in *; [|discriminate].
    unfold getitem. rewrite Hrow. simpl. rewrite Hz. reflexivity. }
  cut (let h' := snd (add_model tod model scale signal modes weights h) in
       row_of h' s i = row_of h s i /\
       (forall l, row_of h' l i = row_of h l i) /\
       (forall l, l <> s -> h' !! l = h !! l)).
  { intros (H1 & H2 & H3). repeat split; assumption. }
  unfold add_model. py_unfold. rewrite Hs.
  destruct (default_attr modes model "modes") as [m|e]; simpl; [|auto].
  rewrite Hw.
  destruct (axis_count model "dets") as [n|e]; simpl; [|auto].
  pose proof (add_model_loop_frame scale s m w (seq 0 n) h i wi Hwi Hz)
    as (H1 & H2). simpl in *.
  destruct (add_model_loop scale s m w (seq 0 n) h) as [[[]|e] h1]; simpl in *;
    auto.
Qed.

(** C9.  With [model = None], [add_model] raises [AttributeError] and
    leaves the store untouched, whatever [tod], [scale], [signal], [modes]
    and [weights] are: also when both [modes] and [weights] are given. *)
Theorem add_model_requires_model
    (tod : option (AxisManager F)) (scale : F)
    (signal modes weights : option loc) h :
  add_model tod None scale signal modes weights h = (Raise AttributeError, h).
Proof.
  unfold add_model. py_unfold.
  destruct signal as [s|]; simpl.
  - destruct modes as [m|]; simpl; [|reflexivity].
    destruct weights as [w|]; simpl; reflexivity.
  - unfold getattr. destruct tod as [a|]; [|reflexivity].
    destruct (fields a !! "signal"); [|reflexivity].
    destruct modes as [m|]; simpl; [|reflexivity].
    destruct weights as [w|]; simpl; reflexivity.
Qed.

End AddModelFrame.

Section AddModelSpec.
Context {F : Type} `{Dtype F} `{Dot F}.
Implicit Types (h : store F) (s m w : loc) (S M W : matrix F).

Lemma vecmat_length (v : list F) M : length (vecmat v M) = ncols M.
Proof. unfold vecmat. rewrite length_map, length_seq. reflexivity. Qed.

Lemma new_row_length scale W M i si :
  length si = ncols M -> length (new_row scale W M i si) = length si.
Proof.
  intros Hlen. unfold new_row.
  destruct (rows W !! i) as [wi|]; [|reflexivity].
  destruct (np_all_eq0 wi); [reflexivity|].
  rewrite length_zip_with, vecmat_length. lia.
Qed.

Lemma matrix_eta S : Matrix (ncols S) (rows S) = S.
Proof. destruct S. reflexivity. Qed.

Lemma alter_as_insert {A} (f : A -> A) (l : list A) i x :
  l !! i = Some x -> <[i := f x]> l = alter f i l.
Proof.
  intros Hx. apply list_eq. intros j.
  destruct (decide (i = j)) as [<-|Hij].
  - rewrite list_lookup_alter_eq, Hx.
    apply list_lookup_insert_eq. eapply lookup_lt_Some; eauto.
  - rewrite list_lookup_alter_ne, list_lookup_insert_ne by congruence.
    reflexivity.
Qed.

Lemma accumulated_empty scale W M S a : accumulated scale W M S a a = S.
Proof.
  transitivity (Matrix (ncols S) (rows S)); [|apply matrix_eta].
  unfold accumulated. f_equal.
  apply list_eq. intros i. rewrite list_lookup_imap.
  destruct (rows S !! i); simpl; [|reflexivity].
  destruct (decide (a <= i < a)); [lia | reflexivity].
Qed.

Lemma accumulated_step scale W M S a b :
  a < b ->
  accumulated scale W M
    (Matrix (ncols S) (alter (new_row scale W M a) a (rows S))) (Datatypes.S a) b
  = accumulated scale W M S a b.
Proof.
  intros Hab. unfold accumulated. simpl. f_equal.
  apply list_eq. intros i. rewrite !list_lookup_imap.
  destruct (decide (a = i)) as [<-|Hai].
  - rewrite list_lookup_alter_eq.
    destruct (rows S !! a); simpl; [|reflexivity].
    destruct (decide (Datatypes.S a <= a < b)); [lia|].
    destruct (decide (a <= a < b)); [reflexivity | lia].
  - rewrite list_lookup_alter_ne by congruence.
    destruct (rows S !! i); simpl; [|reflexivity].
    destruct (decide (Datatypes.S a <= i < b)), (decide (a <= i < b));
      try reflexivity; lia.
Qed.

(** One turn of the loop, when the signal is neither the modes nor the
    weights array and the shapes agree. *)
Lemma add_model_row_ok scale s m w S M W a h :
  h !! s = Some S -> h !! m = Some M -> h !! w = Some W ->
  s <> m -> s <> w ->
  mat_wf S -> mat_wf W -> a < nrows S -> a < nrows W ->
  ncols W = nrows M -> ncols S = ncols M ->
  add_model_row scale s m w a h
  = (Ok tt,
     <[s := Matrix (ncols S) (alter (new_row scale W M a) a (rows S))]> h).
Proof.
  intros Hs Hm Hw Hsm Hsw HwfS HwfW HaS HaW HWM HSM.
  destruct (lookup_lt_is_Some_2 (rows W) a HaW) as [wi Hwi].
  destruct (lookup_lt_is_Some_2 (rows S) a HaS) as [si Hsi].
  unfold add_model_row. py_unfold. rewrite Hw. simpl.
  unfold getitem. rewrite Hwi. simpl.
  assert (Hnew : new_row scale W M a si
                 = if np_all_eq0 wi then si
                   else zip_with dt_add si (vecmat (scale_vec wi scale) M)).
  { unfold new_row. rewrite Hwi. reflexivity. }
  rewrite <- (alter_as_insert _ _ _ _ Hsi), Hnew.
  destruct (np_all_eq0 wi) eqn:Hz; simpl.
  - rewrite list_insert_id by exact Hsi. rewrite matrix_eta.
    rewrite insert_id by exact Hs. reflexivity.
  - rewrite Hs. simpl. rewrite Hsi. simpl. rewrite Hm. simpl.
    assert (Hlw : length wi = nrows M).
    { rewrite <- HWM. unfold mat_wf in HwfW.
      rewrite Forall_forall in HwfW. apply HwfW.
      eapply list_elem_of_lookup_2; eauto. }
    assert (Hls : length si = ncols M).
    { rewrite <- HSM. unfold mat_wf in HwfS.
      rewrite Forall_forall in HwfS. apply HwfS.
      eapply list_elem_of_lookup_2; eauto. }
    unfold np_dot_vm, scale_vec. rewrite length_map.
    destruct (decide (length wi = nrows M)); [|contradiction]. simpl.
    unfold iadd. rewrite vecmat_length.
    destruct (decide (ncols M = length si)); [|congruence]. simpl.
    reflexivity.
Qed.

Lemma mat_wf_alter S (f : list F -> list F) a :
  mat_wf S -> (forall r, length r = ncols S -> length (f r) = length r) ->
  mat_wf (Matrix (ncols S) (alter f a (rows S))).
Proof.
  unfold mat_wf. simpl. intros Hwf Hf.
  rewrite Forall_forall in *. intros r Hr.
  apply list_elem_of_lookup in Hr as [i Hi].
  destruct (decide (a = i)) as [<-|Hai].
  - rewrite list_lookup_alter_eq in Hi.
    destruct (rows S !! a) as [r0|] eqn:Hr0; simpl in Hi; [|discriminate].
    injection Hi as <-.
    assert (length r0 = ncols S).
    { apply Hwf. eapply list_elem_of_lookup_2; eauto. }
    rewrite Hf; assumption.
  - rewrite list_lookup_alter_ne in Hi by congruence.
    apply Hwf. eapply list_elem_of_lookup_2; eauto.
Qed.

(** The loop over the rows [a], ..., [a + k - 1]. *)
Lemma add_model_loop_ok scale s m w M W k :
  forall a S h,
  h !! s = Some S -> h !! m = Some M -> h !! w = Some W ->
  s <> m -> s <> w ->
  mat_wf S -> mat_wf W -> a + k <= nrows S -> a + k <= nrows W ->
  ncols W = nrows M -> ncols S = ncols M ->
  add_model_loop scale s m w (seq a k) h
  = (Ok tt, <[s := accumulated scale W M S a (a + k)]> h).
Proof.
  induction k as [|k IH]; intros a S h Hs Hm Hw Hsm Hsw HwfS HwfW HaS HaW HWM HSM.
  - simpl. py_unfold. rewrite Nat.add_0_r, accumulated_empty.
    rewrite insert_id by exact Hs. reflexivity.
  - simpl. py_unfold.
    rewrite (add_model_row_ok scale s m w S M W a h) by (try assumption; lia).
    set (S1 := Matrix (ncols S) (alter (new_row scale W M a) a (rows S))).
    rewrite (IH (Datatypes.S a) S1 (<[s := S1]> h)).
    + rewrite insert_insert_eq. f_equal. f_equal.
      replace (Datatypes.S a + k) with (a + Datatypes.S k) by lia.
      apply accumulated_step. lia.
    + apply lookup_insert_eq.
    + rewrite lookup_insert_ne by congruence. exact Hm.
    + rewrite lookup_insert_ne by congruence. exact Hw.
    + exact Hsm.
    + exact Hsw.
    + apply mat_wf_alter; [exact HwfS|].
      intros r Hr. apply new_row_length. congruence.
    + exact HwfW.
    + unfold S1, nrows. simpl. rewrite length_alter. unfold nrows in HaS. lia.
    + lia.
    + exact HWM.
    + exact HSM.
Qed.

Lemma add_model_ok (tod model : option (AxisManager F)) (scale : F)
    (signal modes weights : option loc) h s m w n S M W :
  default_attr signal tod "signal" = Ok s ->
  default_attr modes model "modes" = Ok m ->
  default_attr weights model "weights" = Ok w ->
  axis_count model "dets" = Ok n ->
  h !! s = Some S -> h !! m = Some M -> h !! w = Some W ->
  s <> m -> s <> w ->
  shapes_agree n S M W ->
  add_model tod model scale signal modes weights h
  = (Ok s, <[s := accumulated scale W M S 0 n]> h).
Proof.
  intros Hs Hm Hw Hn HS HM HW Hsm Hsw (HwfS & HwfW & HnS & HnW & HWM & HSM).
  unfold add_model. py_unfold. rewrite Hs, Hm, Hw, Hn. simpl.
  rewrite (add_model_loop_ok scale s m w M W n 0 S h); auto.
Qed.

Lemma accumulated_lookup scale W M S a b i :
  rows (accumulated scale W M S a b) !! i
  = (fun si => if decide (a <= i < b) then new_row scale W M i si else si)
      <$> rows S !! i.
Proof. unfold accumulated. simpl. apply list_lookup_imap. Qed.

Lemma accumulated_shapes scale W M S n :
  shapes_agree n S M W ->
  shapes_agree n (accumulated scale W M S 0 n) M W.
Proof.
  intros (HwfS & HwfW & HnS & HnW & HWM & HSM).
  repeat split; try assumption.
  - unfold mat_wf, accumulated in *. simpl.
    rewrite Forall_forall in *. intros r Hr.
    apply list_elem_of_lookup in Hr as [i Hi].
    rewrite list_lookup_imap in Hi.
    destruct (rows S !! i) as [r0|] eqn:Hr0; simpl in Hi; [|discriminate].
    injection Hi as <-.
    assert (length r0 = ncols S).
    { apply HwfS. eapply list_elem_of_lookup_2; eauto. }
    destruct (decide (0 <= i < n)); [|assumption].
    rewrite new_row_length; congruence.
  - unfold nrows, accumulated in *. simpl. rewrite length_imap. exact HnS.
Qed.

End AddModelSpec.

Section AddModelTheorems.
Context {F : Type} `{Dtype F} `{Dot F}.
Implicit Types (h : store F) (s m w : loc) (S M W : matrix F).

(** C5, as amended.  When the signal array is neither the modes nor the
    weights array and the shapes agree, [add_model] returns the reference of
    the signal it was given and changes the store at that reference only:
    every row [i < dets] whose weights are not all zero becomes the old row
    plus [np.dot(weights[i] * scale, modes)], entry by entry, the scale
    multiplied into the weights before the product and the product being
    whatever [np.dot] returns for the scaled weights and the modes; rows
    whose weights are all zero and rows beyond [dets] are kept. *)
Theorem add_model_accumulates (tod model : option (AxisManager F)) (scale : F)
    (signal modes weights : option loc) h s m w n S M W :
  default_attr signal tod "signal" = Ok s ->
  default_attr modes model "modes" = Ok m ->
  default_attr weights model "weights" = Ok w ->
  axis_count model "dets" = Ok n ->
  h !! s = Some S -> h !! m = Some M -> h !! w = Some W ->
  s <> m -> s <> w ->
  shapes_agree n S M W ->
  exists S',
    add_model tod model scale signal modes weights h
    = (Ok s, <[s := S']> h) /\
    ncols S' = ncols S /\ nrows S' = nrows S /\
    (forall i wi si,
       i < n -> rows W !! i = Some wi -> rows S !! i = Some si ->
       rows S' !! i
       = Some (if np_all_eq0 wi then si
               else zip_with dt_add si
                      (map (dot_vm (map (fun x => dt_mul x scale) wi) M)
                           (seq 0 (ncols M))))) /\
    (forall i, n <= i -> rows S' !! i = rows S !! i).
Proof.
  intros Hs Hm Hw Hn HS HM HW Hsm Hsw Hshape.
  exists (accumulated scale W M S 0 n).
  split; [eapply add_model_ok; eauto|].
  split; [reflexivity|].
  split; [unfold nrows, accumulated; simpl; apply length_imap|].
  split.
  - intros i wi si Hi Hwi Hsi. rewrite accumulated_lookup, Hsi. simpl.
    destruct (decide (0 <= i < n)); [|lia].
    unfold new_row. rewrite Hwi. reflexivity.
  - intros i Hi. rewrite accumulated_lookup.
    destruct (rows S !! i); simpl; [|reflexivity].
    destruct (decide (0 <= i < n)); [lia | reflexivity].
Qed.

End AddModelTheorems.

Section AddModelExact.
Context {F : Type} `{ExactDtype F}.
Implicit Types (h : store F) (s m w : loc) (S M W : matrix F).

Lemma dt_add_0_l (x : F) : dt_add (of_int 0) x = x.
Proof. rewrite dt_add_comm. apply dt_add_0_r. Qed.

Lemma dt_add_swap (a p b q : F) :
  dt_add (dt_add a p) (dt_add b q) = dt_add (dt_add a b) (dt_add p q).
Proof.
  rewrite <- !dt_add_assoc. f_equal.
  rewrite !dt_add_assoc. f_equal. apply dt_add_comm.
Qed.

Lemma scaled_terms_cancel (x y : F) :
  dt_add (dt_mul (dt_mul x (of_int (-1))) y) (dt_mul (dt_mul x (of_int 1)) y)
  = of_int 0.
Proof.
  rewrite <- dt_mul_add_distr_r, <- dt_mul_add_distr_l, dt_opp_1.
  rewrite dt_mul_0_r. apply dt_mul_0_l.
Qed.

Lemma inner_cancel_from (u c : list F) (a1 a2 : F) :
  dt_add
    (fold_left (fun acc xy => dt_add acc (dt_mul (fst xy) (snd xy)))
               (zip (scale_vec u (of_int (-1))) c) a1)
    (fold_left (fun acc xy => dt_add acc (dt_mul (fst xy) (snd xy)))
               (zip (scale_vec u (of_int 1)) c) a2)
  = dt_add a1 a2.
Proof.
  revert c a1 a2. induction u as [|x u IH]; intros c a1 a2; [reflexivity|].
  destruct c as [|y c]; [reflexivity|]. simpl.
  rewrite IH, dt_add_swap, scaled_terms_cancel. apply dt_add_0_r.
Qed.

Lemma inner_cancel (u c : list F) (x : F) :
  dt_add (dt_add x (inner (scale_vec u (of_int (-1))) c))
         (inner (scale_vec u (of_int 1)) c) = x.
Proof.
  rewrite <- dt_add_assoc. unfold inner.
  rewrite inner_cancel_from, dt_add_0_r. apply dt_add_0_r.
Qed.

Lemma inner_scale_from (u c : list F) (s a : F) :
  fold_left (fun acc xy => dt_add acc (dt_mul (fst xy) (snd xy)))
            (zip (scale_vec u s) c) (dt_mul s a)
  = dt_mul s (fold_left (fun acc xy => dt_add acc (dt_mul (fst xy) (snd xy)))
                        (zip u c) a).
Proof.
  revert c a. induction u as [|x u IH]; intros c a; [reflexivity|].
  destruct c as [|y c]; [reflexivity|]. simpl.
  rewrite <- IH. f_equal.
  rewrite dt_mul_add_distr_l, (dt_mul_comm x s), dt_mul_assoc. reflexivity.
Qed.

Lemma vecmat_exact (v : list F) M :
  vecmat v M = map (fun j => inner v (column M j)) (seq 0 (ncols M)).
Proof. unfold vecmat. apply map_ext. intros j. apply dot_vm_exact. Qed.

(** With exact arithmetic the scale can be applied before or after the
    product with the modes. *)
Lemma spec_row_update_exact (scale : F) (wi : list F) M (si : list F) :
  spec_row_update scale wi M si
  = zip_with dt_add si (vecmat (scale_vec wi scale) M).
Proof.
  unfold spec_row_update. rewrite !vecmat_exact, map_map. f_equal.
  apply map_ext. intros j. unfold inner.
  rewrite <- inner_scale_from, dt_mul_0_r. reflexivity.
Qed.

Lemma zip_with_cancel {J} (f g : J -> F) (js : list J) :
  (forall j x, dt_add (dt_add x (f j)) (g j) = x) ->
  forall r, length r <= length js ->
  zip_with dt_add (zip_with dt_add r (map f js)) (map g js) = r.
Proof.
  intros Hfg. induction js as [|j js IH]; intros r Hr.
  - destruct r; [reflexivity | simpl in Hr; lia].
  - destruct r as [|x r]; [reflexivity|]. simpl in *.
    rewrite Hfg, IH by lia. reflexivity.
Qed.

Lemma new_row_inverse W M i si :
  length si = ncols M ->
  new_row (of_int 1) W M i (new_row (of_int (-1)) W M i si) = si.
Proof.
  intros Hlen. unfold new_row.
  destruct (rows W !! i) as [wi|]; [|reflexivity].
  destruct (np_all_eq0 wi); [reflexivity|].
  rewrite !vecmat_exact. apply zip_with_cancel.
  - intros j x. apply inner_cancel.
  - rewrite length_seq. lia.
Qed.

Lemma accumulated_inverse W M S n :
  shapes_agree n S M W ->
  accumulated (of_int 1) W M (accumulated (of_int (-1)) W M S 0 n) 0 n = S.
Proof.
  intros (HwfS & _ & _ & _ & _ & HSM).
  transitivity (Matrix (ncols S) (rows S)); [|apply matrix_eta].
  unfold accumulated. simpl. f_equal.
  apply list_eq. intros i. rewrite !list_lookup_imap.
  destruct (rows S !! i) as [si|] eqn:Hsi; simpl; [|reflexivity].
  destruct (decide (0 <= i < n)); [|reflexivity].
  rewrite new_row_inverse; [reflexivity|].
  rewrite <- HSM. unfold mat_wf in HwfS. rewrite Forall_forall in HwfS.
  apply HwfS. eapply list_elem_of_lookup_2; eauto.
Qed.

(** C7, as amended.  Over an element type with exact arithmetic (a
    commutative ring whose [np.dot] returns the sums of the products, such
    as arrays of Python ints), when the signal array
    is neither the modes nor the weights array and the shapes agree:
    [add_model] with [scale = -1] followed by [add_model] with [scale = 1] on
    the same model returns the signal reference both times and ends in the
    store it started from. *)
Theorem add_model_inverse_exact (tod model : option (AxisManager F))
    (signal modes weights : option loc) h s m w n S M W :
  default_attr signal tod "signal" = Ok s ->
  default_attr modes model "modes" = Ok m ->
  default_attr weights model "weights" = Ok w ->
  axis_count model "dets" = Ok n ->
  h !! s = Some S -> h !! m = Some M -> h !! w = Some W ->
  s <> m -> s <> w ->
  shapes_agree n S M W ->
  exists h1,
    add_model tod model (of_int (-1)) signal modes weights h = (Ok s, h1) /\
    add_model tod model (of_int 1) signal modes weights h1 = (Ok s, h).
Proof.
  intros Hs Hm Hw Hn HS HM HW Hsm Hsw Hshape.
  exists (<[s := accumulated (of_int (-1)) W M S 0 n]> h).
  split; [eapply add_model_ok; eauto|].
  rewrite (add_model_ok tod model (of_int 1) signal modes weights _ s m w n
             (accumulated (of_int (-1)) W M S 0 n) M W); try assumption.
  - rewrite accumulated_inverse by exact Hshape.
    rewrite insert_insert_eq, insert_id by exact HS. reflexivity.
  - apply lookup_insert_eq.
  - rewrite lookup_insert_ne by congruence. exact HM.
  - rewrite lookup_insert_ne by congruence. exact HW.
  - apply accumulated_shapes. exact Hshape.
Qed.

End AddModelExact.

#[global] Instance int_exact : ExactDtype Z.
Proof. split; simpl; intros; try lia; reflexivity. Qed.

Lemma shapes_agree_2x2 :
  shapes_agree 2 (Matrix 2 [[10; 20]; [30; 40]]%Z) (Matrix 2 [[1; 2]]%Z)
               (Matrix 1 [[3]; [0]]%Z).
Proof.
  unfold shapes_agree, mat_wf, nrows. simpl.
  repeat split; try lia; repeat constructor.
Qed.

Lemma add_model_accumulates_witness :
  exists S',
    add_model (Some tod_2x2) (Some model_2x2) 5%Z None None None store_2x2
    = (Ok 0, <[0 := S']> store_2x2) /\
    rows S' !! 0 = Some [25; 50]%Z /\ rows S' !! 1 = Some [30; 40]%Z.
Proof.
  assert (Hsm : 0 <> 1) by lia. assert (Hsw : 0 <> 2) by lia.
  destruct (add_model_accumulates (Some tod_2x2) (Some model_2x2) 5%Z
              None None None store_2x2 0 1 2 2
              (Matrix 2 [[10; 20]; [30; 40]]%Z) (Matrix 2 [[1; 2]]%Z)
              (Matrix 1 [[3]; [0]]%Z)
              eq_refl eq_refl eq_refl eq_refl eq_refl eq_refl eq_refl
              Hsm Hsw shapes_agree_2x2)
    as (S' & Hrun & _ & _ & Hrows & _).
  exists S'. split; [exact Hrun|]. split.
  - apply (Hrows 0 [3%Z] [10; 20]%Z); [lia | reflexivity | reflexivity].
  - apply (Hrows 1 [0%Z] [30; 40]%Z); [lia | reflexivity | reflexivity].
Defined.

Lemma add_model_skips_zero_rows_witness :
  row_of (snd (add_model (Some tod_2x2) (Some model_2x2) 5%Z None None None
                         store_2x2)) 0 1
  = Some [30; 40]%Z.
Proof.
  pose proof (add_model_skips_zero_rows (Some tod_2x2) (Some model_2x2) 5%Z
                None None None store_2x2 0 2 1 [0%Z]
                eq_refl eq_refl eq_refl eq_refl) as (Hrow & _).
  exact Hrow.
Defined.

Lemma add_model_inverse_exact_witness :
  exists h1,
    add_model (Some tod_2x2) (Some model_2x2) (-1)%Z None None None store_2x2
    = (Ok 0, h1) /\
    add_model (Some tod_2x2) (Some model_2x2) 1%Z None None None h1
    = (Ok 0, store_2x2).
Proof.
  assert (Hsm : 0 <> 1) by lia. assert (Hsw : 0 <> 2) by lia.
  exact (add_model_inverse_exact (Some tod_2x2) (Some model_2x2)
           None None None store_2x2 0 1 2 2
           (Matrix 2 [[10; 20]; [30; 40]]%Z) (Matrix 2 [[1; 2]]%Z)
           (Matrix 1 [[3]; [0]]%Z)
           eq_refl eq_refl eq_refl eq_refl eq_refl eq_refl eq_refl
           Hsm Hsw shapes_agree_2x2).
Defined.

(** The signal must not be the modes array, even with exact arithmetic:
    with [signal = modes = [[1]]] and [weights = [[2]]], removing the model
    leaves [1 - 2 * 1 = -1] in both, and adding it back leaves
    [-1 + 2 * -1 = -3]. *)
Lemma add_model_shared_modes :
  let model : AxisManager Z :=
    axis_manager [("dets", 1); ("eigen", 1); ("samps", 1)]
                 [("modes", 0); ("weights", 2)] in
  let h : store Z := store_1x1 1%Z 0%Z 2%Z in
  let r1 := add_model (Some tod_1x1) (Some model) (-1)%Z None None None h in
  let r2 := add_model (Some tod_1x1) (Some model) 1%Z None None None
                      (snd r1) in
  fst r1 = Ok 0 /\ fst r2 = Ok 0 /\
  row_of h 0 0 = Some [1%Z] /\ row_of (snd r2) 0 0 = Some [(-3)%Z].
Proof. vm_compute. repeat split; reflexivity. Qed.

Section AddModelFloat64.
(** On operands of one term [np.dot] is the product of the two. *)
#[local] Existing Instance dot_in_order.

(** C5 as stated fails on float64.  With [signal = [[0.]]],
    [weights = [[0.1]]], [modes = [[10.]]] and [scale = 3], [add_model]
    leaves [(0.1 * 3) * 10 = 3.0000000000000004] in the signal, not
    [3 * (0.1 * 10) = 3.0]. *)
Lemma add_model_scale_outside_differs :
  let h := store_1x1 f64_zero (f64_of_int 10) f64_tenth in
  let r := add_model (Some tod_1x1) (Some model_1x1) (f64_of_int 3)
                     None None None h in
  fst r = Ok 0 /\
  row_of (snd r) 0 0 = Some [S754_finite false 6755399441055745 (-51)] /\
  spec_row_update (f64_of_int 3) [f64_tenth] (Matrix 1 [[f64_of_int 10]])
                  [f64_zero]
  = [S754_finite false 6755399441055744 (-51)] /\
  row_of (snd r) 0 0
  <> Some (spec_row_update (f64_of_int 3) [f64_tenth]
             (Matrix 1 [[f64_of_int 10]]) [f64_zero]).
Proof.
  vm_compute. repeat split; try reflexivity. intros E. discriminate E.
Qed.

(** C7 as stated fails on float64.  With [signal = [[1.]]],
    [weights = [[1.]]] and [modes = [[2.**60]]], removing the model leaves
    [1 - 2**60], which rounds to [-2**60]; adding it back leaves [0.], not
    [1.]. *)
Lemma add_model_inverse_inexact_f64 :
  let h := store_1x1 f64_one f64_2p60 f64_one in
  let r1 := add_model (Some tod_1x1) (Some model_1x1) (of_int (-1))
                      None None None h in
  let r2 := add_model (Some tod_1x1) (Some model_1x1) (of_int 1)
                      None None None (snd r1) in
  fst r1 = Ok 0 /\ fst r2 = Ok 0 /\
  row_of h 0 0 = Some [f64_one] /\
  row_of (snd r2) 0 0 = Some [f64_zero] /\
  snd r2 <> h.
Proof.
  vm_compute. repeat split; try reflexivity. intros E. discriminate E.
Qed.

End AddModelFloat64.

(* ===================================================================== *)
(** * Properties of the float64 order and of sorting *)
(* ===================================================================== *)

Section FloatOrder.

Ltac cases_compare :=
  repeat match goal with
  | H : context [Pos.compare_cont Eq ?x ?y] |- _ =>
      change (Pos.compare_cont Eq x y) with (Pos.compare x y) in H
  | |- context [Pos.compare_cont Eq ?x ?y] =>
      change (Pos.compare_cont Eq x y) with (Pos.compare x y)
  end;
  repeat match goal with
  | H : context [Z.compare ?x ?y] |- _ =>
      destruct (Z.compare_spec x y); simpl in H; try discriminate H
  | |- context [Z.compare ?x ?y] =>
      destruct (Z.compare_spec x y); simpl
  | H : context [Pos.compare ?x ?y] |- _ =>
      destruct (Pos.compare_spec x y); simpl in H; try discriminate H
  | |- context [Pos.compare ?x ?y] =>
      destruct (Pos.compare_spec x y); simpl
  end;
  subst; try reflexivity; try lia.

Lemma np_lt_asym (a b : f64) : np_lt a b = true -> np_lt b a = false.
Proof.
  unfold np_lt, f64_ltb, f64_isnan, SFltb, SFcompare.
  destruct a as [[]|[]| |[] ma ea], b as [[]|[]| |[] mb eb]; simpl;
    try reflexivity; try discriminate; intros Hab; cases_compare.
Qed.

Lemma np_lt_negative_trans (a b c : f64) :
  np_lt b a = false -> np_lt c b = false -> np_lt c a = false.
Proof.
  unfold np_lt, f64_ltb, f64_isnan, SFltb, SFcompare.
  destruct a as [[]|[]| |[] ma ea], b as [[]|[]| |[] mb eb],
           c as [[]|[]| |[] mc ec]; simpl;
    try reflexivity; try discriminate; intros Hba Hcb; cases_compare.
Qed.

Lemma f64_ltb_neg (a b : f64) :
  f64_ltb (f64_neg b) (f64_neg a) = f64_ltb a b.
Proof.
  unfold f64_ltb, f64_neg, SFltb, SFcompare, SFopp.
  destruct a as [[]|[]| |[] ma ea], b as [[]|[]| |[] mb eb]; simpl;
    try reflexivity; cases_compare.
Qed.

Lemma f64_not_ltb_leb (a b : f64) :
  f64_isnan a = false -> f64_isnan b = false ->
  f64_ltb a b = false -> f64_leb b a = true.
Proof.
  unfold f64_ltb, f64_leb, f64_isnan, SFltb, SFleb, SFcompare.
  destruct a as [[]|[]| |[] ma ea], b as [[]|[]| |[] mb eb]; simpl;
    try reflexivity; try discriminate; intros _ _ Hab; cases_compare.
Qed.

End FloatOrder.

Section Sorting.

Lemma np_le_trans : Transitive np_le.
Proof. intros a b c Hab Hbc. unfold np_le in *. eapply np_lt_negative_trans; eauto. Qed.

Lemma insert_key_perm x l : Permutation (insert_key x l) (x :: l).
Proof.
  induction l as [|y l IH]; simpl; [reflexivity|].
  destruct (np_lt (fst y) (fst x)); [|reflexivity].
  rewrite IH. apply perm_swap.
Qed.

Lemma sort_keys_perm l : Permutation (sort_keys l) l.
Proof.
  induction l as [|x l IH]; simpl; [reflexivity|].
  rewrite insert_key_perm. constructor. exact IH.
Qed.

Lemma insert_key_hd x y l :
  key_le y x -> HdRel key_le y l -> HdRel key_le y (insert_key x l).
Proof.
  intros Hyx Hl. destruct l as [|z l]; simpl; [constructor; exact Hyx|].
  destruct (np_lt (fst z) (fst x)); constructor.
  - inversion Hl; assumption.
  - exact Hyx.
Qed.

Lemma insert_key_sorted x l :
  Sorted key_le l -> Sorted key_le (insert_key x l).
Proof.
  induction l as [|y l IH]; intros Hl; simpl.
  - repeat constructor.
  - inversion Hl as [|? ? Hl' Hhd]; subst.
    destruct (np_lt (fst y) (fst x)) eqn:Hyx.
    + constructor; [apply IH; exact Hl'|].
      apply insert_key_hd; [|exact Hhd].
      unfold key_le, np_le. apply np_lt_asym. exact Hyx.
    + constructor; [exact Hl|]. constructor. exact Hyx.
Qed.

Lemma sort_keys_sorted l : StronglySorted key_le (sort_keys l).
Proof.
  apply Sorted_StronglySorted.
  - intros x y z. unfold key_le. apply np_le_trans.
  - induction l as [|x l IH]; simpl; [constructor|].
    apply insert_key_sorted. exact IH.
Qed.

Lemma np_argsort_perm keys :
  Permutation (np_argsort keys) (seq 0 (length keys)).
Proof.
  unfold np_argsort. rewrite sort_keys_perm.
  rewrite <- (length_seq 0 (length keys)) at 1.
  rewrite snd_zip; [reflexivity|]. rewrite length_seq. lia.
Qed.

End Sorting.

Lemma lookup_map {A B} (f : A -> B) (l : list A) (i : nat) :
  map f l !! i = f <$> l !! i.
Proof. apply (list_lookup_fmap f l i). Qed.

Section TakeIdx.
Context {A : Type}.

Lemma omap_lookup_valid (v : list A) (idx : list nat) :
  Forall (fun j => j < length v) idx ->
  length (omap (fun i => v !! i) idx) = length idx /\
  forall i j, idx !! i = Some j -> omap (fun i => v !! i) idx !! i = v !! j.
Proof.
  induction idx as [|k idx IH]; intros Hall; simpl.
  - split; [reflexivity|]. intros i j Hi. discriminate.
  - inversion Hall as [|? ? Hk Hall']; subst.
    destruct (lookup_lt_is_Some_2 v k Hk) as [x Hx]. rewrite Hx. simpl.
    destruct (IH Hall') as [Hlen Hlook]. split; [f_equal; exact Hlen|].
    intros [|i] j Hi; simpl in *.
    + injection Hi as <-. symmetry. exact Hx.
    + apply Hlook. exact Hi.
Qed.

Lemma forallb_ltb (n : nat) (idx : list nat) :
  Forall (fun j => j < n) idx -> forallb (fun i => (i <? n)%nat) idx = true.
Proof.
  induction 1 as [|j idx Hj _ IH]; simpl; [reflexivity|].
  rewrite IH, andb_true_r. apply Nat.ltb_lt. exact Hj.
Qed.

Lemma perm_seq_bound (n : nat) (idx : list nat) :
  Permutation idx (seq 0 n) -> Forall (fun j => j < n) idx.
Proof.
  intros Hp. rewrite Forall_forall. intros j Hj.
  rewrite Hp in Hj. apply elem_of_seq in Hj. lia.
Qed.

Lemma take_idx_perm (v : list A) (idx : list nat) :
  Permutation idx (seq 0 (length v)) ->
  exists v', take_idx v idx = Ok v' /\ length v' = length v /\
    forall i j, idx !! i = Some j -> v' !! i = v !! j.
Proof.
  intros Hp. pose proof (perm_seq_bound _ _ Hp) as Hb.
  unfold take_idx. rewrite (forallb_ltb _ _ Hb).
  destruct (omap_lookup_valid v idx Hb) as [Hlen Hlook].
  eexists. split; [reflexivity|]. split; [|exact Hlook].
  rewrite Hlen, Hp, length_seq. reflexivity.
Qed.

Lemma omap_columns (rs : list (list A)) (n : nat) (idx : list nat) i j :
  Forall (fun r => length r = n) rs ->
  Forall (fun j => j < n) idx ->
  idx !! i = Some j ->
  omap (fun r => r !! i) (map (fun r => omap (fun i => r !! i) idx) rs)
  = omap (fun r => r !! j) rs.
Proof.
  intros Hwf Hb Hij. induction Hwf as [|r rs Hr _ IH]; [reflexivity|].
  rewrite <- Hr in Hb.
  destruct (omap_lookup_valid r idx Hb) as [_ Hlook].
  change (omap (fun r => r !! i)
            (map (fun r => omap (fun i => r !! i) idx) (r :: rs)))
    with (match omap (fun i => r !! i) idx !! i with
          | Some y =>
              y :: omap (fun r => r !! i)
                     (map (fun r => omap (fun i => r !! i) idx) rs)
          | None =>
              omap (fun r => r !! i)
                (map (fun r => omap (fun i => r !! i) idx) rs)
          end).
  rewrite (Hlook i j Hij), IH. reflexivity.
Qed.

Lemma take_columns_perm (a : matrix A) (idx : list nat) :
  mat_wf a ->
  Permutation idx (seq 0 (ncols a)) ->
  exists a', take_columns a idx = Ok a' /\
    nrows a' = nrows a /\ ncols a' = ncols a /\
    forall i j, idx !! i = Some j ->
      omap (fun r => r !! i) (rows a') = omap (fun r => r !! j) (rows a).
Proof.
  intros Hwf Hp. pose proof (perm_seq_bound _ _ Hp) as Hb.
  unfold take_columns. rewrite (forallb_ltb _ _ Hb).
  eexists. split; [reflexivity|]. unfold nrows. simpl.
  split; [apply length_map|].
  split; [rewrite Hp, length_seq; reflexivity|].
  intros i j Hij. eapply omap_columns; eauto.
Qed.

End TakeIdx.

Section SortedTransfer.
Context {A B : Type}.

Lemma StronglySorted_map_inv (R : B -> B -> Prop) (f : A -> B) (l : list A) :
  StronglySorted R (map f l) -> StronglySorted (fun a b => R (f a) (f b)) l.
Proof.
  induction l as [|x l IH]; simpl; intros Hs; [constructor|].
  inversion Hs as [|? ? Hs' Hall]; subst. constructor; [apply IH; exact Hs'|].
  rewrite List.Forall_map in Hall. exact Hall.
Qed.

Lemma StronglySorted_weaken (P : A -> Prop) (R R' : A -> A -> Prop)
    (l : list A) :
  (forall a b, P a -> P b -> R a b -> R' a b) ->
  Forall P l -> StronglySorted R l -> StronglySorted R' l.
Proof.
  intros HR. induction l as [|x l IH]; intros HP Hs; [constructor|].
  inversion HP as [|? ? Hx HP']; subst.
  inversion Hs as [|? ? Hs' Hall]; subst.
  constructor; [apply IH; assumption|].
  rewrite Forall_forall in *. intros y Hy. apply HR; auto.
Qed.

End SortedTransfer.

Lemma spec_eigenvalues_clean (E0 : eigvals) :
  vec_real (zero_nans E0) = spec_eigenvalues E0.
Proof.
  destruct E0 as [v|v]; simpl; [reflexivity|].
  rewrite map_map. apply map_ext. intros z.
  destruct (c128_isnan z); reflexivity.
Qed.

Lemma spec_eigenvalues_no_nan (E0 : eigvals) :
  Forall (fun x => f64_isnan x = false) (spec_eigenvalues E0).
Proof.
  destruct E0 as [v|v]; simpl; rewrite Forall_forall; intros x Hx;
    apply list_elem_of_fmap in Hx as [y [-> _]].
  - destruct (f64_isnan y) eqn:E; [reflexivity | exact E].
  - unfold c128_isnan. destruct (f64_isnan (fst y)) eqn:E; simpl;
      [reflexivity|].
    destruct (f64_isnan (snd y)); [reflexivity | exact E].
Qed.

(** Sorting by the negated keys puts the values in non-increasing order. *)
Lemma argsort_neg_descending (E : list f64) :
  Forall (fun x => f64_isnan x = false) E ->
  let idx := np_argsort (map f64_neg E) in
  Permutation idx (seq 0 (length E)) /\
  exists E', take_idx E idx = Ok E' /\ length E' = length E /\
    (forall i j, idx !! i = Some j -> E' !! i = E !! j) /\
    StronglySorted (fun a b => f64_leb b a = true) E'.
Proof.
  intros Hnan idx.
  assert (Hp : Permutation idx (seq 0 (length E))).
  { unfold idx. rewrite np_argsort_perm, length_map. reflexivity. }
  split; [exact Hp|].
  assert (Hlidx : length idx = length E).
  { rewrite (Permutation_length Hp). apply length_seq. }
  destruct (take_idx_perm E idx Hp) as (E' & Htake & Hlen & Hlook).
  exists E'. repeat split; try assumption.
  set (P := sort_keys (zip (map f64_neg E) (seq 0 (length (map f64_neg E))))).
  assert (Hidx : idx = map snd P) by reflexivity.
  assert (Hpairs : Forall (fun p => map f64_neg E !! snd p = Some (fst p)) P).
  { unfold P. rewrite sort_keys_perm. rewrite Forall_forall.
    intros [k j] Hkj. apply list_elem_of_lookup in Hkj as [i Hi].
    apply lookup_zip_with_Some in Hi as (x & y & Hxy & Hx & Hy).
    injection Hxy as <- <-. simpl.
    apply lookup_seq in Hy as [-> _]. exact Hx. }
  assert (Hkeys : map f64_neg E' = map fst P).
  { apply list_eq. intros i. rewrite !lookup_map.
    destruct (P !! i) as [[k j]|] eqn:HPi; simpl.
    - assert (Hij : idx !! i = Some j).
      { rewrite Hidx, lookup_map, HPi. reflexivity. }
      rewrite (Hlook i j Hij).
      rewrite Forall_forall in Hpairs.
      specialize (Hpairs (k, j) (list_elem_of_lookup_2 _ _ _ HPi)).
      simpl in Hpairs. rewrite lookup_map in Hpairs. exact Hpairs.
    - apply lookup_ge_None in HPi.
      assert (Hi : length E' <= i).
      { rewrite Hlen, <- Hlidx, Hidx, length_map. exact HPi. }
      apply lookup_ge_None in Hi. rewrite Hi. reflexivity. }
  assert (Hnan' : Forall (fun x => f64_isnan x = false) E').
  { rewrite Forall_forall in *. intros x Hx.
    apply list_elem_of_lookup in Hx as [i Hi].
    assert (Hi' : i < length idx).
    { apply lookup_lt_Some in Hi. rewrite Hlidx, <- Hlen. exact Hi. }
    destruct (lookup_lt_is_Some_2 idx i Hi') as [j Hj].
    rewrite (Hlook i j Hj) in Hi. apply Hnan.
    eapply list_elem_of_lookup_2; eauto. }
  pose proof (sort_keys_sorted
    (zip (map f64_neg E) (seq 0 (length (map f64_neg E))))) as Hsorted.
  fold P in Hsorted.
  assert (Hfst : StronglySorted np_le (map fst P)).
  { clear -Hsorted. induction Hsorted as [|p P' _ IH Hall]; simpl;
      constructor; [exact IH|].
    rewrite List.Forall_map. exact Hall. }
  rewrite <- Hkeys in Hfst. apply StronglySorted_map_inv in Hfst.
  eapply StronglySorted_weaken; [|exact Hnan'|exact Hfst].
  intros a b Ha Hb Hab. simpl in Hab. unfold np_le, np_lt in Hab.
  apply orb_false_iff in Hab as [Hlt _].
  rewrite f64_ltb_neg in Hlt. apply f64_not_ltb_leb; assumption.
Qed.

(* ===================================================================== *)
(** * Properties of get_pca and get_pca_model *)
(* ===================================================================== *)

Section MonadLaws.
Context {S A B : Type}.

Lemma bind_ok (m : py S A) (k : A -> py S B) (s s' : S) (a : A) :
  m s = (Ok a, s') -> (x ← m; k x) s = k a s'.
Proof.
  intros Hm. unfold mbind, py_mbind, py_bind. rewrite Hm. reflexivity.
Qed.

Lemma lift_ok (r : result A) (a : A) (s : S) :
  r = Ok a -> py_lift r s = (Ok a, s).
Proof. intros ->. reflexivity. Qed.

End MonadLaws.

Section StoreLaws.
Context {F : Type}.
Implicit Types (h : store F) (am : AxisManager F).

Lemma read_ok h l (m : matrix F) : h !! l = Some m -> read l h = (Ok m, h).
Proof. intros Hl. unfold read. rewrite Hl. reflexivity. Qed.

Lemma check_dim_ok am len axis :
  axes am !! axis = Some len -> check_dim am len axis = Ok tt.
Proof.
  intros Hax. unfold check_dim. rewrite Hax.
  destruct (decide (len = len)); [reflexivity | contradiction].
Qed.

Lemma wrap_ok am name l ax0 ax1 h (m : matrix F) :
  h !! l = Some m ->
  axes am !! ax0 = Some (nrows m) -> axes am !! ax1 = Some (ncols m) ->
  wrap am name l ax0 ax1 h
  = (Ok {| axes := axes am; fields := <[name := l]> (fields am);
           fields1 := fields1 am |}, h).
Proof.
  intros Hl H0 H1. unfold wrap.
  rewrite (bind_ok _ _ _ _ _ (read_ok _ _ _ Hl)).
  rewrite (bind_ok _ _ _ _ _ (lift_ok _ _ _ (check_dim_ok _ _ _ H0))).
  rewrite (bind_ok _ _ _ _ _ (lift_ok _ _ _ (check_dim_ok _ _ _ H1))).
  reflexivity.
Qed.

Lemma wrap1_ok am name (v : list F) ax0 :
  axes am !! ax0 = Some (length v) ->
  wrap1 am name v ax0
  = Ok {| axes := axes am; fields := fields am;
          fields1 := <[name := v]> (fields1 am) |}.
Proof.
  intros H0. unfold wrap1. rewrite (check_dim_ok _ _ _ H0). reflexivity.
Qed.

Lemma alloc_ok h (m : matrix F) :
  alloc m h = (Ok (fresh (dom h)), <[fresh (dom h) := m]> h).
Proof. reflexivity. Qed.

Lemma fresh_loc_unused h : h !! fresh (dom h) = None.
Proof. apply not_elem_of_dom, is_fresh. Qed.

End StoreLaws.

Lemma mat_real_entry (R0 : eigvecs) (i j : nat) :
  entry (mat_real R0) i j = spec_eigenvector R0 i j.
Proof.
  destruct R0 as [m|m]; [reflexivity|].
  unfold spec_eigenvector, mat_real, entry, c128 in *. cbn [rows].
  rewrite lookup_map.
  destruct (rows m !! i) as [r|]; [|reflexivity].
  cbn. rewrite lookup_map. destruct (r !! j); reflexivity.
Qed.

Lemma take_columns_entry {A} (a a' : matrix A) (idx : list nat) :
  mat_wf a -> Forall (fun j => j < ncols a) idx ->
  take_columns a idx = Ok a' ->
  forall i b j, idx !! b = Some j -> entry a' i b = entry a i j.
Proof.
  intros Hwf Hidx. unfold take_columns.
  destruct (forallb _ idx); [|discriminate].
  intros [= <-] i b j Hb. unfold entry. simpl. rewrite lookup_map.
  destruct (rows a !! i) as [r|] eqn:Hr; simpl; [|reflexivity].
  apply omap_lookup_valid; [|exact Hb].
  unfold mat_wf in Hwf. rewrite Forall_forall in Hwf.
  rewrite (Hwf r) by (eapply list_elem_of_lookup_2; eauto). exact Hidx.
Qed.

Section PcaTheorems.
Variable np_cov : matrix f64 -> result (matrix f64).
Variable np_linalg_eig : matrix f64 -> result (eigvals * eigvecs).


End PcaTheorems.

Section Transposition.
Context {A : Type}.




End Transposition.

Section PcaModelTheorems.
Variable np_cov : matrix f64 -> result (matrix f64).
Variable np_linalg_eig : matrix f64 -> result (eigvals * eigvecs).
Context {blas : Dot f64}.

Lemma first_columns_wf (R : matrix f64) (k : nat) :
  mat_wf R -> mat_wf (first_columns R k).
Proof.
  unfold mat_wf, first_columns. simpl. rewrite !Forall_forall.
  intros Hwf r' Hr'. apply list_elem_of_fmap in Hr' as [r [-> Hr]].
  rewrite length_take, (Hwf r Hr). reflexivity.
Qed.


End PcaModelTheorems.

(* ===================================================================== *)
(** * Properties of binary64 rounding *)
(* ===================================================================== *)

Section Rounding.
Open Scope Z_scope.

(** The number of binary digits of a mantissa. *)
Lemma digits2_size (p : positive) : digits2_pos p = Pos.size p.
Proof. induction p as [p IH|p IH|]; simpl; congruence. Qed.

Lemma Zdigits2_nonneg (m : Z) : 0 <= Zdigits2 m.
Proof. destruct m; simpl; lia. Qed.

Lemma Zdigits2_gt (m : Z) : 0 <= m -> m < 2 ^ Zdigits2 m.
Proof.
  destruct m as [|p|p]; simpl; intros Hm; [lia| |lia].
  rewrite digits2_size, <- (Pos2Z.inj_pow 2 (Pos.size p)).
  apply Pos2Z.pos_lt_pos, Pos.size_gt.
Qed.

Lemma Zdigits2_le (m : Z) : 0 < m -> 2 ^ (Zdigits2 m - 1) <= m.
Proof.
  destruct m as [|p|p]; simpl; intros Hm; [lia| |lia].
  rewrite digits2_size.
  pose proof (Pos.size_le p) as Hp.
  apply Pos2Z.pos_le_pos in Hp. rewrite Pos2Z.inj_pow in Hp.
  change (Z.pos p~0) with (2 * Z.pos p) in Hp.
  replace (Z.pos (Pos.size p)) with (Z.succ (Z.pos (Pos.size p) - 1)) in Hp
    by lia.
  rewrite Z.pow_succ_r in Hp by lia. lia.
Qed.

Lemma Zdigits2_bound (m k : Z) : 0 <= m -> 0 <= k -> m < 2 ^ k -> Zdigits2 m <= k.
Proof.
  intros Hm Hk Hlt. destruct (Z.eq_dec m 0) as [->|Hne]; [simpl; lia|].
  pose proof (Zdigits2_le m ltac:(lia)) as Hle.
  destruct (Z.le_gt_cases (Zdigits2 m) k) as [|Hgt]; [assumption|].
  assert (2 ^ k <= 2 ^ (Zdigits2 m - 1)) by (apply Z.pow_le_mono_r; lia).
  lia.
Qed.

Lemma shr_1_m (r : shr_record) :
  0 <= shr_m r -> shr_m (shr_1 r) = shr_m r / 2.
Proof.
  intros Hm. rewrite <- Z.div2_div.
  destruct r as [m r s]. simpl in *.
  destruct m as [|[p|p|]|p]; try reflexivity; lia.
Qed.

Lemma pow2_xI (n : positive) : 2 ^ Zpos n~1 = 2 * (2 ^ Zpos n * 2 ^ Zpos n).
Proof.
  change (Zpos n~1) with (Z.succ (2 * Zpos n)).
  rewrite Z.pow_succ_r, Z.pow_twice_r by lia. reflexivity.
Qed.

Lemma pow2_xO (n : positive) : 2 ^ Zpos n~0 = 2 ^ Zpos n * 2 ^ Zpos n.
Proof. change (Zpos n~0) with (2 * Zpos n). apply Z.pow_twice_r. Qed.

Lemma iter_shr_1_m (n : positive) :
  forall r, 0 <= shr_m r ->
  shr_m (SpecFloat.iter_pos shr_1 n r) = shr_m r / 2 ^ Zpos n.
Proof.
  assert (Hpos : forall k : positive, 0 < 2 ^ Zpos k)
    by (intros k; apply Z.pow_pos_nonneg; lia).
  induction n as [n IH|n IH|]; intros r Hr; simpl SpecFloat.iter_pos.
  - pose proof (Hpos n).
    assert (H1 : 0 <= shr_m (shr_1 r)).
    { rewrite shr_1_m by assumption. apply Z.div_pos; lia. }
    assert (H2 : 0 <= shr_m (SpecFloat.iter_pos shr_1 n (shr_1 r))).
    { rewrite IH by assumption. apply Z.div_pos; lia. }
    rewrite IH, IH, shr_1_m by assumption.
    rewrite !Z.div_div by lia. rewrite pow2_xI. reflexivity.
  - pose proof (Hpos n).
    assert (H2 : 0 <= shr_m (SpecFloat.iter_pos shr_1 n r)).
    { rewrite IH by assumption. apply Z.div_pos; lia. }
    rewrite IH, IH by assumption.
    rewrite !Z.div_div by lia. rewrite pow2_xO. reflexivity.
  - rewrite shr_1_m by assumption. reflexivity.
Qed.

(** A right shift by [n] digits, none for [n <= 0]. *)
Lemma shr_spec (r : shr_record) (e n : Z) :
  0 <= shr_m r ->
  shr_m (fst (shr r e n)) = shr_m r / 2 ^ Z.max n 0 /\
  snd (shr r e n) = e + Z.max n 0.
Proof.
  intros Hr. destruct n as [|p|p]; simpl.
  - rewrite Z.div_1_r. lia.
  - rewrite iter_shr_1_m by assumption. split; [reflexivity | lia].
  - rewrite Z.div_1_r. lia.
Qed.

Lemma shr_record_of_loc_m (m : Z) (l : location) :
  shr_m (shr_record_of_loc m l) = m.
Proof. destruct l as [|[]]; reflexivity. Qed.

Lemma shr_fexp_spec (m e : Z) (l : location) :
  0 <= m ->
  shr_m (fst (shr_fexp 53 1024 m e l)) = m / 2 ^ dropped m e /\
  snd (shr_fexp 53 1024 m e l) = e + dropped m e.
Proof.
  intros Hm. unfold shr_fexp, dropped.
  pose proof (shr_spec (shr_record_of_loc m l) e
                (fexp 53 1024 (Zdigits2 m + e) - e)) as Hs.
  rewrite shr_record_of_loc_m in Hs. apply Hs. exact Hm.
Qed.

Lemma dropped_range (m e : Z) :
  0 <= dropped m e /\
  e + dropped m e = Z.max e (Z.max (Zdigits2 m + e - 53) (-1074)).
Proof.
  unfold dropped, fexp, emin. lia.
Qed.

Lemma round_nearest_even_range (m : Z) (l : location) :
  m <= round_nearest_even m l <= m + 1.
Proof. destruct l as [|[]]; simpl; try destruct (Z.even m); lia. Qed.

Lemma shifted_positive (m n : Z) :
  0 < m -> 0 <= n <= Zdigits2 m - 1 -> 0 < m / 2 ^ n.
Proof.
  intros Hm Hn. pose proof (Zdigits2_le m Hm) as Hle.
  assert (2 ^ n <= 2 ^ (Zdigits2 m - 1)) by (apply Z.pow_le_mono_r; lia).
  assert (0 < 2 ^ n) by (apply Z.pow_pos_nonneg; lia).
  apply Z.div_str_pos. lia.
Qed.

Lemma shifted_digits (m n : Z) :
  0 <= m -> 0 <= n ->
  0 <= m / 2 ^ n /\ Zdigits2 (m / 2 ^ n) <= Z.max (Zdigits2 m - n) 0.
Proof.
  intros Hm Hn.
  assert (Hp : 0 < 2 ^ n) by (apply Z.pow_pos_nonneg; lia).
  assert (Hq : 0 <= m / 2 ^ n) by (apply Z.div_pos; lia).
  split; [exact Hq|].
  apply Zdigits2_bound; [exact Hq | lia |].
  apply Z.div_lt_upper_bound; [exact Hp|].
  rewrite <- Z.pow_add_r by lia.
  pose proof (Zdigits2_gt m Hm) as Hgt. pose proof (Zdigits2_nonneg m).
  assert (2 ^ Zdigits2 m <= 2 ^ (n + Z.max (Zdigits2 m - n) 0))
    by (apply Z.pow_le_mono_r; lia).
  lia.
Qed.

Lemma succ_digits (m m' : Z) :
  0 <= m -> m <= m' <= m + 1 -> Zdigits2 m' <= Zdigits2 m + 1.
Proof.
  intros Hm Hm'. pose proof (Zdigits2_nonneg m).
  apply Zdigits2_bound; [lia | lia |].
  pose proof (Zdigits2_gt m Hm).
  rewrite Z.pow_add_r, Z.pow_1_r by lia. lia.
Qed.

(** Rounding a positive mantissa never gives a zero or a NaN, and never
    lowers the exponent. *)
Lemma binary_round_aux_positive (sx : bool) (m e : Z) (l : location) :
  0 < m -> -1074 <= e ->
  binary_round_aux 53 1024 sx m e l = S754_infinity sx \/
  exists m' e', binary_round_aux 53 1024 sx m e l = S754_finite sx m' e' /\
                e <= e'.
Proof.
  intros Hm He. unfold binary_round_aux.
  destruct (shr_fexp_spec m e l ltac:(lia)) as [Hm1 He1].
  destruct (shr_fexp 53 1024 m e l) as [r1 e1]. simpl in Hm1, He1.
  destruct (dropped_range m e) as [Hd1 Hd1'].
  pose proof (Zdigits2_le m Hm). pose proof (Zdigits2_gt m ltac:(lia)).
  assert (Hdm : 1 <= Zdigits2 m).
  { destruct m; simpl in *; lia. }
  assert (Hpos1 : 0 < shr_m r1).
  { rewrite Hm1. apply shifted_positive; [exact Hm|]. lia. }
  pose proof (round_nearest_even_range (shr_m r1) (loc_of_shr_record r1))
    as Hround.
  set (m1 := round_nearest_even (shr_m r1) (loc_of_shr_record r1)) in *.
  destruct (shr_fexp_spec m1 e1 loc_Exact ltac:(lia)) as [Hm2 He2].
  destruct (shr_fexp 53 1024 m1 e1 loc_Exact) as [r2 e2]. simpl in Hm2, He2.
  destruct (dropped_range m1 e1) as [Hd2 Hd2'].
  assert (Hdm1 : 1 <= Zdigits2 m1).
  { destruct m1; simpl in *; lia. }
  assert (Hpos2 : 0 < shr_m r2).
  { rewrite Hm2. apply shifted_positive; [lia|]. lia. }
  destruct (shr_m r2) as [|p|p] eqn:Hr2; [lia| |lia].
  destruct (e2 <=? 1024 - 53); [right | left; reflexivity].
  exists p, e2. split; [reflexivity | lia].
Qed.

(** Rounding a mantissa whose value is below [2 ** 1023] gives a zero or a
    finite number. *)
Lemma binary_round_aux_bounded (sx : bool) (m e : Z) (l : location) :
  0 <= m -> e <= 970 -> Zdigits2 m + e <= 1023 ->
  (exists s, binary_round_aux 53 1024 sx m e l = S754_zero s) \/
  (exists s m' e', binary_round_aux 53 1024 sx m e l = S754_finite s m' e').
Proof.
  intros Hm He Hde. unfold binary_round_aux.
  destruct (shr_fexp_spec m e l Hm) as [Hm1 He1].
  destruct (shr_fexp 53 1024 m e l) as [r1 e1]. simpl in Hm1, He1.
  destruct (dropped_range m e) as [Hd1 Hd1'].
  destruct (shifted_digits m (dropped m e) Hm Hd1) as [Hq1 Hdig1].
  rewrite <- Hm1 in Hq1, Hdig1.
  pose proof (round_nearest_even_range (shr_m r1) (loc_of_shr_record r1))
    as Hround.
  set (m1 := round_nearest_even (shr_m r1) (loc_of_shr_record r1)) in *.
  pose proof (succ_digits (shr_m r1) m1 Hq1 Hround) as Hdig1'.
  destruct (shr_fexp_spec m1 e1 loc_Exact ltac:(lia)) as [Hm2 He2].
  destruct (shr_fexp 53 1024 m1 e1 loc_Exact) as [r2 e2]. simpl in Hm2, He2.
  destruct (dropped_range m1 e1) as [Hd2 Hd2'].
  destruct (shifted_digits m1 (dropped m1 e1) ltac:(lia) Hd2) as [Hq2 _].
  rewrite <- Hm2 in Hq2.
  destruct (shr_m r2) as [|p|p] eqn:Hr2; [left; eexists; reflexivity| |lia].
  right. assert (Hle : (e2 <=? 1024 - 53) = true) by (apply Z.leb_le; lia).
  rewrite Hle. eexists _, _, _. reflexivity.
Qed.

(** A positive integer converts to a number that is at least one. *)
Lemma f64_of_int_positive (p : positive) :
  f64_of_int (Zpos p) = S754_infinity false \/
  exists m e, f64_of_int (Zpos p) = S754_finite false m e /\ -52 <= e.
Proof.
  unfold f64_of_int, binary_normalize, binary_round.
  assert (Hf : -52 <= fexp 53 1024 (Z.pos (digits2_pos p) + 0)).
  { unfold fexp, emin. lia. }
  unfold shl_align.
  destruct (fexp 53 1024 (Z.pos (digits2_pos p) + 0) - 0) as [|d|d] eqn:Hd.
  - destruct (binary_round_aux_positive false (Zpos p) 0 loc_Exact)
      as [Hinf | (m & e & Heq & He)]; try lia; [left; exact Hinf|].
    right. exists m, e. split; [exact Heq | lia].
  - destruct (binary_round_aux_positive false (Zpos p) 0 loc_Exact)
      as [Hinf | (m & e & Heq & He)]; try lia; [left; exact Hinf|].
    right. exists m, e. split; [exact Heq | lia].
  - destruct (binary_round_aux_positive false (Zpos (Pos.iter xO p d))
                (fexp 53 1024 (Z.pos (digits2_pos p) + 0)) loc_Exact)
      as [Hinf | (m & e & Heq & He)]; try lia; [left; exact Hinf|].
    right. exists m, e. split; [exact Heq | lia].
Qed.

(** [1.0 / d] is a zero or a finite number when [d] is at least [2 ** -52]. *)
Lemma f64_one_div_finite (my : positive) (ey : Z) :
  -52 <= ey ->
  (exists s, f64_div f64_one (S754_finite false my ey) = S754_zero s) \/
  (exists s m e, f64_div f64_one (S754_finite false my ey)
                 = S754_finite s m e).
Proof.
  intros Hey. unfold f64_div, f64_one, SFdiv, SFdiv_core_binary.
  change (Zdigits2 4503599627370496) with 53.
  set (e' := Z.min (fexp 53 1024 (53 + -52 - (Zdigits2 (Z.pos my) + ey)))
                   (-52 - ey)).
  set (s := -52 - ey - e').
  set (m' := match s with
             | 0 => 4503599627370496
             | Z.pos _ => Z.shiftl 4503599627370496 s
             | Z.neg _ => 0
             end).
  assert (Hs : 0 <= s) by (unfold s, e'; lia).
  assert (Hm' : 0 <= m' < 2 ^ (53 + s)).
  { unfold m'. destruct s as [|ps|ps] eqn:Es; [simpl; lia| |lia].
    rewrite Z.shiftl_mul_pow2 by lia.
    rewrite Z.pow_add_r by lia.
    assert (0 < 2 ^ Z.pos ps) by (apply Z.pow_pos_nonneg; lia).
    change (2 ^ 53) with 9007199254740992. nia. }
  pose proof (Z_div_mod m' (Zpos my) ltac:(lia)) as Hdiv.
  destruct (Z.div_eucl m' (Z.pos my)) as [q r].
  destruct Hdiv as [Hqr Hr].
  assert (Hq : 0 <= q <= m') by nia.
  apply binary_round_aux_bounded; [lia | unfold e'; lia |].
  assert (Zdigits2 q <= 53 + s) by (apply Zdigits2_bound; lia).
  unfold s in *. lia.
Qed.

End Rounding.

(* ===================================================================== *)
(** * Properties of get_trends *)
(* ===================================================================== *)

Section TrendsLemmas.

Lemma zip_with_map_same {A B C D} (f : B -> C -> D) (g : A -> B)
    (g' : A -> C) (l : list A) :
  zip_with f (map g l) (map g' l) = map (fun x => f (g x) (g' x)) l.
Proof. induction l as [|x l IH]; simpl; [reflexivity | rewrite IH; reflexivity]. Qed.

Lemma column_value_ok (n : nat) (v : list f64) :
  length v = n -> column_value n v = Ok v.
Proof.
  intros Hn. unfold column_value.
  destruct (decide (length v = n)); [reflexivity | contradiction].
Qed.

Lemma trend_size_clamp (size : Z) (n : nat) :
  Z.of_nat (trend_size size n) = Z.max 1 (Z.min size (Z.of_nat n / 2)).
Proof. unfold trend_size. lia. Qed.

Lemma trend_size_range (size : Z) (n : nat) :
  2 <= n -> 1 <= trend_size size n <= n / 2.
Proof.
  intros Hn. pose proof (trend_size_clamp size n) as Hk.
  assert (Hdiv : Z.of_nat (n / 2) = (Z.of_nat n / 2)%Z)
    by (rewrite Nat2Z.inj_div; reflexivity).
  assert (1 <= Z.of_nat n / 2)%Z by (apply Z.div_le_lower_bound; lia).
  lia.
Qed.

Lemma np_linspace_length (start stop : f64) (num : nat) :
  length (np_linspace start stop num) = num.
Proof.
  unfold np_linspace.
  destruct (decide (1 < num)); [rewrite length_insert|];
    rewrite length_map;
    (destruct (decide (0 < num - 1));
     [destruct (f64_eqb _ f64_zero)|]);
    rewrite !length_map, length_seq; reflexivity.
Qed.

Lemma np_linspace_last (start stop : f64) (num : nat) :
  2 <= num -> np_linspace start stop num !! (num - 1) = Some stop.
Proof.
  intros Hn. pose proof (np_linspace_length start stop num) as Hlen.
  unfold np_linspace in *.
  destruct (decide (1 < num)); [|lia].
  apply list_lookup_insert_eq. rewrite length_insert in Hlen. lia.
Qed.

Lemma np_linspace_one (start stop : f64) :
  np_linspace start stop 1
  = [f64_add (f64_mul (f64_of_int 0) (f64_sub stop start)) start].
Proof. reflexivity. Qed.

(** For two points or more, [np.linspace(-0.5, 0.5, num)] starts at
    [-0.5]: [0 * step] is a zero whatever the step is. *)
Lemma np_linspace_first (num : nat) :
  2 <= num ->
  np_linspace f64_neg_half f64_half num !! 0 = Some f64_neg_half.
Proof.
  intros Hn. unfold np_linspace.
  destruct (decide (1 < num)) as [_|]; [|lia].
  rewrite list_lookup_insert_ne by lia.
  destruct (decide (0 < num - 1)) as [_|]; [|lia].
  assert (Hp : exists p, Z.of_nat (num - 1) = Zpos p).
  { destruct (Z.of_nat (num - 1)) eqn:E; try lia. eauto. }
  destruct Hp as [p ->].
  change (f64_sub f64_half f64_neg_half) with f64_one.
  assert (Hseq : seq 0 num !! 0 = Some 0).
  { destruct num; [lia | reflexivity]. }
  destruct (f64_of_int_positive p) as [-> | (m & e & -> & He)].
  - cbn [f64_div SFdiv f64_one xorb f64_eqb SFeqb SFcompare f64_zero].
    rewrite !lookup_map, Hseq. reflexivity.
  - destruct (f64_one_div_finite m e He) as [[s ->] | (s & m' & e' & ->)].
    + replace (f64_eqb (S754_zero s) f64_zero) with true
        by (destruct s; reflexivity).
      rewrite !lookup_map, Hseq. reflexivity.
    + replace (f64_eqb (S754_finite s m' e') f64_zero) with false
        by (destruct s; reflexivity).
      rewrite !lookup_map, Hseq. reflexivity.
Qed.

End TrendsLemmas.

Section TrendsTheorem.
Context {blas : Dot f64}.
Variable np_mean : list f64 -> f64.

Lemma trend_shapes (S : matrix f64) (k dets samps : nat) :
  mat_wf S -> nrows S = dets -> ncols S = samps ->
  shapes_agree dets S (trend_modes samps) (trend_weights np_mean k S).
Proof.
  intros Hwf Hr Hc. unfold shapes_agree. repeat split.
  - exact Hwf.
  - unfold mat_wf, trend_weights. simpl. rewrite Forall_forall.
    intros r Hr'. apply list_elem_of_fmap in Hr' as [si [-> _]]. reflexivity.
  - lia.
  - unfold nrows, trend_weights. simpl. rewrite length_map.
    unfold nrows in Hr. lia.
  - exact Hc.
Qed.

(** C8, as amended.  For a signal of shape [(dets, samps)] with at least
    one sample, [get_trends] returns, whatever [remove] is, a model with two
    modes: mode 0 is all ones, mode 1 is [np.linspace(-0.5, 0.5, samps)];
    weight 0 of a detector is the mean of its row, weight 1 the mean of its
    last [k] samples minus the mean of its first [k], where
    [k = max(1, min(size, samps // 2))] and the means are those
    [signal.mean(axis=1)] computes.  With [remove] the store is the one
    [add_model] with [scale = -1] leaves for this model and signal.  With
    two samples or more, [k] lies in [[1, samps // 2]] and mode 1 starts at
    [-0.5] and ends at [+0.5]; with a single sample, [k = 1] and mode 1 is
    the single value [-0.5]. *)
Theorem get_trends_model (tod : option (AxisManager f64)) (remove : bool)
    (size : Z) (signal : option loc) (h : store f64) (s : loc)
    (S : matrix f64) (dets samps : nat) :
  default_attr signal tod "signal" = Ok s -> h !! s = Some S ->
  axis_count tod "dets" = Ok dets -> axis_count tod "samps" = Ok samps ->
  mat_wf S -> nrows S = dets -> ncols S = samps -> 1 <= samps ->
  let k := trend_size size samps in
  let Mo := trend_modes samps in
  let W := trend_weights np_mean k S in
  let mo := fresh (dom h) in
  let we := fresh (dom (<[mo := Mo]> h)) in
  let h2 := <[we := W]> (<[mo := Mo]> h) in
  let trends :=
    {| axes := list_to_map [("dets", dets); ("eigen", 2); ("samps", samps)];
       fields := <["weights" := we]> (<["modes" := mo]> ∅);
       fields1 := ∅ |} in
  get_trends np_mean tod remove size signal h
  = (Ok trends,
     if remove then <[s := accumulated (of_int (-1)) W Mo S 0 dets]> h2
     else h2) /\
  (forall i si, rows S !! i = Some si ->
     rows W !! i = Some [np_mean si;
                         f64_sub (np_mean (drop (length si - k) si))
                                 (np_mean (take k si))]) /\
  rows Mo = [replicate samps f64_one;
             np_linspace f64_neg_half f64_half samps] /\
  add_model tod (Some trends) (of_int (-1)) (Some s) None None h2
  = (Ok s, <[s := accumulated (of_int (-1)) W Mo S 0 dets]> h2) /\
  Z.of_nat k = Z.max 1 (Z.min size (Z.of_nat samps / 2)) /\
  length (np_linspace f64_neg_half f64_half samps) = samps /\
  (2 <= samps ->
   1 <= k <= samps / 2 /\
   np_linspace f64_neg_half f64_half samps !! 0 = Some f64_neg_half /\
   np_linspace f64_neg_half f64_half samps !! (samps - 1) = Some f64_half) /\
  (samps = 1 ->
   k = 1 /\ np_linspace f64_neg_half f64_half samps = [f64_neg_half]).
Proof.
  intros Hs HS Hdets Hsamps Hwf HrS HcS Hpos k Mo W mo we h2 trends.
  assert (Hmo : h !! mo = None) by apply fresh_loc_unused.
  assert (Hwe : (<[mo := Mo]> h) !! we = None) by apply fresh_loc_unused.
  assert (Hsmo : s <> mo) by (intros ->; congruence).
  assert (Hswe : s <> we).
  { intros ->. rewrite lookup_insert_ne in Hwe by congruence. congruence. }
  assert (Hmowe : mo <> we).
  { intros E. rewrite <- E, lookup_insert_eq in Hwe. discriminate. }
  assert (Hadd : add_model tod (Some trends) (of_int (-1)) (Some s) None None
                   h2
                 = (Ok s, <[s := accumulated (of_int (-1)) W Mo S 0 dets]> h2)).
  { apply (add_model_ok tod (Some trends) (of_int (-1)) (Some s) None None
             h2 s mo we dets S Mo W); try reflexivity; try assumption.
    - unfold h2. rewrite !lookup_insert_ne by congruence. exact HS.
    - unfold h2. rewrite lookup_insert_ne by congruence.
      apply lookup_insert_eq.
    - apply lookup_insert_eq.
    - apply trend_shapes; assumption. }
  split; [|split; [|split; [reflexivity|]; split; [exact Hadd|]]].
  - unfold get_trends.
    rewrite (bind_ok _ _ _ _ _ (lift_ok _ _ _ Hs)).
    rewrite (bind_ok _ _ _ _ _ (lift_ok _ _ _ Hdets)).
    rewrite (bind_ok _ _ _ _ _ (lift_ok _ _ _ Hsamps)). cbv zeta.
    rewrite (bind_ok _ _ _ _ _ (read_ok _ _ _ HS)).
    erewrite bind_ok;
      [|apply lift_ok, column_value_ok; rewrite length_map; exact HrS].
    erewrite bind_ok;
      [|apply lift_ok, column_value_ok; rewrite length_map; exact HrS].
    rewrite zip_with_map_same, HcS.
    rewrite (bind_ok _ _ _ _ _ (alloc_ok _ _)).
    rewrite (bind_ok _ _ _ _ _ (alloc_ok _ _)).
    change (setitem (np_ones 2 samps) 1
              (np_linspace f64_neg_half f64_half (ncols (np_ones 2 samps))))
      with Mo.
    fold k. fold (trend_weights np_mean k S). fold W. fold mo. fold we.
    fold h2. destruct remove.
    + erewrite bind_ok; [reflexivity|].
      erewrite bind_ok; [reflexivity|]. exact Hadd.
    + reflexivity.
  - intros i si Hsi. unfold W, trend_weights. cbn [rows].
    rewrite lookup_map, Hsi. reflexivity.
  - split; [apply trend_size_clamp|].
    split; [apply np_linspace_length|].
    split.
    + intros H2. split; [apply trend_size_range; exact H2|].
      split; [apply np_linspace_first | apply np_linspace_last]; exact H2.
    + intros ->. split; [|reflexivity].
      unfold k, trend_size. change (Z.of_nat 1 / 2)%Z with 0%Z. lia.
Qed.

End TrendsTheorem.

Section Float64Examples.
(** The examples multiply small integers or operands of one term, and take
    means of few samples. *)
#[local] Existing Instance dot_in_order.



Lemma get_trends_model_witness :
  trend_size 100 10 = 5 /\
  fst (get_trends mean_in_order (Some tod_ramp) true 100 None store_ramp)
  = Ok {| axes := list_to_map [("dets", 1); ("eigen", 2); ("samps", 10)];
          fields := <["weights" := 2]> (<["modes" := 1]> ∅);
          fields1 := ∅ |} /\
  np_linspace f64_neg_half f64_half 10 !! 0 = Some f64_neg_half /\
  np_linspace f64_neg_half f64_half 10 !! 9 = Some f64_half.
Proof.
  assert (Hwf : mat_wf signal_ramp) by (repeat constructor).
  destruct (get_trends_model mean_in_order (Some tod_ramp) true 100 None
              store_ramp 0 signal_ramp 1 10 eq_refl eq_refl eq_refl eq_refl
              Hwf eq_refl eq_refl ltac:(lia))
    as (Hrun & _ & _ & _ & Hk & _ & H2 & _).
  split; [|split; [|split]].
  - apply Nat2Z.inj. rewrite Hk. reflexivity.
  - rewrite Hrun. reflexivity.
  - apply H2. lia.
  - apply H2. lia.
Defined.

(** C8 as stated fails for a signal of one sample: mode 1 is the single
    value [-0.5] and never reaches [+0.5], and the window is 1, above
    [floor(1 / 2) = 0]. *)
Lemma get_trends_single_sample :
  let r := get_trends mean_in_order (Some tod_1x1) false 1 None
                      store_single in
  fst r = Ok {| axes := list_to_map [("dets", 1); ("eigen", 2); ("samps", 1)];
                fields := <["weights" := 2]> (<["modes" := 1]> ∅);
                fields1 := ∅ |} /\
  row_of (snd r) 1 1 = Some [f64_neg_half] /\
  last [f64_neg_half] <> Some f64_half /\
  trend_size 1 1 = 1 /\
  ~ (1 <= trend_size 1 1 <= 1 / 2).
Proof.
  vm_compute. repeat split; try reflexivity.
  - intros E. discriminate E.
  - intros [_ E]. inversion E.
Qed.

End Float64Examples.

(* ===================================================================== *)
(** * Further properties of the registry (core.py) *)
(* ===================================================================== *)
Section RegistryProperties.
Implicit Types (pipeline : gmap string pyobj) (calls : list (string * pyobj)).

Lemma register_other name name' cls pipeline :
  name <> name' -> register name cls pipeline !! name' = pipeline !! name'.
Proof.
  intros Hne. unfold register.
  destruct (is_None (dict_get pipeline name)); [|reflexivity].
  apply lookup_insert_ne. exact Hne.
Qed.

Lemma register_keeps name cls pipeline name' v :
  pipeline !! name' = Some v -> v <> PyNone ->
  register name cls pipeline !! name' = Some v.
Proof.
  intros Hv Hnn. destruct (decide (name = name')) as [->|Hne].
  - unfold register. rewrite (dict_get_set _ _ _ Hv Hnn). exact Hv.
  - rewrite register_other by exact Hne. exact Hv.
Qed.

Lemma register_free name cls pipeline :
  is_None (dict_get pipeline name) = true ->
  register name cls pipeline !! name = Some cls.
Proof. intros Hfree. unfold register. rewrite Hfree. apply lookup_insert_eq. Qed.

Lemma register_all_keeps calls : forall pipeline name v,
  pipeline !! name = Some v -> v <> PyNone ->
  register_all calls pipeline !! name = Some v.
Proof.
  induction calls as [|[n c] calls IH]; intros pipeline name v Hv Hnn;
    [exact Hv|].
  simpl. apply IH; [|exact Hnn]. apply register_keeps; assumption.
Qed.

Lemma register_all_still_free calls : forall pipeline name,
  is_None (dict_get pipeline name) = true ->
  (forall c, (name, c) ∈ calls -> c = PyNone) ->
  is_None (dict_get (register_all calls pipeline) name) = true.
Proof.
  induction calls as [|[n c] calls IH]; intros pipeline name Hfree Hall;
    [exact Hfree|].
  simpl. apply IH.
  - destruct (decide (n = name)) as [->|Hne].
    + unfold dict_get. rewrite (register_free _ _ _ Hfree).
      rewrite (Hall c) by (left). reflexivity.
    + unfold dict_get in *. rewrite register_other by exact Hne. exact Hfree.
  - intros c' Hc'. apply Hall. right. exact Hc'.
Qed.

(** X1.  Over a whole sequence of registrations the first implementation
    wins: when [name] is free (or bound to [None]) at the start and [A] is
    the first object other than [None] registered under [name], the
    registry resolves [name] to [A] at the end, whatever is registered
    before and after it. *)
Theorem register_all_first_wins pre post name A pipeline :
  is_None (dict_get pipeline name) = true ->
  A <> PyNone ->
  (forall c, (name, c) ∈ pre -> c = PyNone) ->
  register_all (pre ++ (name, A) :: post) pipeline !! name = Some A.
Proof.
  intros Hfree HA Hpre. unfold register_all. rewrite foldl_app. simpl.
  apply register_all_keeps; [|exact HA].
  apply register_free. apply register_all_still_free; assumption.
Qed.

(** X2.  The registry only grows: whatever calls follow, a name that
    resolves to an object other than [None] keeps resolving to it, a name
    no call mentions keeps what it had, and no name leaves the registry. *)
Theorem register_all_grows calls pipeline :
  (forall name v, pipeline !! name = Some v -> v <> PyNone ->
     register_all calls pipeline !! name = Some v) /\
  (forall name, name ∉ map fst calls ->
     register_all calls pipeline !! name = pipeline !! name) /\
  dom pipeline ⊆ dom (register_all calls pipeline).
Proof.
  revert pipeline. induction calls as [|[n c] calls IH]; intros pipeline.
  - repeat split; auto.
  - destruct (IH (register n c pipeline)) as (IH1 & IH2 & IH3).
    split; [|split].
    + intros name v Hv Hnn. simpl. apply IH1; [|exact Hnn].
      apply register_keeps; assumption.
    + intros name Hname. simpl in *.
      apply not_elem_of_cons in Hname as [Hne Hname].
      rewrite IH2 by exact Hname. apply register_other. congruence.
    + simpl. etransitivity; [|exact IH3].
      unfold register. destruct (is_None (dict_get pipeline n));
        [|reflexivity].
      rewrite dom_insert_L. apply union_subseteq_r.
Qed.

(** X3.  Registrations under different names commute. *)
Theorem register_commute name name' A B pipeline :
  name <> name' ->
  register name A (register name' B pipeline)
  = register name' B (register name A pipeline).
Proof.
  intros Hne. apply map_eq. intros k.
  assert (H1 : dict_get (register name' B pipeline) name
               = dict_get pipeline name).
  { unfold dict_get. rewrite register_other by congruence. reflexivity. }
  assert (H2 : dict_get (register name A pipeline) name'
               = dict_get pipeline name').
  { unfold dict_get. rewrite register_other by congruence. reflexivity. }
  unfold register at 1 3. rewrite H1, H2. unfold register.
  destruct (is_None (dict_get pipeline name)),
           (is_None (dict_get pipeline name')); try reflexivity.
  rewrite insert_insert_ne by congruence. reflexivity.
Qed.

End RegistryProperties.

Lemma register_all_first_wins_witness :
  register_all calls_example PIPELINE !! "trends" = Some (PyClass 2).
Proof.
  apply (register_all_first_wins
           [("trends", PyNone); ("pca", PyClass 1)]
           [("trends", PyClass 3); ("pca", PyClass 4)]
           "trends" (PyClass 2) PIPELINE).
  - reflexivity.
  - discriminate.
  - intros c Hc.
    apply elem_of_cons in Hc as [Hc | Hc]; [congruence|].
    apply elem_of_cons in Hc as [Hc | Hc]; [discriminate|].
    apply elem_of_nil in Hc. destruct Hc.
Defined.

Lemma register_all_grows_witness :
  register_all calls_example (<["pca" := PyClass 7]> PIPELINE) !! "pca"
  = Some (PyClass 7).
Proof.
  apply (register_all_grows calls_example (<["pca" := PyClass 7]> PIPELINE)).
  - reflexivity.
  - discriminate.
Defined.

Lemma register_commute_witness :
  register "pca" (PyClass 1) (register "trends" (PyClass 2) PIPELINE)
  = register "trends" (PyClass 2) (register "pca" (PyClass 1) PIPELINE).
Proof. apply register_commute. discriminate. Defined.

(* ===================================================================== *)
(** * Further properties of add_model: frame, errors and edge cases *)
(* ===================================================================== *)
Section AddModelEdges.
Context {F : Type} `{Dtype F} `{Dot F}.
Implicit Types (h : store F) (s m w : loc) (S M W : matrix F).

Lemma iadd_length (r v r' : list F) : iadd r v = Ok r' -> length r' = length r.
Proof.
  unfold iadd. destruct (decide (length v = length r)) as [Hlen|_].
  - intros [= <-]. rewrite length_zip_with. lia.
  - destruct v as [|x [|y v]]; intros [= <-]. apply length_map.
Qed.

Lemma shape_setitem S i (r r' : list F) :
  rows S !! i = Some r -> length r' = length r ->
  shape (setitem S i r') = shape S.
Proof.
  intros Hr Hlen. unfold shape, setitem. simpl. f_equal.
  apply list_eq. intros j. rewrite !lookup_map.
  destruct (decide (i = j)) as [<-|Hij].
  - rewrite list_lookup_insert_eq by (eapply lookup_lt_Some; eauto).
    rewrite Hr. simpl. congruence.
  - rewrite list_lookup_insert_ne by exact Hij. reflexivity.
Qed.

Lemma add_model_row_shape scale s m w i h l :
  shape <$> snd (add_model_row scale s m w i h) !! l = shape <$> h !! l.
Proof.
  unfold add_model_row. py_unfold.
  destruct (h !! w) as [W|]; simpl; [|reflexivity].
  unfold getitem. destruct (rows W !! i) as [wi|]; simpl; [|reflexivity].
  destruct (np_all_eq0 wi); simpl; [reflexivity|].
  destruct (h !! s) as [S|] eqn:HS; simpl; [|reflexivity].
  destruct (rows S !! i) as [si|] eqn:Hsi; simpl; [|reflexivity].
  destruct (h !! m) as [M|]; simpl; [|reflexivity].
  destruct (np_dot_vm (scale_vec wi scale) M) as [v|e]; simpl;
    [|reflexivity].
  destruct (iadd si v) as [si'|e] eqn:Hadd; simpl; [|reflexivity].
  destruct (decide (l = s)) as [->|Hl].
  - rewrite lookup_insert_eq, HS. simpl. f_equal.
    apply (shape_setitem S i si si' Hsi). eapply iadd_length; eauto.
  - rewrite lookup_insert_ne by congruence. reflexivity.
Qed.

Lemma add_model_loop_shape scale s m w range : forall h l,
  shape <$> snd (add_model_loop scale s m w range h) !! l = shape <$> h !! l.
Proof.
  induction range as [|i range IH]; intros h l; [reflexivity|].
  simpl. py_unfold.
  pose proof (add_model_row_shape scale s m w i h l) as Hrow.
  destruct (add_model_row scale s m w i h) as [[[]|e] h1]; simpl in *.
  - rewrite IH. exact Hrow.
  - exact Hrow.
Qed.

Lemma add_model_loop_other scale s m w range : forall h l,
  l <> s -> snd (add_model_loop scale s m w range h) !! l = h !! l.
Proof.
  induction range as [|i range IH]; intros h l Hl; [reflexivity|].
  simpl. py_unfold.
  pose proof (add_model_row_frame scale s m w i h) as (Hother & _).
  destruct (add_model_row scale s m w i h) as [[[]|e] h1]; simpl in *.
  - rewrite IH by exact Hl. apply Hother. exact Hl.
  - apply Hother. exact Hl.
Qed.

Lemma add_model_shape (tod model : option (AxisManager F)) (scale : F)
    (signal modes weights : option loc) h l :
  shape <$> snd (add_model tod model scale signal modes weights h) !! l
  = shape <$> h !! l.
Proof.
  unfold add_model. py_unfold.
  destruct (default_attr signal tod "signal") as [s|e]; simpl;
    [|reflexivity].
  destruct (default_attr modes model "modes") as [m|e]; simpl;
    [|reflexivity].
  destruct (default_attr weights model "weights") as [w|e]; simpl;
    [|reflexivity].
  destruct (axis_count model "dets") as [n|e]; simpl; [|reflexivity].
  pose proof (add_model_loop_shape scale s m w (seq 0 n) h l) as Hl.
  destruct (add_model_loop scale s m w (seq 0 n) h) as [[[]|e] h1];
    exact Hl.
Qed.

Lemma add_model_other (tod model : option (AxisManager F)) (scale : F)
    (signal modes weights : option loc) h s l :
  default_attr signal tod "signal" = Ok s -> l <> s ->
  snd (add_model tod model scale signal modes weights h) !! l = h !! l.
Proof.
  intros Hs Hl. unfold add_model. py_unfold. rewrite Hs. simpl.
  destruct (default_attr modes model "modes") as [m|e]; simpl;
    [|reflexivity].
  destruct (default_attr weights model "weights") as [w|e]; simpl;
    [|reflexivity].
  destruct (axis_count model "dets") as [n|e]; simpl; [|reflexivity].
  pose proof (add_model_loop_other scale s m w (seq 0 n) h l Hl) as Hl'.
  destruct (add_model_loop scale s m w (seq 0 n) h) as [[[]|e] h1];
    exact Hl'.
Qed.

Lemma same_shapes_same_dom (h h' : store F) :
  (forall l, shape <$> h' !! l = shape <$> h !! l) -> dom h' = dom h.
Proof.
  intros Hshape. apply set_eq. intros l. rewrite !elem_of_dom.
  specialize (Hshape l).
  destruct (h' !! l), (h !! l); simpl in Hshape; try discriminate;
    split; intros [x Hx]; try discriminate; eauto.
Qed.

(** X4.  Whatever its arguments and its outcome, [add_model] creates and
    deletes no array, keeps the shape of every array, the signal included,
    and writes to no array but the signal. *)
Theorem add_model_keeps_shapes (tod model : option (AxisManager F))
    (scale : F) (signal modes weights : option loc) h :
  let h' := snd (add_model tod model scale signal modes weights h) in
  (forall l, shape <$> h' !! l = shape <$> h !! l) /\
  dom h' = dom h /\
  (forall s, default_attr signal tod "signal" = Ok s ->
     forall l, l <> s -> h' !! l = h !! l).
Proof.
  split; [|split].
  - intros l. apply add_model_shape.
  - apply same_shapes_same_dom. intros l. apply add_model_shape.
  - intros s Hs l Hl. eapply add_model_other; eauto.
Qed.

Lemma add_model_loop_app scale s m w (r1 r2 : list nat) h :
  add_model_loop scale s m w (r1 ++ r2) h
  = match add_model_loop scale s m w r1 h with
    | (Ok _, h1) => add_model_loop scale s m w r2 h1
    | (Raise e, h1) => (Raise e, h1)
    end.
Proof.
  revert h. induction r1 as [|i r1 IH]; intros h; [reflexivity|].
  simpl. py_unfold.
  destruct (add_model_row scale s m w i h) as [[[]|e] h1]; [apply IH|].
  reflexivity.
Qed.

Lemma add_model_row_skip scale s m w i h W wi :
  h !! w = Some W -> rows W !! i = Some wi -> np_all_eq0 wi = true ->
  add_model_row scale s m w i h = (Ok tt, h).
Proof.
  intros HW Hwi Hz. unfold add_model_row. py_unfold. rewrite HW. simpl.
  unfold getitem. rewrite Hwi. simpl. rewrite Hz. reflexivity.
Qed.

Lemma add_model_loop_skip scale s m w h W (range : list nat) :
  h !! w = Some W ->
  (forall i, i ∈ range ->
     exists wi, rows W !! i = Some wi /\ np_all_eq0 wi = true) ->
  add_model_loop scale s m w range h = (Ok tt, h).
Proof.
  intros HW. induction range as [|i range IH]; intros Hall; [reflexivity|].
  simpl. py_unfold.
  destruct (Hall i ltac:(left)) as (wi & Hwi & Hz).
  rewrite (add_model_row_skip scale s m w i h W wi HW Hwi Hz).
  apply IH. intros j Hj. apply Hall. right. exact Hj.
Qed.

(** X5.  When the weights of all [dets] rows are zero, [add_model] returns
    the signal reference and leaves the store as it is without looking at
    the signal or the modes: arrays of the wrong shape, or the signal used
    as modes, pass unnoticed. *)
Theorem add_model_zero_weights (tod model : option (AxisManager F))
    (scale : F) (signal modes weights : option loc) h s m w n W :
  default_attr signal tod "signal" = Ok s ->
  default_attr modes model "modes" = Ok m ->
  default_attr weights model "weights" = Ok w ->
  axis_count model "dets" = Ok n ->
  h !! w = Some W ->
  (forall i, i < n ->
     exists wi, rows W !! i = Some wi /\ np_all_eq0 wi = true) ->
  add_model tod model scale signal modes weights h = (Ok s, h).
Proof.
  intros Hs Hm Hw Hn HW Hzero. unfold add_model. py_unfold.
  rewrite Hs, Hm, Hw, Hn. simpl.
  rewrite (add_model_loop_skip scale s m w h W (seq 0 n) HW); [reflexivity|].
  intros i Hi. apply Hzero. apply elem_of_seq in Hi. lia.
Qed.

(** X6.  When the model counts more detectors than [weights] has rows,
    [add_model] raises [IndexError] at the first missing row, and the rows
    before it stay accumulated into the signal: each holds what the loop
    added to it, for whatever values [np.dot] returned. *)
Theorem add_model_short_weights (tod model : option (AxisManager F))
    (scale : F) (signal modes weights : option loc) h s m w n S M W :
  default_attr signal tod "signal" = Ok s ->
  default_attr modes model "modes" = Ok m ->
  default_attr weights model "weights" = Ok w ->
  axis_count model "dets" = Ok n ->
  h !! s = Some S -> h !! m = Some M -> h !! w = Some W ->
  s <> m -> s <> w ->
  shapes_agree (nrows W) S M W ->
  nrows W < n ->
  add_model tod model scale signal modes weights h
  = (Raise IndexError, <[s := accumulated scale W M S 0 (nrows W)]> h).
Proof.
  intros Hs Hm Hw Hn HS HM HW Hsm Hsw (HwfS & HwfW & HnS & HnW & HWM & HSM)
    Hshort.
  unfold add_model. py_unfold. rewrite Hs, Hm, Hw, Hn. simpl.
  replace n with (nrows W + (n - nrows W)) by lia.
  rewrite seq_app, add_model_loop_app.
  rewrite (add_model_loop_ok scale s m w M W (nrows W) 0 S h); auto.
  destruct (n - nrows W) as [|k] eqn:Hk; [lia|]. simpl. py_unfold.
  unfold add_model_row. py_unfold.
  rewrite lookup_insert_ne by congruence. rewrite HW. simpl.
  unfold getitem.
  rewrite (proj2 (lookup_ge_None (rows W) (nrows W)));
    [reflexivity | unfold nrows; lia].
Qed.

(** X7.  When the rows before [j] have zero weights and row [j] has a
    number of weights other than the number of rows of [modes],
    [add_model] raises [ValueError] and leaves the store as it is. *)
Theorem add_model_modes_mismatch (tod model : option (AxisManager F))
    (scale : F) (signal modes weights : option loc) h s m w n S M W j wj :
  default_attr signal tod "signal" = Ok s ->
  default_attr modes model "modes" = Ok m ->
  default_attr weights model "weights" = Ok w ->
  axis_count model "dets" = Ok n ->
  h !! s = Some S -> h !! m = Some M -> h !! w = Some W ->
  j < n -> j < nrows S ->
  (forall i, i < j ->
     exists wi, rows W !! i = Some wi /\ np_all_eq0 wi = true) ->
  rows W !! j = Some wj -> np_all_eq0 wj = false ->
  length wj <> nrows M ->
  add_model tod model scale signal modes weights h = (Raise ValueError, h).
Proof.
  intros Hs Hm Hw Hn HS HM HW Hjn HjS Hzero Hwj Hnz Hlen.
  unfold add_model. py_unfold. rewrite Hs, Hm, Hw, Hn. simpl.
  replace n with (j + (n - j)) by lia.
  rewrite seq_app, add_model_loop_app.
  rewrite (add_model_loop_skip scale s m w h W (seq 0 j) HW).
  2:{ intros i Hi. apply Hzero. apply elem_of_seq in Hi. lia. }
  destruct (n - j) as [|k] eqn:Hk; [lia|]. simpl. py_unfold.
  unfold add_model_row. py_unfold. rewrite HW. simpl.
  unfold getitem. rewrite Hwj. simpl. rewrite Hnz, HS. simpl.
  destruct (lookup_lt_is_Some_2 (rows S) j HjS) as [sj Hsj].
  rewrite Hsj. simpl. rewrite HM. simpl.
  unfold np_dot_vm, scale_vec. rewrite length_map.
  destruct (decide (length wj = nrows M)); [contradiction | reflexivity].
Qed.

End AddModelEdges.

Lemma add_model_keeps_shapes_witness :
  dom (snd (add_model (Some tod_3x2) (Some model_3x2) 1%Z None None None
                      store_3x2)) = dom store_3x2.
Proof.
  apply (add_model_keeps_shapes (Some tod_3x2) (Some model_3x2) 1%Z
           None None None store_3x2).
Defined.

Lemma add_model_zero_weights_witness :
  add_model (Some tod_3x2)
    (Some (axis_manager [("dets", 2)] [("modes", 0); ("weights", 2)]))
    7%Z None None None store_3x2
  = (Ok 0, store_3x2).
Proof.
  apply (add_model_zero_weights (Some tod_3x2)
           (Some (axis_manager [("dets", 2)] [("modes", 0); ("weights", 2)]))
           7%Z None None None store_3x2 0 0 2 2
           (Matrix 2 [[0; 0]; [0; 0]; [5; 6]]%Z)
           eq_refl eq_refl eq_refl eq_refl eq_refl).
  intros i Hi. exists [0; 0]%Z.
  destruct i as [|[|i]];
    [split; reflexivity | split; reflexivity | exfalso; lia].
Defined.

Lemma add_model_short_weights_witness :
  add_model (Some tod_2x2)
    (Some (axis_manager [("dets", 3)] [("modes", 1); ("weights", 2)]))
    1%Z None None None store_2x2
  = (Raise IndexError,
     <[0 := Matrix 2 [[13; 26]; [30; 40]]%Z]> store_2x2).
Proof.
  assert (Hsm : 0 <> 1) by lia. assert (Hsw : 0 <> 2) by lia.
  assert (Hlt : nrows (Matrix 1 [[3]; [0]]%Z) < 3) by (unfold nrows; simpl; lia).
  exact (add_model_short_weights (Some tod_2x2)
           (Some (axis_manager [("dets", 3)] [("modes", 1); ("weights", 2)]))
           1%Z None None None store_2x2 0 1 2 3
           (Matrix 2 [[10; 20]; [30; 40]]%Z) (Matrix 2 [[1; 2]]%Z)
           (Matrix 1 [[3]; [0]]%Z)
           eq_refl eq_refl eq_refl eq_refl eq_refl eq_refl eq_refl
           Hsm Hsw shapes_agree_2x2 Hlt).
Defined.

Lemma add_model_modes_mismatch_witness :
  add_model (Some tod_3x2) (Some model_3x2) 1%Z None None None store_3x2
  = (Raise ValueError, store_3x2).
Proof.
  assert (Hjn : 2 < 3) by lia.
  assert (HjS : 2 < nrows (Matrix 2 [[10; 20]; [30; 40]; [50; 60]]%Z))
    by (unfold nrows; simpl; lia).
  assert (Hlen : length [5; 6]%Z <> nrows (Matrix 2 [[1; 2]]%Z))
    by (unfold nrows; simpl; lia).
  apply (add_model_modes_mismatch (Some tod_3x2) (Some model_3x2) 1%Z
           None None None store_3x2 0 1 2 3
           (Matrix 2 [[10; 20]; [30; 40]; [50; 60]]%Z) (Matrix 2 [[1; 2]]%Z)
           (Matrix 2 [[0; 0]; [0; 0]; [5; 6]]%Z) 2 [5; 6]%Z
           eq_refl eq_refl eq_refl eq_refl eq_refl eq_refl eq_refl
           Hjn HjS); [|reflexivity|reflexivity|exact Hlen].
  intros i Hi. exists [0; 0]%Z.
  destruct i as [|[|i]]; [split; reflexivity | split; reflexivity | exfalso; lia].
Defined.

(* ===================================================================== *)
(** * Further properties of add_model over exact arithmetic *)
(* ===================================================================== *)
Section AddModelScales.
Context {F : Type} `{ExactDtype F}.
Implicit Types (h : store F) (s m w : loc) (S M W : matrix F).

Lemma inner_add_from (u c : list F) (a b x y : F) :
  dt_add
    (fold_left (fun acc xy => dt_add acc (dt_mul (fst xy) (snd xy)))
               (zip (scale_vec u a) c) x)
    (fold_left (fun acc xy => dt_add acc (dt_mul (fst xy) (snd xy)))
               (zip (scale_vec u b) c) y)
  = fold_left (fun acc xy => dt_add acc (dt_mul (fst xy) (snd xy)))
              (zip (scale_vec u (dt_add a b)) c) (dt_add x y).
Proof.
  revert c x y. induction u as [|p u IH]; intros c x y; [reflexivity|].
  destruct c as [|q c]; [reflexivity|]. simpl.
  rewrite IH. f_equal.
  rewrite dt_add_swap, <- dt_mul_add_distr_r, <- dt_mul_add_distr_l.
  reflexivity.
Qed.

Lemma inner_add (u c : list F) (a b x : F) :
  dt_add (dt_add x (inner (scale_vec u a) c)) (inner (scale_vec u b) c)
  = dt_add x (inner (scale_vec u (dt_add a b)) c).
Proof.
  rewrite <- dt_add_assoc. f_equal. unfold inner.
  rewrite inner_add_from, dt_add_0_r. reflexivity.
Qed.

Lemma zip_with_merge {J} (f g k : J -> F) (js : list J) :
  (forall j x, dt_add (dt_add x (f j)) (g j) = dt_add x (k j)) ->
  forall r,
  zip_with dt_add (zip_with dt_add r (map f js)) (map g js)
  = zip_with dt_add r (map k js).
Proof.
  intros Hfg. induction js as [|j js IH]; intros r.
  - destruct r; reflexivity.
  - destruct r as [|x r]; [reflexivity|]. simpl.
    rewrite Hfg, IH. reflexivity.
Qed.

Lemma new_row_add (a b : F) W M i si :
  new_row b W M i (new_row a W M i si) = new_row (dt_add a b) W M i si.
Proof.
  unfold new_row. destruct (rows W !! i) as [wi|]; [|reflexivity].
  destruct (np_all_eq0 wi); [reflexivity|].
  rewrite !vecmat_exact. apply zip_with_merge. intros j x. apply inner_add.
Qed.

Lemma accumulated_add (a b : F) W M S n :
  accumulated b W M (accumulated a W M S 0 n) 0 n
  = accumulated (dt_add a b) W M S 0 n.
Proof.
  unfold accumulated. simpl. f_equal.
  apply list_eq. intros i. rewrite !list_lookup_imap.
  destruct (rows S !! i) as [si|]; simpl; [|reflexivity].
  destruct (decide (0 <= i < n)); [|reflexivity].
  rewrite new_row_add. reflexivity.
Qed.

(** X8.  Over exact arithmetic, accumulating a model with scale [a] and
    then with scale [b] leaves the store that one call with scale [a + b]
    leaves. *)
Theorem add_model_scales_add (tod model : option (AxisManager F)) (a b : F)
    (signal modes weights : option loc) h s m w n S M W :
  default_attr signal tod "signal" = Ok s ->
  default_attr modes model "modes" = Ok m ->
  default_attr weights model "weights" = Ok w ->
  axis_count model "dets" = Ok n ->
  h !! s = Some S -> h !! m = Some M -> h !! w = Some W ->
  s <> m -> s <> w ->
  shapes_agree n S M W ->
  exists h1,
    add_model tod model a signal modes weights h = (Ok s, h1) /\
    add_model tod model b signal modes weights h1
    = add_model tod model (dt_add a b) signal modes weights h.
Proof.
  intros Hs Hm Hw Hn HS HM HW Hsm Hsw Hshape.
  exists (<[s := accumulated a W M S 0 n]> h).
  split; [eapply add_model_ok; eauto|].
  rewrite (add_model_ok tod model b signal modes weights _ s m w n
             (accumulated a W M S 0 n) M W); try assumption.
  - rewrite (add_model_ok tod model (dt_add a b) signal modes weights h
               s m w n S M W); try assumption.
    rewrite accumulated_add, insert_insert_eq. reflexivity.
  - apply lookup_insert_eq.
  - rewrite lookup_insert_ne by congruence. exact HM.
  - rewrite lookup_insert_ne by congruence. exact HW.
  - apply accumulated_shapes. exact Hshape.
Qed.

Lemma inner_zero_from (u c : list F) (x : F) :
  fold_left (fun acc xy => dt_add acc (dt_mul (fst xy) (snd xy)))
            (zip (scale_vec u (of_int 0)) c) x = x.
Proof.
  revert c x. induction u as [|p u IH]; intros c x; [reflexivity|].
  destruct c as [|q c]; [reflexivity|]. simpl.
  rewrite IH, dt_mul_0_r, dt_mul_0_l. apply dt_add_0_r.
Qed.

Lemma zip_with_zero {J} (f : J -> F) (js : list J) :
  (forall j, f j = of_int 0) ->
  forall r, length r <= length js -> zip_with dt_add r (map f js) = r.
Proof.
  intros Hf. induction js as [|j js IH]; intros r Hr.
  - destruct r; [reflexivity | simpl in Hr; lia].
  - destruct r as [|x r]; [reflexivity|]. simpl in *.
    rewrite Hf, dt_add_0_r, IH by lia. reflexivity.
Qed.

Lemma accumulated_zero W M S n :
  shapes_agree n S M W -> accumulated (of_int 0) W M S 0 n = S.
Proof.
  intros (HwfS & _ & _ & _ & _ & HSM).
  transitivity (Matrix (ncols S) (rows S)); [|apply matrix_eta].
  unfold accumulated. f_equal.
  apply list_eq. intros i. rewrite list_lookup_imap.
  destruct (rows S !! i) as [si|] eqn:Hsi; simpl; [|reflexivity].
  destruct (decide (0 <= i < n)); [|reflexivity].
  f_equal. unfold new_row. destruct (rows W !! i) as [wi|]; [|reflexivity].
  destruct (np_all_eq0 wi); [reflexivity|].
  rewrite vecmat_exact. apply zip_with_zero.
  - intros j. unfold inner. apply inner_zero_from.
  - rewrite length_seq, <- HSM. unfold mat_wf in HwfS.
    rewrite Forall_forall in HwfS.
    rewrite (HwfS si); [lia|]. eapply list_elem_of_lookup_2; eauto.
Qed.

(** X9.  Over exact arithmetic, [add_model] with [scale = 0] returns the
    signal reference and leaves the store as it is. *)
Theorem add_model_scale_zero (tod model : option (AxisManager F))
    (signal modes weights : option loc) h s m w n S M W :
  default_attr signal tod "signal" = Ok s ->
  default_attr modes model "modes" = Ok m ->
  default_attr weights model "weights" = Ok w ->
  axis_count model "dets" = Ok n ->
  h !! s = Some S -> h !! m = Some M -> h !! w = Some W ->
  s <> m -> s <> w ->
  shapes_agree n S M W ->
  add_model tod model (of_int 0) signal modes weights h = (Ok s, h).
Proof.
  intros Hs Hm Hw Hn HS HM HW Hsm Hsw Hshape.
  rewrite (add_model_ok tod model (of_int 0) signal modes weights h
             s m w n S M W); try assumption.
  rewrite accumulated_zero by exact Hshape.
  rewrite insert_id by exact HS. reflexivity.
Qed.

End AddModelScales.

Section ZeroScaleFloat64.
#[local] Existing Instance dot_in_order.

(** In float64, [scale = 0] does change the signal when a mode is
    infinite: [0 * inf] is NaN. *)
Lemma f64_zero_scale_nan :
  let h := store_1x1 f64_one (S754_infinity false) f64_one in
  let r := add_model (Some tod_1x1) (Some model_1x1) (of_int 0)
                     None None None h in
  fst r = Ok 0 /\ row_of (snd r) 0 0 = Some [S754_nan].
Proof. vm_compute. split; reflexivity. Qed.

End ZeroScaleFloat64.

Lemma add_model_scales_add_witness :
  exists h1,
    add_model (Some tod_2x2) (Some model_2x2) 2%Z None None None store_2x2
    = (Ok 0, h1) /\
    add_model (Some tod_2x2) (Some model_2x2) 3%Z None None None h1
    = add_model (Some tod_2x2) (Some model_2x2) 5%Z None None None store_2x2.
Proof.
  assert (Hsm : 0 <> 1) by lia. assert (Hsw : 0 <> 2) by lia.
  exact (add_model_scales_add (Some tod_2x2) (Some model_2x2) 2%Z 3%Z
           None None None store_2x2 0 1 2 2
           (Matrix 2 [[10; 20]; [30; 40]]%Z) (Matrix 2 [[1; 2]]%Z)
           (Matrix 1 [[3]; [0]]%Z)
           eq_refl eq_refl eq_refl eq_refl eq_refl eq_refl eq_refl
           Hsm Hsw shapes_agree_2x2).
Defined.

Lemma add_model_scale_zero_witness :
  add_model (Some tod_2x2) (Some model_2x2) 0%Z None None None store_2x2
  = (Ok 0, store_2x2).
Proof.
  assert (Hsm : 0 <> 1) by lia. assert (Hsw : 0 <> 2) by lia.
  exact (add_model_scale_zero (Some tod_2x2) (Some model_2x2)
           None None None store_2x2 0 1 2 2
           (Matrix 2 [[10; 20]; [30; 40]]%Z) (Matrix 2 [[1; 2]]%Z)
           (Matrix 1 [[3]; [0]]%Z)
           eq_refl eq_refl eq_refl eq_refl eq_refl eq_refl eq_refl
           Hsm Hsw shapes_agree_2x2).
Defined.

Section AddModelCommute.
Context {F : Type} `{ExactDtype F}.
Implicit Types (h : store F) (S M W : matrix F).

Lemma zip_with_add_swap (r u v : list F) :
  zip_with dt_add (zip_with dt_add r u) v
  = zip_with dt_add (zip_with dt_add r v) u.
Proof.
  revert u v. induction r as [|x r IH]; intros u v.
  - destruct u, v; reflexivity.
  - destruct u as [|y u], v as [|z v]; try reflexivity.
    simpl. rewrite IH. f_equal.
    rewrite <- !dt_add_assoc. f_equal. apply dt_add_comm.
Qed.

Lemma new_row_commute (a b : F) W1 M1 W2 M2 i si :
  new_row b W2 M2 i (new_row a W1 M1 i si)
  = new_row a W1 M1 i (new_row b W2 M2 i si).
Proof.
  unfold new_row.
  destruct (rows W1 !! i) as [w1|], (rows W2 !! i) as [w2|];
    try reflexivity.
  destruct (np_all_eq0 w1), (np_all_eq0 w2); try reflexivity.
  apply zip_with_add_swap.
Qed.

Lemma accumulated_commute (a b : F) W1 M1 W2 M2 S n1 n2 :
  accumulated b W2 M2 (accumulated a W1 M1 S 0 n1) 0 n2
  = accumulated a W1 M1 (accumulated b W2 M2 S 0 n2) 0 n1.
Proof.
  unfold accumulated. simpl. f_equal.
  apply list_eq. intros i. rewrite !list_lookup_imap.
  destruct (rows S !! i) as [si|]; simpl; [|reflexivity].
  destruct (decide (0 <= i < n1)), (decide (0 <= i < n2)); try reflexivity.
  rewrite new_row_commute. reflexivity.
Qed.

Lemma accumulated_other_shapes (a : F) W1 M1 W2 M2 S n1 n2 :
  shapes_agree n1 S M1 W1 -> shapes_agree n2 S M2 W2 ->
  shapes_agree n2 (accumulated a W1 M1 S 0 n1) M2 W2.
Proof.
  intros Hsh1 (HwfS & HwfW & HnS & HnW & HWM & HSM).
  destruct (accumulated_shapes a W1 M1 S n1 Hsh1) as (HwfS' & _).
  repeat split; try assumption.
  unfold accumulated, nrows. simpl. rewrite length_imap. exact HnS.
Qed.

(** X10.  Over exact arithmetic, accumulating two models into a signal
    gives the same store in either order. *)
Theorem add_model_commute (tod model1 model2 : option (AxisManager F))
    (a b : F) (signal : option loc) h s m1 w1 m2 w2 n1 n2 S M1 W1 M2 W2 :
  default_attr signal tod "signal" = Ok s ->
  getattr model1 "modes" = Ok m1 -> getattr model1 "weights" = Ok w1 ->
  axis_count model1 "dets" = Ok n1 ->
  getattr model2 "modes" = Ok m2 -> getattr model2 "weights" = Ok w2 ->
  axis_count model2 "dets" = Ok n2 ->
  h !! s = Some S ->
  h !! m1 = Some M1 -> h !! w1 = Some W1 ->
  h !! m2 = Some M2 -> h !! w2 = Some W2 ->
  s <> m1 -> s <> w1 -> s <> m2 -> s <> w2 ->
  shapes_agree n1 S M1 W1 -> shapes_agree n2 S M2 W2 ->
  exists h1 h2,
    add_model tod model1 a signal None None h = (Ok s, h1) /\
    add_model tod model2 b signal None None h = (Ok s, h2) /\
    add_model tod model2 b signal None None h1
    = add_model tod model1 a signal None None h2.
Proof.
  intros Hs Hm1 Hw1 Hn1 Hm2 Hw2 Hn2 HS HM1 HW1 HM2 HW2 Hsm1 Hsw1 Hsm2 Hsw2
    Hsh1 Hsh2.
  exists (<[s := accumulated a W1 M1 S 0 n1]> h),
         (<[s := accumulated b W2 M2 S 0 n2]> h).
  split; [eapply add_model_ok; eauto|].
  split; [eapply add_model_ok; eauto|].
  rewrite (add_model_ok tod model2 b signal None None _ s m2 w2 n2
             (accumulated a W1 M1 S 0 n1) M2 W2); try assumption.
  - rewrite (add_model_ok tod model1 a signal None None _ s m1 w1 n1
               (accumulated b W2 M2 S 0 n2) M1 W1); try assumption.
    + rewrite !insert_insert_eq, accumulated_commute. reflexivity.
    + apply lookup_insert_eq.
    + rewrite lookup_insert_ne by congruence. exact HM1.
    + rewrite lookup_insert_ne by congruence. exact HW1.
    + apply accumulated_other_shapes; assumption.
  - apply lookup_insert_eq.
  - rewrite lookup_insert_ne by congruence. exact HM2.
  - rewrite lookup_insert_ne by congruence. exact HW2.
  - apply accumulated_other_shapes; assumption.
Qed.

End AddModelCommute.

Lemma shapes_agree_2x2' :
  shapes_agree 2 (Matrix 2 [[10; 20]; [30; 40]]%Z) (Matrix 2 [[5; 7]]%Z)
               (Matrix 1 [[1]; [2]]%Z).
Proof.
  unfold shapes_agree, mat_wf, nrows. simpl.
  repeat split; try lia; repeat constructor.
Qed.

Lemma add_model_commute_witness :
  exists h1 h2,
    add_model (Some tod_2x2) (Some model_2x2) 2%Z None None None
              store_two_models = (Ok 0, h1) /\
    add_model (Some tod_2x2) (Some model_2x2') 3%Z None None None
              store_two_models = (Ok 0, h2) /\
    add_model (Some tod_2x2) (Some model_2x2') 3%Z None None None h1
    = add_model (Some tod_2x2) (Some model_2x2) 2%Z None None None h2.
Proof.
  assert (H01 : 0 <> 1) by lia. assert (H02 : 0 <> 2) by lia.
  assert (H03 : 0 <> 3) by lia. assert (H04 : 0 <> 4) by lia.
  exact (add_model_commute (Some tod_2x2) (Some model_2x2) (Some model_2x2')
           2%Z 3%Z None store_two_models 0 1 2 3 4 2 2
           (Matrix 2 [[10; 20]; [30; 40]]%Z) (Matrix 2 [[1; 2]]%Z)
           (Matrix 1 [[3]; [0]]%Z) (Matrix 2 [[5; 7]]%Z)
           (Matrix 1 [[1]; [2]]%Z)
           eq_refl eq_refl eq_refl eq_refl eq_refl eq_refl eq_refl
           eq_refl eq_refl eq_refl eq_refl eq_refl
           H01 H02 H03 H04 shapes_agree_2x2 shapes_agree_2x2').
Defined.

(* ===================================================================== *)
(** * Further properties of get_pca, get_pca_model and get_trends *)
(* ===================================================================== *)
Section StoreGrows.
Context {F : Type}.

Lemma grows_ret {A} (a : A) : store_grows (F := F) (mret a).
Proof. intros h. reflexivity. Qed.

Lemma grows_lift {A} (r : result A) : store_grows (F := F) (py_lift r).
Proof. intros h. reflexivity. Qed.

Lemma grows_read (l : loc) : store_grows (F := F) (read l).
Proof. intros h. unfold read. destruct (h !! l); reflexivity. Qed.

Lemma grows_alloc (m : matrix F) : store_grows (alloc m).
Proof. intros h. apply insert_subseteq, fresh_loc_unused. Qed.

Lemma grows_bind {A B} (m : py (store F) A) (k : A -> py (store F) B) :
  store_grows m -> (forall a, store_grows (k a)) ->
  store_grows (x ← m; k x).
Proof.
  intros Hm Hk h. unfold mbind, py_mbind, py_bind.
  specialize (Hm h). destruct (m h) as [[a|e] h1]; simpl in *.
  - etransitivity; [exact Hm | apply Hk].
  - exact Hm.
Qed.

Lemma grows_wrap (am : AxisManager F) name l ax0 ax1 :
  store_grows (wrap am name l ax0 ax1).
Proof.
  unfold wrap.
  repeat first [apply grows_bind; [|intros ?] | apply grows_ret
               | apply grows_lift | apply grows_read].
Qed.

End StoreGrows.

Ltac grows :=
  repeat first [apply grows_bind; [|intros ?] | apply grows_ret
               | apply grows_lift | apply grows_read | apply grows_alloc
               | apply grows_wrap].

Section PcaEdges.
Variable np_cov : matrix f64 -> result (matrix f64).
Variable np_linalg_eig : matrix f64 -> result (eigvals * eigvecs).
Context {blas : Dot f64}.
Variable np_mean : list f64 -> f64.

Lemma grows_get_pca tod cov signal :
  store_grows (get_pca np_cov np_linalg_eig tod cov signal).
Proof.
  unfold get_pca, resolve_cov. destruct cov; grows.
Qed.

Lemma grows_get_pca_model tod pca n_modes signal :
  store_grows (get_pca_model np_cov np_linalg_eig tod pca n_modes signal).
Proof.
  unfold get_pca_model, resolve_pca.
  apply grows_bind; [destruct pca; [grows | apply grows_get_pca]|].
  intros p. grows.
Qed.

(** X11.  [get_pca] and [get_pca_model] only add arrays to the store:
    whatever the arguments, the numpy routines and the outcome, every array
    that existed before the call, the signal and a supplied covariance
    included, is still there with the contents it had. *)
Theorem pca_only_allocates (tod pca : option (AxisManager f64))
    (cov signal : option loc) (n_modes : option nat) (h : store f64) :
  h ⊆ snd (get_pca np_cov np_linalg_eig tod cov signal h) /\
  h ⊆ snd (get_pca_model np_cov np_linalg_eig tod pca n_modes signal h).
Proof. split; [apply grows_get_pca | apply grows_get_pca_model]. Qed.

Lemma get_pca_no_tod cov signal h out h' :
  get_pca np_cov np_linalg_eig None cov signal h <> (Ok out, h').
Proof.
  unfold get_pca, resolve_cov. py_unfold.
  destruct cov as [c|]; simpl; [discriminate|].
  destruct signal as [s|]; simpl; [|discriminate].
  destruct (h !! s) as [S|]; simpl; [|discriminate].
  destruct (np_cov S); simpl; discriminate.
Qed.

(** X12.  [tod] is required although [get_pca] and [get_pca_model] default
    it to [None]: without it neither returns a result, [get_pca] with a
    covariance supplied or no signal, [get_pca_model] with a decomposition
    supplied and [get_trends] always raise [AttributeError] and leave the
    store as it is. *)
Theorem tod_is_required (pca : option (AxisManager f64))
    (cov signal : option loc) (n_modes : option nat) (remove : bool)
    (size : Z) (h : store f64) :
  (forall out h',
     get_pca np_cov np_linalg_eig None cov signal h <> (Ok out, h')) /\
  (is_Some cov \/ signal = None ->
     get_pca np_cov np_linalg_eig None cov signal h
     = (Raise AttributeError, h)) /\
  (forall out h',
     get_pca_model np_cov np_linalg_eig None pca n_modes signal h
     <> (Ok out, h')) /\
  (is_Some pca ->
     get_pca_model np_cov np_linalg_eig None pca n_modes signal h
     = (Raise AttributeError, h)) /\
  get_trends np_mean None remove size signal h = (Raise AttributeError, h).
Proof.
  split; [intros out h'; apply get_pca_no_tod|].
  split.
  { intros [[c ->] | ->]; [reflexivity|].
    destruct cov; reflexivity. }
  split.
  { intros out h'. unfold get_pca_model, resolve_pca.
    destruct pca as [p|].
    - unfold mbind, py_mbind, py_bind, mret, py_mret, py_ret, py_lift.
      destruct (resolve_n_modes p n_modes); simpl; discriminate.
    - unfold mbind, py_mbind, py_bind.
      pose proof (get_pca_no_tod None signal h) as Hno.
      destruct (get_pca np_cov np_linalg_eig None None signal h)
        as [[p|e] h1]; [|discriminate].
      exfalso. exact (Hno p h1 eq_refl). }
  split.
  { intros [p ->]. unfold get_pca_model, resolve_pca.
    unfold mbind, py_mbind, py_bind, mret, py_mret, py_ret, py_lift.
    destruct (resolve_n_modes p n_modes) as [k|e] eqn:Hk; simpl;
      [reflexivity|].
    destruct n_modes; simpl in Hk; [discriminate|].
    unfold axis_count in Hk. destruct (axes p !! "eigen"); congruence. }
  unfold get_trends. destruct signal; reflexivity.
Qed.

End PcaEdges.

Section TrendsFrame.
Context {blas : Dot f64}.
Variable np_mean : list f64 -> f64.

Lemma grows_get_trends tod size signal :
  store_grows (get_trends np_mean tod false size signal).
Proof. unfold get_trends. grows. Qed.

(** [get_trends] with [remove] is [get_trends] without it followed by
    [add_model] with [scale = -1] on the trends it returned. *)
Lemma get_trends_remove tod size signal h s :
  default_attr signal tod "signal" = Ok s ->
  get_trends np_mean tod true size signal h
  = match get_trends np_mean tod false size signal h with
    | (Ok trends, h2) =>
        match add_model tod (Some trends) (of_int (-1)) (Some s) None None h2
        with
        | (Ok _, h3) => (Ok trends, h3)
        | (Raise e, h3) => (Raise e, h3)
        end
    | (Raise e, h2) => (Raise e, h2)
    end.
Proof.
  intros Hs. unfold get_trends.
  rewrite !(bind_ok _ _ _ _ _ (lift_ok _ _ _ Hs)).
  unfold mbind, py_mbind, py_bind, mret, py_mret, py_ret, py_lift.
  destruct (axis_count tod "dets") as [dets|e]; [|reflexivity].
  destruct (axis_count tod "samps") as [samps|e]; [|reflexivity].
  cbv zeta.
  destruct (read s h) as [[S|e] h1]; [|reflexivity].
  destruct (column_value dets (map np_mean (rows S))) as [w0|e];
    [|reflexivity].
  destruct (column_value dets _) as [w1|e]; [|reflexivity].
  destruct (alloc _ h1) as [[mo|e] h2]; [|reflexivity].
  destruct (alloc _ h2) as [[we|e] h3]; [|reflexivity].
  destruct (add_model _ _ _ _ _ _ h3) as [[x|e] h4]; reflexivity.
Qed.

(** X13.  [get_trends] without [remove] only adds arrays to the store.
    With [remove] it changes no array but the signal, and the signal keeps
    its shape; this holds whatever the outcome. *)
Theorem get_trends_frame (tod : option (AxisManager f64)) (remove : bool)
    (size : Z) (signal : option loc) (h : store f64) :
  let h' := snd (get_trends np_mean tod remove size signal h) in
  (remove = false -> h ⊆ h') /\
  (forall s l M, default_attr signal tod "signal" = Ok s ->
     l <> s -> h !! l = Some M -> h' !! l = Some M) /\
  (forall l M, h !! l = Some M -> shape <$> h' !! l = Some (shape M)).
Proof.
  cbv zeta.
  pose proof (grows_get_trends tod size signal h) as Hgrow.
  assert (Hfalse : forall l M, h !! l = Some M ->
            snd (get_trends np_mean tod false size signal h) !! l = Some M).
  { intros l M. apply (proj1 (map_subseteq_spec _ _) Hgrow). }
  destruct remove.
  - split; [discriminate|].
    destruct (default_attr signal tod "signal") as [s|e] eqn:Hs.
    + rewrite (get_trends_remove tod size signal h s Hs).
      destruct (get_trends np_mean tod false size signal h) as [[t|e] h2];
        cbn [snd] in *.
      * pose proof (add_model_other tod (Some t) (of_int (-1)) (Some s)
                      None None h2 s) as Hother.
        pose proof (add_model_shape tod (Some t) (of_int (-1)) (Some s)
                      None None h2) as Hshape.
        destruct (add_model tod (Some t) (of_int (-1)) (Some s) None None h2)
          as [[x|e] h3]; cbn [snd] in *.
        all: split;
          [ intros s' l M [= <-] Hl HM;
            rewrite (Hother l eq_refl Hl); apply Hfalse; exact HM
          | intros l M HM; rewrite Hshape, (Hfalse l M HM); reflexivity ].
      * split; [intros s' l M _ _; apply Hfalse|].
        intros l M HM. rewrite (Hfalse l M HM). reflexivity.
    + unfold get_trends. unfold mbind at 1. unfold py_mbind, py_bind, py_lift.
      rewrite Hs. simpl. split; [discriminate|].
      intros l M ->. reflexivity.
  - split; [intros _; exact Hgrow|].
    split; [intros s l M _ _; apply Hfalse|].
    intros l M HM. rewrite (Hfalse l M HM). reflexivity.
Qed.

End TrendsFrame.

Section SortedInput.

Lemma sort_keys_id (l : list (f64 * nat)) :
  StronglySorted (fun x y => np_lt (fst y) (fst x) = false) l ->
  sort_keys l = l.
Proof.
  induction 1 as [|x l Hsorted IH Hall]; [reflexivity|].
  unfold sort_keys in *. simpl. rewrite IH.
  destruct l as [|y l]; [reflexivity|]. simpl.
  apply Forall_cons in Hall as [Hy _]. rewrite Hy. reflexivity.
Qed.

Lemma f64_ltb_not_nan (a b : f64) :
  f64_ltb b a = true -> f64_isnan a = false.
Proof. destruct a; [reflexivity.. | destruct b; discriminate | reflexivity]. Qed.

Lemma np_lt_neg_descending (a b : f64) :
  f64_ltb b a = true -> np_lt (f64_neg b) (f64_neg a) = false.
Proof.
  intros Hlt. unfold np_lt. rewrite f64_ltb_neg.
  assert (Hab : np_lt a b = false).
  { apply np_lt_asym. unfold np_lt. rewrite Hlt. reflexivity. }
  unfold np_lt in Hab. apply orb_false_iff in Hab as [-> _].
  pose proof (f64_ltb_not_nan a b Hlt) as Ha.
  destruct a; try discriminate; reflexivity.
Qed.

Lemma zip_keys_sorted (E : list f64) : forall a,
  StronglySorted (fun x y => f64_ltb y x = true) E ->
  StronglySorted (fun x y => np_lt (fst y) (fst x) = false)
    (zip (map f64_neg E) (seq a (length E))).
Proof.
  induction E as [|x E IH]; intros a Hsorted; [constructor|].
  apply StronglySorted_inv in Hsorted as [Hs Hall]. simpl.
  constructor; [apply IH; exact Hs|].
  rewrite Forall_forall in Hall. rewrite Forall_forall. intros [k j] Hkj.
  apply list_elem_of_lookup in Hkj as [i Hi].
  apply lookup_zip_with_Some in Hi as (u & v & Huv & Hu & Hv).
  injection Huv as <- <-. simpl.
  rewrite lookup_map in Hu.
  destruct (E !! i) as [y|] eqn:Hy; [|discriminate].
  injection Hu as <-. apply np_lt_neg_descending, Hall.
  eapply list_elem_of_lookup_2; eauto.
Qed.

Lemma map_snd_zip {A B} (l : list A) (k : list B) :
  length k = length l -> map snd (zip l k) = k.
Proof.
  revert k. induction l as [|x l IH]; intros [|y k] Hlen;
    try reflexivity; try discriminate.
  simpl. rewrite IH by (simpl in Hlen; lia). reflexivity.
Qed.

(** Eigenvalues already in strictly decreasing order are left where they
    are. *)
Lemma np_argsort_descending (E : list f64) :
  StronglySorted (fun x y => f64_ltb y x = true) E ->
  np_argsort (map f64_neg E) = seq 0 (length E).
Proof.
  intros Hsorted. unfold np_argsort. rewrite length_map.
  rewrite sort_keys_id by (apply zip_keys_sorted; exact Hsorted).
  apply map_snd_zip. rewrite length_map, length_seq. reflexivity.
Qed.

Lemma omap_lookup_seq {A} (v : list A) :
  omap (fun i => v !! i) (seq 0 (length v)) = v.
Proof.
  assert (Hb : Forall (fun j => j < length v) (seq 0 (length v))).
  { rewrite Forall_forall. intros j Hj. apply elem_of_seq in Hj. lia. }
  destruct (omap_lookup_valid v _ Hb) as [Hlen Hlook].
  rewrite length_seq in Hlen.
  apply list_eq. intros i. destruct (decide (i < length v)) as [Hi|Hi].
  - apply Hlook. apply lookup_seq. lia.
  - rewrite !(proj2 (lookup_ge_None _ _)) by lia. reflexivity.
Qed.

Lemma take_idx_seq {A} (v : list A) :
  take_idx v (seq 0 (length v)) = Ok v.
Proof.
  unfold take_idx. rewrite forallb_ltb.
  - rewrite omap_lookup_seq. reflexivity.
  - rewrite Forall_forall. intros j Hj. apply elem_of_seq in Hj. lia.
Qed.

Lemma take_columns_seq {A} (a : matrix A) :
  mat_wf a -> take_columns a (seq 0 (ncols a)) = Ok a.
Proof.
  intros Hwf. unfold take_columns. rewrite forallb_ltb.
  - rewrite length_seq. f_equal.
    transitivity (Matrix (ncols a) (rows a)); [|apply matrix_eta].
    f_equal. unfold mat_wf in Hwf.
    induction Hwf as [|r rs Hr _ IH]; [reflexivity|].
    simpl. rewrite IH. f_equal.
    rewrite <- Hr. apply omap_lookup_seq.
  - rewrite Forall_forall. intros j Hj. apply elem_of_seq in Hj. lia.
Qed.

Lemma take_columns_wf {A} (a a' : matrix A) (idx : list nat) :
  mat_wf a -> take_columns a idx = Ok a' -> mat_wf a'.
Proof.
  intros Hwf. unfold take_columns.
  destruct (forallb _ idx) eqn:Hb; [|discriminate].
  intros [= <-]. unfold mat_wf in *. simpl.
  rewrite Forall_forall in *. intros r' Hr'.
  apply list_elem_of_fmap in Hr' as [r [-> Hr]].
  apply omap_lookup_valid. rewrite Forall_forall. intros j Hj.
  rewrite (Hwf r Hr). rewrite forallb_forall in Hb.
  apply Nat.ltb_lt, Hb. apply list_elem_of_In. exact Hj.
Qed.

End SortedInput.

Section PcaRuns.
Variable np_cov : matrix f64 -> result (matrix f64).
Variable np_linalg_eig : matrix f64 -> result (eigvals * eigvecs).
Context {blas : Dot f64}.

(** The run of [get_pca] once the covariance is resolved and the solver
    and the two reorderings have returned. *)
Lemma get_pca_run (tod : option (AxisManager f64)) (cov signal : option loc)
    (h h0 : store f64) (c : loc) (C : matrix f64) (n : nat) (E0 : eigvals)
    (R0 : eigvecs) (E' : list f64) (R' : matrix f64) :
  resolve_cov np_cov tod cov signal h = (Ok c, h0) ->
  h0 !! c = Some C ->
  axis_count tod "dets" = Ok n ->
  nrows C = n -> ncols C = n ->
  np_linalg_eig C = Ok (E0, R0) ->
  take_idx (spec_eigenvalues E0)
           (np_argsort (map f64_neg (spec_eigenvalues E0))) = Ok E' ->
  take_columns (mat_real R0)
               (np_argsort (map f64_neg (spec_eigenvalues E0))) = Ok R' ->
  length E' = n -> nrows R' = n -> ncols R' = n ->
  get_pca np_cov np_linalg_eig tod cov signal h
  = (Ok {| axes := list_to_map [("dets", n); ("eigen", n)];
           fields := <["R" := fresh (dom h0)]> (<["cov" := c]> ∅);
           fields1 := <["E" := E']> ∅ |},
     <[fresh (dom h0) := R']> h0).
Proof.
  intros Hcov HC Hn HrC HcC Heig Htake HtakeR HlenE HrR HcR.
  unfold get_pca.
  rewrite (bind_ok _ _ _ _ _ Hcov).
  rewrite (bind_ok _ _ _ _ _ (lift_ok _ _ _ Hn)). cbv zeta.
  erewrite bind_ok;
    [|apply (wrap_ok _ _ _ _ _ _ C HC); rewrite ?HrC, ?HcC; reflexivity].
  rewrite (bind_ok _ _ _ _ _ (read_ok _ _ _ HC)).
  rewrite (bind_ok _ _ _ _ _ (lift_ok _ _ _ Heig)).
  cbn [fst snd]. rewrite spec_eigenvalues_clean.
  rewrite (bind_ok _ _ _ _ _ (lift_ok _ _ _ Htake)).
  erewrite bind_ok;
    [|apply lift_ok, wrap1_ok; rewrite HlenE; reflexivity].
  rewrite (bind_ok _ _ _ _ _ (lift_ok _ _ _ HtakeR)).
  rewrite (bind_ok _ _ _ _ _ (alloc_ok _ _)).
  erewrite wrap_ok;
    [reflexivity | apply lookup_insert_eq
     | rewrite HrR; reflexivity | rewrite HcR; reflexivity].
Qed.

(** X14.  [get_pca] leaves a decomposition that is already sorted as it
    is: when the eigenvalues, NaN replaced and real part taken, come from
    the solver in strictly decreasing order, [E] holds them and [R] the
    real parts of the eigenvectors in the solver's order. *)
Theorem get_pca_keeps_sorted (tod : option (AxisManager f64))
    (cov signal : option loc) (h h0 : store f64) (c : loc) (C : matrix f64)
    (n : nat) (E0 : eigvals) (R0 : eigvecs) :
  resolve_cov np_cov tod cov signal h = (Ok c, h0) ->
  h0 !! c = Some C ->
  axis_count tod "dets" = Ok n ->
  nrows C = n -> ncols C = n ->
  np_linalg_eig C = Ok (E0, R0) ->
  length (spec_eigenvalues E0) = n ->
  mat_wf (mat_real R0) -> nrows (mat_real R0) = n -> ncols (mat_real R0) = n ->
  StronglySorted (fun a b => f64_ltb b a = true) (spec_eigenvalues E0) ->
  get_pca np_cov np_linalg_eig tod cov signal h
  = (Ok {| axes := list_to_map [("dets", n); ("eigen", n)];
           fields := <["R" := fresh (dom h0)]> (<["cov" := c]> ∅);
           fields1 := <["E" := spec_eigenvalues E0]> ∅ |},
     <[fresh (dom h0) := mat_real R0]> h0).
Proof.
  intros Hcov HC Hn HrC HcC Heig HlenE HwfR HrR HcR Hsorted.
  pose proof (np_argsort_descending _ Hsorted) as Hidx.
  apply (get_pca_run tod cov signal h h0 c C n E0 R0); try assumption.
  - rewrite Hidx. apply take_idx_seq.
  - rewrite Hidx, HlenE, <- HcR. apply take_columns_seq. exact HwfR.
Qed.

(** The run of [get_pca_model] once the decomposition is resolved. *)
Lemma get_pca_model_run (tod pca : option (AxisManager f64))
    (n_modes : option nat) (signal : option loc) (h h0 : store f64)
    (p : AxisManager f64) (k dets samps : nat) (s r : loc)
    (S R : matrix f64) :
  resolve_pca np_cov np_linalg_eig tod pca signal h = (Ok p, h0) ->
  resolve_n_modes p n_modes = Ok k ->
  axis_count tod "dets" = Ok dets ->
  axis_count tod "samps" = Ok samps ->
  default_attr signal tod "signal" = Ok s -> h0 !! s = Some S ->
  getattr (Some p) "R" = Ok r -> h0 !! r = Some R ->
  nrows R = dets -> k <= ncols R -> nrows S = dets -> ncols S = samps ->
  let W := first_columns R k in
  let Mo := Matrix samps
              (map (fun a => map (fun j => dot_mm (transpose W) S a j)
                                 (seq 0 samps)) (seq 0 k)) in
  let w := fresh (dom h0) in
  let m := fresh (dom (<[w := W]> h0)) in
  get_pca_model np_cov np_linalg_eig tod pca n_modes signal h
  = (Ok {| axes := list_to_map
                     [("dets", dets); ("eigen", k); ("samps", samps)];
           fields := <["modes" := m]> (<["weights" := w]> ∅);
           fields1 := ∅ |},
     <[m := Mo]> (<[w := W]> h0)) /\
  np_dot (transpose W) S = Ok Mo /\
  s <> w /\ s <> m /\ w <> m.
Proof.
  intros Hpca Hk Hdets Hsamps Hs HS Hr HR HrR HkR HrS HcS W Mo w m.
  assert (HcW : ncols W = k) by (unfold W; simpl; lia).
  assert (HrW : nrows W = dets).
  { unfold W, nrows. simpl. rewrite length_map. exact HrR. }
  assert (HrT : nrows (transpose W) = k).
  { unfold transpose, nrows. simpl. rewrite length_map, length_seq.
    exact HcW. }
  assert (Hdot : np_dot (transpose W) S = Ok Mo).
  { unfold np_dot. rewrite HrT, HcS. unfold Mo. simpl.
    destruct (decide (nrows W = nrows S)); [reflexivity | congruence]. }
  assert (HrMo : nrows Mo = k).
  { unfold Mo, nrows. simpl. rewrite length_map, length_seq. reflexivity. }
  assert (Hw : h0 !! w = None) by apply fresh_loc_unused.
  assert (Hm : (<[w := W]> h0) !! m = None) by apply fresh_loc_unused.
  assert (Hsw : s <> w) by (intros ->; congruence).
  assert (Hwm : w <> m).
  { intros E. rewrite <- E, lookup_insert_eq in Hm. discriminate. }
  assert (Hsm : s <> m).
  { intros ->. rewrite lookup_insert_ne in Hm by congruence. congruence. }
  assert (HSw : (<[w := W]> h0) !! s = Some S).
  { rewrite lookup_insert_ne by congruence. exact HS. }
  split; [|auto].
  unfold get_pca_model.
  rewrite (bind_ok _ _ _ _ _ Hpca).
  rewrite (bind_ok _ _ _ _ _ (lift_ok _ _ _ Hk)).
  rewrite (bind_ok _ _ _ _ _ (lift_ok _ _ _ Hdets)).
  rewrite (bind_ok _ _ _ _ _ (lift_ok _ _ _ Hsamps)). cbv zeta.
  rewrite (bind_ok _ _ _ _ _ (lift_ok _ _ _ Hs)).
  rewrite (bind_ok _ _ _ _ _ (lift_ok _ _ _ Hr)).
  rewrite (bind_ok _ _ _ _ _ (read_ok _ _ _ HR)).
  rewrite (bind_ok _ _ _ _ _ (alloc_ok _ _)). fold W w.
  erewrite bind_ok;
    [|apply (wrap_ok _ _ _ _ _ _ W (lookup_insert_eq _ _ _));
      rewrite ?HrW, ?HcW; reflexivity].
  rewrite (bind_ok _ _ _ _ _ (read_ok _ _ _ (lookup_insert_eq _ _ _))).
  rewrite (bind_ok _ _ _ _ _ (read_ok _ _ _ HSw)).
  rewrite (bind_ok _ _ _ _ _ (lift_ok _ _ _ Hdot)).
  rewrite (bind_ok _ _ _ _ _ (alloc_ok _ _)). fold m.
  erewrite wrap_ok;
    [reflexivity | apply lookup_insert_eq
     | rewrite HrMo; reflexivity | reflexivity].
Qed.

Lemma first_columns_all (R : matrix f64) :
  mat_wf R -> first_columns R (ncols R) = R.
Proof.
  intros Hwf. unfold first_columns. rewrite Nat.min_id.
  transitivity (Matrix (ncols R) (rows R)); [|apply matrix_eta].
  f_equal. unfold mat_wf in Hwf.
  induction Hwf as [|r rs Hr _ IH]; [reflexivity|].
  simpl. rewrite IH, <- Hr, firstn_all. reflexivity.
Qed.

(** X15.  The model [get_pca_model] returns is one [add_model] accepts:
    for a signal and eigenvectors of the shapes the docstrings give,
    [add_model] on the returned model, with any scale, raises nothing,
    returns the signal and writes to the signal only: every row with
    weights that are not all zero receives
    [np.dot(weights[i] * scale, modes)] for the returned weights and
    modes, whatever [np.dot] rounds to. *)
Theorem get_pca_model_then_add_model (tod pca : option (AxisManager f64))
    (n_modes : option nat) (signal : option loc) (h h0 : store f64)
    (p : AxisManager f64) (k dets samps : nat) (s r : loc)
    (S R : matrix f64) (scale : f64) :
  resolve_pca np_cov np_linalg_eig tod pca signal h = (Ok p, h0) ->
  resolve_n_modes p n_modes = Ok k ->
  axis_count tod "dets" = Ok dets ->
  axis_count tod "samps" = Ok samps ->
  default_attr signal tod "signal" = Ok s -> h0 !! s = Some S ->
  getattr (Some p) "R" = Ok r -> h0 !! r = Some R ->
  mat_wf R -> nrows R = dets -> k <= ncols R ->
  mat_wf S -> nrows S = dets -> ncols S = samps ->
  exists (model : AxisManager f64) (h1 : store f64) (w m : loc)
         (Mo : matrix f64),
    get_pca_model np_cov np_linalg_eig tod pca n_modes signal h
    = (Ok model, h1) /\
    getattr (Some model) "weights" = Ok w /\
    getattr (Some model) "modes" = Ok m /\
    h1 !! w = Some (first_columns R k) /\ h1 !! m = Some Mo /\
    h1 !! s = Some S /\
    np_dot (transpose (first_columns R k)) S = Ok Mo /\
    add_model tod (Some model) scale signal None None h1
    = (Ok s, <[s := accumulated scale (first_columns R k) Mo S 0 dets]> h1).
Proof.
  intros Hpca Hk Hdets Hsamps Hs HS Hr HR HwfR HrR HkR HwfS HrS HcS.
  destruct (get_pca_model_run tod pca n_modes signal h h0 p k dets samps s r
              S R Hpca Hk Hdets Hsamps Hs HS Hr HR HrR HkR HrS HcS)
    as (Hrun & Hdot & Hsw & Hsm & Hwm).
  set (W := first_columns R k) in *.
  set (Mo := Matrix samps
               (map (fun a => map (fun j => dot_mm (transpose W) S a j)
                                  (seq 0 samps)) (seq 0 k))) in *.
  set (w := fresh (dom h0)) in *.
  set (m := fresh (dom (<[w := W]> h0))) in *.
  assert (Hh1w : (<[m := Mo]> (<[w := W]> h0)) !! w = Some W).
  { rewrite lookup_insert_ne by congruence. apply lookup_insert_eq. }
  assert (Hh1s : (<[m := Mo]> (<[w := W]> h0)) !! s = Some S).
  { rewrite !lookup_insert_ne by congruence. exact HS. }
  eexists _, _, w, m, Mo.
  split; [exact Hrun|].
  split; [reflexivity|]. split; [reflexivity|].
  split; [exact Hh1w|]. split; [apply lookup_insert_eq|].
  split; [exact Hh1s|]. split; [exact Hdot|].
  apply (add_model_ok tod _ scale signal None None _ s m w dets S Mo W);
    try reflexivity; try assumption.
  - apply lookup_insert_eq.
  - unfold shapes_agree. repeat split.
    + exact HwfS.
    + apply first_columns_wf. exact HwfR.
    + lia.
    + unfold W, nrows. simpl. rewrite length_map. unfold nrows in HrR. lia.
    + unfold W, Mo, nrows. simpl. rewrite length_map, length_seq. lia.
    + exact HcS.
Qed.

(** X16.  From the signal alone: when [np.cov] of the signal and the
    eigen-solver return arrays of the shape of the covariance,
    [get_pca_model] with no decomposition and no number of modes succeeds.
    For some permutation [idx] that puts the eigenvalues, NaN replaced and
    real part taken, in non-increasing order, column [i] of its weights is
    the real part of the solver's column [idx[i]]; its modes are [np.dot]
    of the transpose of the weights with the signal, and the signal is
    left as it was. *)
Theorem get_pca_model_from_signal (tod : option (AxisManager f64))
    (signal : option loc) (h : store f64) (s : loc) (S C : matrix f64)
    (dets samps : nat) (E0 : eigvals) (R0 : eigvecs) :
  default_attr signal tod "signal" = Ok s -> h !! s = Some S ->
  axis_count tod "dets" = Ok dets -> axis_count tod "samps" = Ok samps ->
  nrows S = dets -> ncols S = samps ->
  np_cov S = Ok C -> nrows C = dets -> ncols C = dets ->
  np_linalg_eig C = Ok (E0, R0) ->
  length (spec_eigenvalues E0) = dets ->
  mat_wf (mat_real R0) ->
  nrows (mat_real R0) = dets -> ncols (mat_real R0) = dets ->
  exists (idx : list nat) (E' : list f64) (R' Mo : matrix f64)
         (model : AxisManager f64) (h' : store f64) (w m : loc),
    get_pca_model np_cov np_linalg_eig tod None None signal h
    = (Ok model, h') /\
    axes model
    = list_to_map [("dets", dets); ("eigen", dets); ("samps", samps)] /\
    Permutation idx (seq 0 dets) /\
    (forall i j, idx !! i = Some j ->
       E' !! i = spec_eigenvalues E0 !! j /\
       forall d, entry R' d i = spec_eigenvector R0 d j) /\
    StronglySorted (fun a b => f64_leb b a = true) E' /\
    nrows R' = dets /\ ncols R' = dets /\
    np_dot (transpose R') S = Ok Mo /\
    fields model !! "weights" = Some w /\ h' !! w = Some R' /\
    fields model !! "modes" = Some m /\ h' !! m = Some Mo /\
    h' !! s = Some S.
Proof.
  intros Hs HS Hdets Hsamps HrS HcS Hcov HrC HcC Heig HlenE HwfR HrR HcR.
  pose proof (argsort_neg_descending (spec_eigenvalues E0)
                (spec_eigenvalues_no_nan E0))
    as (Hperm & E' & Htake & HlenE' & HlookE & Hsorted).
  set (idx := np_argsort (map f64_neg (spec_eigenvalues E0))) in *.
  rewrite HlenE in Hperm.
  assert (Hperm' : Permutation idx (seq 0 (ncols (mat_real R0))))
    by (rewrite HcR; exact Hperm).
  destruct (take_columns_perm (mat_real R0) idx HwfR Hperm')
    as (R' & HtakeR & HrR' & HcR' & _).
  pose proof (take_columns_wf _ _ _ HwfR HtakeR) as HwfR'.
  set (c := fresh (dom h)).
  set (h0 := <[c := C]> h).
  set (r := fresh (dom h0)).
  set (h1 := <[r := R']> h0).
  assert (Hc : h !! c = None) by apply fresh_loc_unused.
  assert (Hr : h0 !! r = None) by apply fresh_loc_unused.
  assert (Hsc : s <> c) by (intros ->; congruence).
  assert (Hsr : s <> r).
  { intros ->. unfold h0 in Hr. rewrite lookup_insert_ne in Hr by congruence.
    congruence. }
  assert (Hrc : resolve_cov np_cov tod None signal h = (Ok c, h0)).
  { unfold resolve_cov.
    rewrite (bind_ok _ _ _ _ _ (lift_ok _ _ _ Hs)).
    rewrite (bind_ok _ _ _ _ _ (read_ok _ _ _ HS)).
    rewrite (bind_ok _ _ _ _ _ (lift_ok _ _ _ Hcov)). reflexivity. }
  assert (Hpca : resolve_pca np_cov np_linalg_eig tod None signal h
                 = (Ok {| axes := list_to_map [("dets", dets); ("eigen", dets)];
                          fields := <["R" := r]> (<["cov" := c]> ∅);
                          fields1 := <["E" := E']> ∅ |}, h1)).
  { unfold resolve_pca.
    apply (get_pca_run tod None signal h h0 c C dets E0 R0 E' R');
      try assumption; try congruence.
    apply lookup_insert_eq. }
  destruct (get_pca_model_run tod None None signal h h1 _ dets dets samps s r
              S R' Hpca eq_refl Hdets Hsamps Hs)
    as (Hrun & Hdot & Hsw & Hsm & Hwm); try assumption; try congruence;
    try reflexivity; try lia.
  { unfold h1, h0. rewrite !lookup_insert_ne by congruence. exact HS. }
  { apply lookup_insert_eq. }
  assert (HW : first_columns R' dets = R').
  { assert (Hd : dets = ncols R') by congruence.
    rewrite Hd. apply first_columns_all. exact HwfR'. }
  rewrite HW in *.
  eexists idx, E', R', _, _, _, _, _.
  split; [exact Hrun|]. split; [reflexivity|].
  split; [exact Hperm|].
  split.
  { intros i j Hij. split; [apply HlookE; exact Hij|].
    intros d. rewrite <- mat_real_entry.
    apply (take_columns_entry (mat_real R0) R' idx HwfR);
      [apply perm_seq_bound; exact Hperm' | exact HtakeR | exact Hij]. }
  split; [exact Hsorted|].
  split; [congruence|]. split; [congruence|].
  split; [exact Hdot|].
  split; [reflexivity|].
  split.
  { rewrite lookup_insert_ne by (intros E; apply Hwm; symmetry; exact E).
    apply lookup_insert_eq. }
  split; [reflexivity|]. split; [apply lookup_insert_eq|].
  rewrite lookup_insert_ne by (intros E; apply Hsm; symmetry; exact E).
  rewrite lookup_insert_ne by (intros E; apply Hsw; symmetry; exact E).
  unfold h1, h0. rewrite !lookup_insert_ne by congruence. exact HS.
Qed.

End PcaRuns.

Section TrendsEdges.
Context {blas : Dot f64}.
Variable np_mean : list f64 -> f64.

Lemma f64_sub_diag (x : f64) :
  f64_isfinite x = true -> f64_sub x x = f64_zero.
Proof.
  destruct x as [s| | |s m e]; try discriminate; intros _.
  - destruct s; reflexivity.
  - unfold f64_sub, SFsub. rewrite Z.sub_diag. reflexivity.
Qed.

(** The run of [get_trends] without [remove] on a signal of the shape of
    [tod]. *)
Lemma get_trends_run (tod : option (AxisManager f64)) (size : Z)
    (signal : option loc) (h : store f64) (s : loc) (S : matrix f64)
    (dets samps : nat) :
  default_attr signal tod "signal" = Ok s -> h !! s = Some S ->
  axis_count tod "dets" = Ok dets -> axis_count tod "samps" = Ok samps ->
  nrows S = dets -> ncols S = samps ->
  let mo := fresh (dom h) in
  let we := fresh (dom (<[mo := trend_modes samps]> h)) in
  get_trends np_mean tod false size signal h
  = (Ok {| axes := list_to_map
                     [("dets", dets); ("eigen", 2); ("samps", samps)];
           fields := <["weights" := we]> (<["modes" := mo]> ∅);
           fields1 := ∅ |},
     <[we := trend_weights np_mean (trend_size size samps) S]>
       (<[mo := trend_modes samps]> h)).
Proof.
  intros Hs HS Hdets Hsamps HrS HcS mo we. unfold get_trends.
  rewrite (bind_ok _ _ _ _ _ (lift_ok _ _ _ Hs)).
  rewrite (bind_ok _ _ _ _ _ (lift_ok _ _ _ Hdets)).
  rewrite (bind_ok _ _ _ _ _ (lift_ok _ _ _ Hsamps)). cbv zeta.
  rewrite (bind_ok _ _ _ _ _ (read_ok _ _ _ HS)).
  erewrite bind_ok;
    [|apply lift_ok, column_value_ok; rewrite length_map; exact HrS].
  erewrite bind_ok;
    [|apply lift_ok, column_value_ok; rewrite length_map; exact HrS].
  rewrite zip_with_map_same, HcS.
  rewrite (bind_ok _ _ _ _ _ (alloc_ok _ _)).
  rewrite (bind_ok _ _ _ _ _ (alloc_ok _ _)).
  reflexivity.
Qed.

(** X17.  A detector whose last [k] samples repeat its first [k], and for
    which the mean numpy computes of these [k] samples is finite, gets the
    trend weight [0.] exactly: the two window means are the same float64
    and their difference is [+0.].  [k] is the window
    [max(1, min(size, samps // 2))]. *)
Theorem get_trends_flat_channel (tod : option (AxisManager f64)) (size : Z)
    (signal : option loc) (h : store f64) (s : loc) (S : matrix f64)
    (dets samps i : nat) (si : list f64) :
  default_attr signal tod "signal" = Ok s -> h !! s = Some S ->
  axis_count tod "dets" = Ok dets -> axis_count tod "samps" = Ok samps ->
  nrows S = dets -> ncols S = samps ->
  rows S !! i = Some si ->
  last_samples (trend_size size samps) si = take (trend_size size samps) si ->
  f64_isfinite (np_mean (take (trend_size size samps) si)) = true ->
  exists (trends : AxisManager f64) (h' : store f64) (we : loc),
    get_trends np_mean tod false size signal h = (Ok trends, h') /\
    getattr (Some trends) "weights" = Ok we /\
    row_of h' we i = Some [np_mean si; f64_zero].
Proof.
  intros Hs HS Hdets Hsamps HrS HcS Hsi Hflat Hfin.
  eexists _, _, _.
  split; [apply (get_trends_run tod size signal h s S dets samps);
          assumption|].
  split; [reflexivity|].
  unfold row_of. rewrite lookup_insert_eq. simpl.
  rewrite lookup_map, Hsi. simpl.
  rewrite Hflat, (f64_sub_diag _ Hfin). reflexivity.
Qed.

Lemma get_trends_same_window (tod : option (AxisManager f64))
    (remove : bool) (size size' : Z) (signal : option loc) (h : store f64) :
  (forall s S, default_attr signal tod "signal" = Ok s -> h !! s = Some S ->
     trend_size size (ncols S) = trend_size size' (ncols S)) ->
  get_trends np_mean tod remove size signal h = get_trends np_mean tod remove size' signal h.
Proof.
  intros Hsame. unfold get_trends.
  unfold mbind, py_mbind, py_bind, py_lift, read.
  destruct (default_attr signal tod "signal") as [s|e]; [|reflexivity].
  destruct (axis_count tod "dets") as [dets|e]; [|reflexivity].
  destruct (axis_count tod "samps") as [samps|e]; [|reflexivity].
  cbv beta iota zeta.
  destruct (h !! s) as [S|] eqn:HS; [|reflexivity].
  rewrite (Hsame s S eq_refl HS). reflexivity.
Qed.

(** X18.  [get_trends] clamps [size]: zero and negative sizes behave as
    [size = 1], and every size of half the samples or more behaves as half
    the samples. *)
Theorem get_trends_size_clamped (tod : option (AxisManager f64))
    (remove : bool) (size : Z) (signal : option loc) (h : store f64) :
  ((size <= 1)%Z ->
     get_trends np_mean tod remove size signal h = get_trends np_mean tod remove 1 signal h)
  /\
  (forall s S, default_attr signal tod "signal" = Ok s -> h !! s = Some S ->
     (Z.of_nat (ncols S) / 2 <= size)%Z ->
     get_trends np_mean tod remove size signal h
     = get_trends np_mean tod remove (Z.of_nat (ncols S) / 2) signal h).
Proof.
  split.
  - intros Hsize. apply get_trends_same_window. intros s S _ _.
    unfold trend_size. f_equal. lia.
  - intros s S Hs HS Hsize. apply get_trends_same_window.
    intros s' S' Hs' HS'.
    assert (S' = S) by congruence. subst S'.
    unfold trend_size. f_equal. lia.
Qed.

(** X19.  [get_trends] on a signal whose number of rows is neither the
    number of detectors of [tod] nor one raises [ValueError] when it fills
    the weights, and leaves the store as it is, with [remove] or
    without. *)
Theorem get_trends_rows_mismatch (tod : option (AxisManager f64))
    (remove : bool) (size : Z) (signal : option loc) (h : store f64)
    (s : loc) (S : matrix f64) (dets samps : nat) :
  default_attr signal tod "signal" = Ok s -> h !! s = Some S ->
  axis_count tod "dets" = Ok dets -> axis_count tod "samps" = Ok samps ->
  nrows S <> dets -> nrows S <> 1 ->
  get_trends np_mean tod remove size signal h = (Raise ValueError, h).
Proof.
  intros Hs HS Hdets Hsamps Hne H1. unfold get_trends.
  rewrite (bind_ok _ _ _ _ _ (lift_ok _ _ _ Hs)).
  rewrite (bind_ok _ _ _ _ _ (lift_ok _ _ _ Hdets)).
  rewrite (bind_ok _ _ _ _ _ (lift_ok _ _ _ Hsamps)). cbv zeta.
  rewrite (bind_ok _ _ _ _ _ (read_ok _ _ _ HS)).
  assert (Hcol : column_value dets (map np_mean (rows S)) = Raise ValueError).
  { unfold column_value.
    destruct (decide (length (map np_mean (rows S)) = dets)) as [Hlen|_].
    - rewrite length_map in Hlen. contradiction.
    - unfold nrows in H1. destruct (rows S) as [|r [|r' rs]];
        [reflexivity | contradiction | reflexivity]. }
  unfold mbind at 1. unfold py_mbind, py_bind, py_lift.
  rewrite Hcol. reflexivity.
Qed.

End TrendsEdges.

Section Float64Instances.
#[local] Existing Instance dot_in_order.

Lemma get_pca_keeps_sorted_witness :
  get_pca cov_unavailable eig_diagonal (Some tod_cov) (Some 0) None
          store_cov_sorted
  = (Ok {| axes := list_to_map [("dets", 2); ("eigen", 2)];
           fields := <["R" := fresh (dom store_cov_sorted)]>
                       (<["cov" := 0]> ∅);
           fields1 := <["E" := [f64_of_int 3; f64_of_int 2]]> ∅ |},
     <[fresh (dom store_cov_sorted)
       := Matrix 2 [[f64_one; f64_zero]; [f64_zero; f64_one]]]>
       store_cov_sorted).
Proof.
  assert (Hwf : mat_wf (Matrix 2 [[f64_one; f64_zero]; [f64_zero; f64_one]]))
    by (repeat constructor).
  assert (Hsorted : StronglySorted (fun a b => f64_ltb b a = true)
                      [f64_of_int 3; f64_of_int 2])
    by (repeat constructor).
  exact (get_pca_keeps_sorted cov_unavailable eig_diagonal (Some tod_cov)
           (Some 0) None store_cov_sorted store_cov_sorted 0 cov_sorted 2
           (RealVec [f64_of_int 3; f64_of_int 2])
           (RealMat (Matrix 2 [[f64_one; f64_zero]; [f64_zero; f64_one]]))
           eq_refl eq_refl eq_refl eq_refl eq_refl eq_refl eq_refl
           Hwf eq_refl eq_refl Hsorted).
Defined.

Lemma get_pca_model_then_add_model_witness :
  exists (model : AxisManager f64) (h1 : store f64) (w m : loc)
         (Mo : matrix f64),
    get_pca_model cov_unavailable eig_diagonal (Some tod_cov) (Some pca_2)
                  (Some 1) None store_pca
    = (Ok model, h1) /\
    getattr (Some model) "weights" = Ok w /\
    getattr (Some model) "modes" = Ok m /\
    h1 !! w = Some (Matrix 1 [[f64_zero]; [f64_one]]) /\
    h1 !! m = Some Mo /\
    h1 !! 1 = Some signal_2x3 /\
    np_dot (transpose (Matrix 1 [[f64_zero]; [f64_one]])) signal_2x3
    = Ok Mo /\
    add_model (Some tod_cov) (Some model) (f64_of_int (-1)) None None None h1
    = (Ok 1, <[1 := accumulated (f64_of_int (-1))
                      (Matrix 1 [[f64_zero]; [f64_one]]) Mo signal_2x3 0 2]>
               h1).
Proof.
  assert (HwfR : mat_wf (Matrix 2 [[f64_zero; f64_one]; [f64_one; f64_zero]]))
    by (repeat constructor).
  assert (HwfS : mat_wf signal_2x3) by (repeat constructor).
  exact (get_pca_model_then_add_model cov_unavailable eig_diagonal
           (Some tod_cov) (Some pca_2) (Some 1) None store_pca store_pca
           pca_2 1 2 3 1 0 signal_2x3
           (Matrix 2 [[f64_zero; f64_one]; [f64_one; f64_zero]])
           (f64_of_int (-1))
           eq_refl eq_refl eq_refl eq_refl eq_refl eq_refl eq_refl eq_refl
           HwfR eq_refl ltac:(simpl; lia) HwfS eq_refl eq_refl).
Defined.

Lemma get_pca_model_from_signal_witness :
  exists (idx : list nat) (E' : list f64) (R' Mo : matrix f64)
         (model : AxisManager f64) (h' : store f64) (w m : loc),
    get_pca_model cov_constant eig_diagonal (Some tod_cov) None None None
                  store_cov
    = (Ok model, h') /\
    axes model = list_to_map [("dets", 2); ("eigen", 2); ("samps", 3)] /\
    Permutation idx (seq 0 2) /\
    (forall i j, idx !! i = Some j ->
       E' !! i = [f64_of_int 2; f64_of_int 3] !! j /\
       forall d,
         entry R' d i
         = spec_eigenvector
             (RealMat
                (Matrix 2 [[f64_one; f64_zero]; [f64_zero; f64_one]])) d j) /\
    StronglySorted (fun a b => f64_leb b a = true) E' /\
    nrows R' = 2 /\ ncols R' = 2 /\
    np_dot (transpose R') signal_2x3 = Ok Mo /\
    fields model !! "weights" = Some w /\ h' !! w = Some R' /\
    fields model !! "modes" = Some m /\ h' !! m = Some Mo /\
    h' !! 1 = Some signal_2x3.
Proof.
  assert (Hwf : mat_wf (Matrix 2 [[f64_one; f64_zero]; [f64_zero; f64_one]]))
    by (repeat constructor).
  exact (get_pca_model_from_signal cov_constant eig_diagonal (Some tod_cov)
           None store_cov 1 signal_2x3 cov_diag 2 3
           (RealVec [f64_of_int 2; f64_of_int 3])
           (RealMat (Matrix 2 [[f64_one; f64_zero]; [f64_zero; f64_one]]))
           eq_refl eq_refl eq_refl eq_refl eq_refl eq_refl eq_refl
           eq_refl eq_refl eq_refl eq_refl Hwf eq_refl eq_refl).
Defined.

Lemma get_trends_flat_channel_witness :
  exists (trends : AxisManager f64) (h' : store f64) (we : loc),
    get_trends mean_in_order (Some tod_loop) false 1 None store_loop
    = (Ok trends, h') /\
    getattr (Some trends) "weights" = Ok we /\
    row_of h' we 0
    = Some [mean_in_order
              [f64_of_int 1; f64_of_int 5; f64_of_int 7; f64_of_int 1];
            f64_zero].
Proof.
  exact (get_trends_flat_channel mean_in_order (Some tod_loop) 1 None
           store_loop 0
           signal_loop 1 4 0
           [f64_of_int 1; f64_of_int 5; f64_of_int 7; f64_of_int 1]
           eq_refl eq_refl eq_refl eq_refl eq_refl eq_refl eq_refl
           eq_refl eq_refl).
Defined.

Lemma get_trends_size_clamped_witness :
  get_trends mean_in_order (Some tod_ramp) true (-3) None store_ramp
  = get_trends mean_in_order (Some tod_ramp) true 1 None store_ramp /\
  get_trends mean_in_order (Some tod_ramp) true 100 None store_ramp
  = get_trends mean_in_order (Some tod_ramp) true 5 None store_ramp.
Proof.
  destruct (get_trends_size_clamped mean_in_order (Some tod_ramp) true (-3)
              None store_ramp) as [Hlow _].
  destruct (get_trends_size_clamped mean_in_order (Some tod_ramp) true 100
              None store_ramp) as [_ Hhigh].
  split.
  - apply Hlow. lia.
  - apply (Hhigh 0 signal_ramp eq_refl eq_refl).
    change (5 <= 100)%Z. lia.
Defined.

Lemma get_trends_rows_mismatch_witness :
  get_trends mean_in_order (Some tod_ramp) true 1 None store_two_rows
  = (Raise ValueError, store_two_rows).
Proof.
  assert (Hne : nrows (Matrix 1 [[f64_of_int 1]; [f64_of_int 2]]) <> 1)
    by (unfold nrows; simpl; lia).
  exact (get_trends_rows_mismatch mean_in_order (Some tod_ramp) true 1 None
           store_two_rows 0 (Matrix 1 [[f64_of_int 1]; [f64_of_int 2]]) 1 10
           eq_refl eq_refl eq_refl eq_refl Hne Hne).
Defined.

End Float64Instances.
